(** * OAuth2 authorization-code + PKCE client: auth-utils.ts and App.tsx

    A shallow embedding of the browser-side sign-in flow and the properties
    proved about it.

    Embedded from auth-utils.ts: [generateRandomString],
    [generateCodeChallenge], [base64UrlEncode], [signInWithLang],
    [exchangeCodeForTokens], [validateState], [getAuthorizationCode],
    [clearAuthorizationCode], [markExchangeInProgress],
    [isExchangeInProgress]; from App.tsx: [parseJwt],
    [getUserInfoFromToken], [checkUserStatus], [checkStoredTokens],
    [handleAuth] with its [waitForTokens] loop, [handleRetry],
    [handleSignIn], [handleSignOut], the language state and its effect, and
    the choice among the screens of [App].  The markup of the screens, the
    translated texts and the components [LanguageSelector] and
    [AuthenticatedApp] are not part of it.

    - Browser storage ([sessionStorage], [localStorage]) is a finite map from
      keys to strings; [getItem], [setItem] and [removeItem] are lookup,
      insert and delete.
    - The address bar is a path together with its parsed query parameters;
      [URLSearchParams.get] returns the first value of a name and
      [URLSearchParams.delete] removes every occurrence.
    - [handleAuth] is an async function.  Between two awaits on an outside
      event (a network reply, the 100 ms timer) its code runs without
      interruption, so one invocation is a program point [Pc] and one
      transition per outside event; an await on a promise that is already
      settled is folded into the transition.  Concurrent invocations (React
      StrictMode mounts the effect twice) interleave at those points over one
      shared [World].
    - The JavaScript library ([JSON], [atob], [decodeURIComponent]) and the
      build-time configuration are the fields of the class [Platform]; what
      the program needs of [JSON] is stated in [LawfulPlatform].  A reference
      platform is defined below; it meets these laws and runs the model on
      concrete inputs.
    - [btoa], SHA-256, [encodeURIComponent] and the serialiser of
      [URLSearchParams] are defined as their standards describe them; the
      random generator of [crypto] is the sequence of bytes it hands out.
      An assignment to [window.location.href] ends the page: the functions
      that make one return the URL.
    - Entries of the two stores read back with [JSON.parse] are taken at the
      TypeScript type the source declares for them, at the first read of one
      of their properties; an entry of any other shape is outside the model
      and ends the run there like an exception would.  The payload of a token
      is kept as [JSON.parse] returns it.
    - Strings are sequences of bytes, text being held in UTF-8; times are
      integer milliseconds ([Date.now()]). *)

From Stdlib Require Import ZArith Ascii String List Lia DecimalString DecimalN DecimalFacts.
From stdpp Require Import base option strings gmap list.

Local Open Scope string_scope.
Local Open Scope Z_scope.

(** ** JavaScript values *)

(** A value produced by [JSON.parse]. *)
#[local] Unset Elimination Schemes.
Inductive jsval : Type :=
| JNull
| JBool (b : bool)
| JNum (z : Z)
| JStr (s : string)
| JArr (items : list jsval)
| JObj (fields : list (string * jsval)).
#[local] Set Elimination Schemes.

(** Result of running code that may throw. *)
Inductive Completion (A : Type) : Type :=
| Normal (a : A)
| Throw (e : string).
Arguments Normal {A} a.
Arguments Throw {A} e.

(** Sequencing: an exception ends the computation. *)
Definition and_then {A B : Type} (c : Completion A) (k : A -> Completion B) : Completion B :=
  match c with
  | Normal a => k a
  | Throw e => Throw e
  end.

Notation "'let*' x := c 'in' k" := (and_then c (fun x => k))
  (at level 10, x name, c at level 100, k at level 200).

(** Own property of a parsed object: when a name is repeated in the
    document, the last member wins. *)
Fixpoint obj_lookup (k : string) (fs : list (string * jsval)) : option jsval :=
  match fs with
  | [] => None
  | (k', v) :: rest =>
      match obj_lookup k rest with
      | Some v' => Some v'
      | None => if String.eqb k k' then Some v else None
      end
  end.

(** [v[k]] for a name [k] that is neither an index nor a built-in member:
    reading from [null] throws, an object yields its member, every other
    value yields [undefined] ([None]). *)
Definition js_get (v : jsval) (k : string) : Completion (option jsval) :=
  match v with
  | JNull => Throw "TypeError: Cannot read properties of null"
  | JObj fs => Normal (obj_lookup k fs)
  | _ => Normal None
  end.

(** JavaScript truthiness of a value or [undefined]. *)
Definition js_truthy (v : option jsval) : bool :=
  match v with
  | None | Some JNull => false
  | Some (JBool b) => b
  | Some (JNum z) => negb (z =? 0)
  | Some (JStr s) => negb (String.eqb s "")
  | Some (JArr _) | Some (JObj _) => true
  end.

(** [a || b] *)
Definition js_or (a b : option jsval) : option jsval :=
  if js_truthy a then a else b.

(** Truthiness of a [string | null]: the value when it is a non-empty
    string. *)
Definition truthy (o : option string) : option string :=
  match o with
  | Some s => if String.eqb s "" then None else Some s
  | None => None
  end.

(** ** Data model *)

(** [{ code: string; state: string }], the PendingCallback. *)
Record AuthCode := mkAuthCode { code : string; state : string }.

(** [interface TokenResponse] *)
Record TokenResponse := mkTokenResponse {
  access_token : string;
  id_token : string;
  refresh_token : string;
  token_type : string;
  expires_in : Z
}.

(** [interface StoredTokens] *)
Record StoredTokens := mkStoredTokens {
  accessToken : string;
  idToken : string;
  refreshToken : string;
  expiresAt : Z
}.

(** [interface UserInfo]; the claims are [unknown] values cast without a
    check, so each field holds whatever the token carried. *)
Record UserInfo := mkUserInfo {
  username : option jsval;
  userId : option jsval;
  email : option jsval;
  emailVerified : option jsval;
  givenName : option jsval;
  familyName : option jsval;
  name : option jsval
}.

(** [type UserStatus = 'loading' | 'approved' | 'pending' | 'deactivated' | 'error'] *)
Inductive UserStatus := Loading | Approved | Pending | Deactivated | Error.

Definition AuthCode_to_js (ac : AuthCode) : jsval :=
  JObj [("code", JStr (code ac)); ("state", JStr (state ac))].

Definition StoredTokens_to_js (t : StoredTokens) : jsval :=
  JObj [("accessToken", JStr (accessToken t)); ("idToken", JStr (idToken t));
        ("refreshToken", JStr (refreshToken t)); ("expiresAt", JNum (expiresAt t))].

(** A parsed document read at type [{ code: string; state: string }]. *)
Definition as_AuthCode (v : jsval) : option AuthCode :=
  match v with
  | JObj fs =>
      match obj_lookup "code" fs, obj_lookup "state" fs with
      | Some (JStr c), Some (JStr s) => Some (mkAuthCode c s)
      | _, _ => None
      end
  | _ => None
  end.

(** A parsed document read at type [StoredTokens]. *)
Definition as_StoredTokens (v : jsval) : option StoredTokens :=
  match v with
  | JObj fs =>
      match obj_lookup "accessToken" fs, obj_lookup "idToken" fs,
            obj_lookup "refreshToken" fs, obj_lookup "expiresAt" fs with
      | Some (JStr a), Some (JStr i), Some (JStr r), Some (JNum e) =>
          Some (mkStoredTokens a i r e)
      | _, _, _, _ => None
      end
  | _ => None
  end.

(** ** The platform: JavaScript library and build-time configuration *)

Class Platform := {
  (** [JSON.parse]; [None] is a [SyntaxError]. *)
  JSON_parse : string -> option jsval;
  (** [JSON.stringify] *)
  JSON_stringify : jsval -> string;
  (** [atob]; [None] is an [InvalidCharacterError]. *)
  atob : string -> option string;
  (** [decodeURIComponent]; [None] is a [URIError]. *)
  decodeURIComponent : string -> option string;
  (** [import.meta.env] *)
  VITE_COGNITO_DOMAIN : string;
  VITE_COGNITO_USER_POOL_CLIENT_ID : string;
  VITE_REDIRECT_SIGN_IN : string
}.

(** What the program relies on: the documents it writes read back as
    written, and a serialised object is never the empty string. *)
Class LawfulPlatform `{Platform} : Prop := {
  JSON_parse_stringify_AuthCode : forall ac,
    JSON_parse (JSON_stringify (AuthCode_to_js ac)) = Some (AuthCode_to_js ac);
  JSON_parse_stringify_StoredTokens : forall t,
    JSON_parse (JSON_stringify (StoredTokens_to_js t)) = Some (StoredTokens_to_js t);
  JSON_stringify_nonempty : forall fs, JSON_stringify (JObj fs) <> ""
}.

(** ** Browser state *)

(** [window.location]: everything but the query, and the query parameters in
    order. *)
Record Location := mkLocation { path : string; query : list (string * string) }.

(** [URLSearchParams.get] *)
Fixpoint searchParams_get (k : string) (q : list (string * string)) : option string :=
  match q with
  | [] => None
  | (k', v) :: rest => if String.eqb k k' then Some v else searchParams_get k rest
  end.

(** [URLSearchParams.delete] *)
Fixpoint searchParams_delete (k : string) (q : list (string * string)) : list (string * string) :=
  match q with
  | [] => []
  | (k', v) :: rest =>
      if String.eqb k k' then searchParams_delete k rest
      else (k', v) :: searchParams_delete k rest
  end.

(** A request handed to [fetch]. *)
Inductive Request :=
| TokenRequest (url : string) (form : list (string * string))
| StatusRequest (url : string) (authorization : string).

Record World := mkWorld {
  sessionStorage : gmap string string;
  localStorage : gmap string string;
  location : Location;
  (** session-history entries behind the current one *)
  history_back : list Location;
  (** React state of [App] *)
  user : option UserInfo;
  userStatus : UserStatus;
  loading : bool;
  (** every [fetch] issued so far, newest first, with the invocation that
      issued it *)
  requests : list (nat * Request);
  (** [console.error] lines, newest first *)
  console : list string;
  (** every [setTimeout] armed so far, newest first: invocation and delay in
      milliseconds *)
  timers : list (nat * Z)
}.

Definition getItem (k : string) (s : gmap string string) : option string := s !! k.
Definition setItem (k v : string) (s : gmap string string) : gmap string string := <[k := v]> s.
Definition removeItem (k : string) (s : gmap string string) : gmap string string := delete k s.

Definition with_sessionStorage (f : gmap string string -> gmap string string) (w : World) : World :=
  mkWorld (f (sessionStorage w)) (localStorage w) (location w) (history_back w)
          (user w) (userStatus w) (loading w) (requests w) (console w) (timers w).

Definition with_localStorage (f : gmap string string -> gmap string string) (w : World) : World :=
  mkWorld (sessionStorage w) (f (localStorage w)) (location w) (history_back w)
          (user w) (userStatus w) (loading w) (requests w) (console w) (timers w).

(** [window.history.replaceState({}, '', url)]: the current entry is
    rewritten in place; no entry is added. *)
Definition history_replaceState (url : Location) (w : World) : World :=
  mkWorld (sessionStorage w) (localStorage w) url (history_back w)
          (user w) (userStatus w) (loading w) (requests w) (console w) (timers w).

Definition setUser (u : option UserInfo) (w : World) : World :=
  mkWorld (sessionStorage w) (localStorage w) (location w) (history_back w)
          u (userStatus w) (loading w) (requests w) (console w) (timers w).

Definition setUserStatus (s : UserStatus) (w : World) : World :=
  mkWorld (sessionStorage w) (localStorage w) (location w) (history_back w)
          (user w) s (loading w) (requests w) (console w) (timers w).

Definition setLoading (b : bool) (w : World) : World :=
  mkWorld (sessionStorage w) (localStorage w) (location w) (history_back w)
          (user w) (userStatus w) b (requests w) (console w) (timers w).

Definition fetch (tid : nat) (r : Request) (w : World) : World :=
  mkWorld (sessionStorage w) (localStorage w) (location w) (history_back w)
          (user w) (userStatus w) (loading w) ((tid, r) :: requests w) (console w) (timers w).

Definition console_error (msg : string) (w : World) : World :=
  mkWorld (sessionStorage w) (localStorage w) (location w) (history_back w)
          (user w) (userStatus w) (loading w) (requests w) (msg :: console w) (timers w).

Definition setTimeout (tid : nat) (ms : Z) (w : World) : World :=
  mkWorld (sessionStorage w) (localStorage w) (location w) (history_back w)
          (user w) (userStatus w) (loading w) (requests w) (console w) ((tid, ms) :: timers w).

(** ** auth-utils.ts *)

Definition STORAGE_KEY_VERIFIER := "oauth_pkce_verifier".
Definition STORAGE_KEY_STATE := "oauth_state".
Definition STORAGE_KEY_PENDING_CODE := "oauth_pending_code".
Definition STORAGE_KEY_EXCHANGE_IN_PROGRESS := "oauth_exchange_in_progress".

Section Program.
Context `{Platform}.

(** [exchangeCodeForTokens(code)], up to its first await: either it throws
    before any request is made, or the POST to the token endpoint is
    issued. *)
Definition exchangeCodeForTokens_call (tid : nat) (code : string) (w : World)
  : Completion unit * World :=
  let domain := VITE_COGNITO_DOMAIN in
  let clientId := VITE_COGNITO_USER_POOL_CLIENT_ID in
  let redirectUri := VITE_REDIRECT_SIGN_IN in
  match truthy (getItem STORAGE_KEY_VERIFIER (sessionStorage w)) with
  | None => (Throw "No code verifier found", w)
  | Some codeVerifier =>
      (Normal tt,
       fetch tid (TokenRequest ("https://" +:+ domain +:+ "/oauth2/token")
                    [("grant_type", "authorization_code"); ("client_id", clientId);
                     ("code", code); ("redirect_uri", redirectUri);
                     ("code_verifier", codeVerifier)]) w)
  end.

(** [exchangeCodeForTokens], resumed with the body text of a response that
    was not [ok]: it throws, and the text is part of the error. *)
Definition exchangeCodeForTokens_not_ok (error : string) : Completion TokenResponse :=
  Throw ("Token exchange failed: " +:+ error).

(** [exchangeCodeForTokens], resumed with an [ok] response: the stored
    verifier and state are removed before the body is read. *)
Definition exchangeCodeForTokens_ok (w : World) : World :=
  with_sessionStorage
    (fun s => removeItem STORAGE_KEY_STATE (removeItem STORAGE_KEY_VERIFIER s)) w.

(** [validateState(returnedState)]: [storedState === returnedState]. *)
Definition validateState (returnedState : string) (w : World) : bool :=
  match getItem STORAGE_KEY_STATE (sessionStorage w) with
  | Some storedState => String.eqb storedState returnedState
  | None => false
  end.

(** [getAuthorizationCode()] *)
Definition getAuthorizationCode (w : World) : Completion (option AuthCode) * World :=
  let params := query (location w) in
  let code := searchParams_get "code" params in
  let state := searchParams_get "state" params in
  match truthy code, truthy state with
  | Some code, Some state =>
      let w1 :=
        with_sessionStorage
          (setItem STORAGE_KEY_PENDING_CODE
             (JSON_stringify (AuthCode_to_js (mkAuthCode code state)))) w in
      let url :=
        mkLocation (path (location w1))
          (searchParams_delete "state" (searchParams_delete "code" (query (location w1)))) in
      (Normal (Some (mkAuthCode code state)), history_replaceState url w1)
  | _, _ =>
      match truthy (getItem STORAGE_KEY_PENDING_CODE (sessionStorage w)) with
      | Some pending =>
          match JSON_parse pending with
          | None => (Throw "SyntaxError", w)
          | Some JNull => (Normal None, w)
          | Some v =>
              match as_AuthCode v with
              | Some ac => (Normal (Some ac), w)
              | None => (Throw "value outside its declared type", w)
              end
          end
      | None => (Normal None, w)
      end
  end.

(** [clearAuthorizationCode()] *)
Definition clearAuthorizationCode (w : World) : World :=
  with_sessionStorage
    (fun s => removeItem STORAGE_KEY_EXCHANGE_IN_PROGRESS
                (removeItem STORAGE_KEY_PENDING_CODE s)) w.

(** [markExchangeInProgress()] *)
Definition markExchangeInProgress (w : World) : World :=
  with_sessionStorage (setItem STORAGE_KEY_EXCHANGE_IN_PROGRESS "true") w.

(** [isExchangeInProgress()] *)
Definition isExchangeInProgress (w : World) : bool :=
  match getItem STORAGE_KEY_EXCHANGE_IN_PROGRESS (sessionStorage w) with
  | Some v => String.eqb v "true"
  | None => false
  end.

(** ** App.tsx *)

Definition TOKEN_STORAGE_KEY := "auth_tokens".
Definition API_BASE_URL := "http://localhost:8080".

(** [s.split(sep)] for a one-character separator. *)
Fixpoint split_on (sep : ascii) (s : string) : list string :=
  match s with
  | EmptyString => [EmptyString]
  | String c rest =>
      match split_on sep rest with
      | piece :: pieces =>
          if Ascii.eqb c sep then EmptyString :: piece :: pieces
          else String c piece :: pieces
      | [] => []
      end
  end.

(** [s.replace(/a/g, b)] for single characters. *)
Fixpoint replace_all (a b : ascii) (s : string) : string :=
  match s with
  | EmptyString => EmptyString
  | String c rest => String (if Ascii.eqb c a then b else c) (replace_all a b rest)
  end.

Definition hex_digit (n : N) : ascii :=
  ascii_of_N (if (n <? 10)%N then 48 + n else 87 + n)%N.

(** ['%' + ('00' + c.charCodeAt(0).toString(16)).slice(-2)] *)
Definition percent_hex (c : ascii) : string :=
  let n := N_of_ascii c in
  String "%" (String (hex_digit (n / 16)) (String (hex_digit (n mod 16)) EmptyString)).

Fixpoint percent_encode_all (s : string) : string :=
  match s with
  | EmptyString => EmptyString
  | String c rest => percent_hex c +:+ percent_encode_all rest
  end.

(** [parseJwt(token)]: the payload as [JSON.parse] returns it, object or
    not. *)
Definition parseJwt (token : string) : Completion jsval :=
  match split_on "." token !! 1%nat with
  | None => Throw "TypeError: Cannot read properties of undefined"
  | Some base64Url =>
      let base64 := replace_all "_" "/" (replace_all "-" "+" base64Url) in
      match atob base64 with
      | None => Throw "InvalidCharacterError"
      | Some binary =>
          match decodeURIComponent (percent_encode_all binary) with
          | None => Throw "URIError"
          | Some jsonPayload =>
              match JSON_parse jsonPayload with
              | None => Throw "SyntaxError"
              | Some claims => Normal claims
              end
          end
      end
  end.

(** [getUserInfoFromToken(idToken)]: reads of properties of the payload,
    the first of which throws when the payload is [null].  A payload that is
    a string is outside the model: its [sub] is the method of that name of
    every string, which is no JSON value. *)
Definition getUserInfoFromToken (idToken : string) : Completion UserInfo :=
  let* claims := parseJwt idToken in
  match claims with
  | JStr _ => Throw "value outside the model"
  | _ =>
      let* cognito_username := js_get claims "cognito:username" in
      let* sub := js_get claims "sub" in
      let* email := js_get claims "email" in
      let* email_verified := js_get claims "email_verified" in
      let* given_name := js_get claims "given_name" in
      let* family_name := js_get claims "family_name" in
      let* name := js_get claims "name" in
      Normal (mkUserInfo (js_or cognito_username sub) sub email email_verified
                given_name family_name name)
  end.

(** What [fetch] resolved to in [checkUserStatus]: the status code and the
    outcome of [response.json()] ([None] when the body does not parse). *)
Record StatusResponse := mkStatusResponse {
  response_status : Z;
  response_json : option jsval
}.

(** [checkUserStatus(idToken)], up to its first await: the GET is issued. *)
Definition checkUserStatus_call (tid : nat) (idToken : string) (w : World) : World :=
  fetch tid (StatusRequest (API_BASE_URL +:+ "/api/dashboard") ("Bearer " +:+ idToken)) w.

(** [checkUserStatus], resumed: the classification of the reply; [None] is a
    rejected [fetch]. *)
Definition checkUserStatus (reply : option StatusResponse) : UserStatus :=
  match reply with
  | None => Error
  | Some response =>
      if response_status response =? 200 then Approved
      else if response_status response =? 403 then
        match response_json response with
        | Some body =>
            match js_get body "code" with
            | Normal (Some (JStr c)) =>
                if String.eqb c "ACCOUNT_DESACTIVATED" then Deactivated else Pending
            | _ => Pending
            end
        | None => Pending
        end
      else Error
  end.

(** The effects of the resumed [checkUserStatus]: a rejected [fetch] is
    reported on the console. *)
Definition checkUserStatus_settled (reply : option StatusResponse) (w : World)
  : UserStatus * World :=
  (checkUserStatus reply,
   match reply with
   | None => console_error "Error checking user status:" w
   | Some _ => w
   end).

(** The code path an awaited [checkUserStatus] returns to. *)
Inductive StatusCaller :=
| FromCachedTokens      (* handleAuth, tokens already cached *)
| FromWaitForTokens     (* waitForTokens *)
| FromExchange          (* handleAuth, after its own exchange *)
| FromCheckStoredTokens (* checkStoredTokens *)
| FromRetry.            (* handleRetry *)

(** Program points of one invocation. *)
Inductive Pc :=
| HandleAuth            (* handleAuth() not yet entered *)
| HandleRetry           (* handleRetry() not yet entered *)
| AwaitTokenFetch       (* exchangeCodeForTokens: await fetch(...) *)
| AwaitErrorText        (* exchangeCodeForTokens: await response.text() *)
| AwaitTokenJson        (* handleAuth: await of the returned response.json() *)
| AwaitTimer (i : nat)  (* waitForTokens: await of the timer, loop index i *)
| AwaitStatus (k : StatusCaller)
| Finished
| Rejected (e : string). (* the async function's promise was rejected *)

(** Outside events an invocation is resumed by. *)
Inductive Event :=
| Invoke
| TimerFired
| TokenFetchSettled (ok : option bool)
| ErrorTextSettled (text : option string)
| TokenJsonSettled (body : option TokenResponse)
| StatusSettled (reply : option StatusResponse).

(** [localStorage.getItem(TOKEN_STORAGE_KEY)] followed, when the item is
    truthy, by [JSON.parse] at type [StoredTokens]. *)
Definition stored_tokens (w : World) : Completion (option StoredTokens) :=
  match truthy (getItem TOKEN_STORAGE_KEY (localStorage w)) with
  | None => Normal None
  | Some stored =>
      match JSON_parse stored with
      | None => Throw "SyntaxError"
      | Some v =>
          match as_StoredTokens v with
          | Some tokens => Normal (Some tokens)
          | None => Throw "value outside its declared type"
          end
      end
  end.

(** The guard [tokens.expiresAt > Date.now()] on what was read: the TokenSet
    when there is one and it passes. *)
Definition unexpired (now : Z) (o : option StoredTokens) : option StoredTokens :=
  match o with
  | Some tokens => if expiresAt tokens >? now then Some tokens else None
  | None => None
  end.

(** [checkStoredTokens()], up to its first await. *)
Definition checkStoredTokens (tid : nat) (now : Z) (w : World) : Pc * World :=
  match stored_tokens w with
  | Throw e => (Rejected e, w)
  | Normal None => (Finished, setLoading false w)
  | Normal (Some tokens) =>
      if expiresAt tokens >? now then
        match getUserInfoFromToken (idToken tokens) with
        | Throw e => (Rejected e, w)
        | Normal userInfo =>
            (AwaitStatus FromCheckStoredTokens,
             checkUserStatus_call tid (idToken tokens) (setUser (Some userInfo) w))
        end
      else
        (Finished, setLoading false (with_localStorage (removeItem TOKEN_STORAGE_KEY) w))
  end.

(** The lines shared by [handleAuth] and [waitForTokens] once a valid
    TokenSet is found in the cache. *)
Definition use_cached_tokens (tid : nat) (k : StatusCaller) (tokens : StoredTokens)
    (w : World) : Pc * World :=
  let w1 := clearAuthorizationCode w in
  match getUserInfoFromToken (idToken tokens) with
  | Throw e => (Rejected e, w1)
  | Normal userInfo =>
      (AwaitStatus k, checkUserStatus_call tid (idToken tokens) (setUser (Some userInfo) w1))
  end.

(** [handleAuth]: "Exchange failed or timed out". *)
Definition exchange_failed_or_timed_out (w : World) : Pc * World :=
  (Finished, setLoading false (setUserStatus Error (clearAuthorizationCode w))).

(** [handleAuth]: the [catch] block around the exchange, and the
    [setLoading(false)] after it.  The console line is the label followed by
    the message of the error caught. *)
Definition handleAuth_catch (e : string) (w : World) : Pc * World :=
  (Finished,
   setLoading false
     (setUserStatus Error
        (clearAuthorizationCode (console_error ("Token exchange failed: " +:+ e) w)))).

(** [handleAuth], after [await exchangeCodeForTokens(...)] returned
    [tokens]. *)
Definition handleAuth_tokens (tid : nat) (now : Z) (tokens : TokenResponse) (w : World)
  : Pc * World :=
  let storedTokens :=
    mkStoredTokens (access_token tokens) (id_token tokens) (refresh_token tokens)
                   (now + expires_in tokens * 1000) in
  let w1 :=
    with_localStorage
      (setItem TOKEN_STORAGE_KEY (JSON_stringify (StoredTokens_to_js storedTokens))) w in
  let w2 := clearAuthorizationCode w1 in
  match getUserInfoFromToken (id_token tokens) with
  | Throw e => handleAuth_catch e w2
  | Normal userInfo =>
      (AwaitStatus FromExchange,
       checkUserStatus_call tid (id_token tokens) (setUser (Some userInfo) w2))
  end.

(** [handleAuth], resumed by the outcome of [await exchangeCodeForTokens(...)]
    inside its [try]. *)
Definition handleAuth_exchanged (tid : nat) (now : Z) (r : Completion TokenResponse)
    (w : World) : Pc * World :=
  match r with
  | Throw e => handleAuth_catch e w
  | Normal tokens => handleAuth_tokens tid now tokens w
  end.

Definition POLL_ITERATIONS : nat := 50.
Definition POLL_INTERVAL_MS : Z := 100.

(** [handleAuth()], up to its first await. *)
Definition handleAuth_begin (tid : nat) (now : Z) (w : World) : Pc * World :=
  match getAuthorizationCode w with
  | (Throw e, w1) => (Rejected e, w1)
  | (Normal None, w1) => checkStoredTokens tid now w1
  | (Normal (Some authCode), w1) =>
      if negb (validateState (state authCode) w1) then
        (Finished,
         setLoading false (clearAuthorizationCode (console_error "Invalid OAuth state" w1)))
      else
        match stored_tokens w1 with
        | Throw e => (Rejected e, w1)
        | Normal existingTokens =>
            match unexpired now existingTokens with
            | Some tokens => use_cached_tokens tid FromCachedTokens tokens w1
            | None =>
                if isExchangeInProgress w1 then
                  (* waitForTokens: i = 0, first timer armed *)
                  (AwaitTimer 0, setTimeout tid POLL_INTERVAL_MS w1)
                else
                  let w2 := markExchangeInProgress w1 in
                  match exchangeCodeForTokens_call tid (code authCode) w2 with
                  | (Throw e, w3) => handleAuth_exchanged tid now (Throw e) w3
                  | (Normal _, w3) => (AwaitTokenFetch, w3)
                  end
            end
        end
  end.

(** [waitForTokens], resumed by the timer of iteration [i]. *)
Definition waitForTokens_wake (tid : nat) (now : Z) (i : nat) (w : World) : Pc * World :=
  match stored_tokens w with
  | Throw e => (Rejected e, w)
  | Normal stored =>
      match unexpired now stored with
      | Some tokens => use_cached_tokens tid FromWaitForTokens tokens w
      | None =>
          if negb (isExchangeInProgress w) then exchange_failed_or_timed_out w
          else if (S i <? POLL_ITERATIONS)%nat then
            (AwaitTimer (S i), setTimeout tid POLL_INTERVAL_MS w)
          else exchange_failed_or_timed_out w
      end
  end.

(** [handleRetry()], up to its first await.  The status is switched to
    [loading] after [JSON.parse] and before the identity token is read from
    what was parsed. *)
Definition handleRetry_begin (tid : nat) (w : World) : Pc * World :=
  match truthy (getItem TOKEN_STORAGE_KEY (localStorage w)) with
  | None => (Finished, w)
  | Some stored =>
      match JSON_parse stored with
      | None => (Rejected "SyntaxError", w)
      | Some v =>
          let w1 := setUserStatus Loading w in
          match as_StoredTokens v with
          | Some tokens =>
              (AwaitStatus FromRetry, checkUserStatus_call tid (idToken tokens) w1)
          | None => (Rejected "value outside its declared type", w1)
          end
      end
  end.

(** After [await checkUserStatus(...)]: [setUserStatus(status)], and on the
    [handleAuth] paths [setLoading(false)]. *)
Definition status_settled (k : StatusCaller) (reply : option StatusResponse) (w : World)
  : Pc * World :=
  let '(status, w1) := checkUserStatus_settled reply w in
  let w2 := setUserStatus status w1 in
  (Finished, match k with FromRetry => w2 | _ => setLoading false w2 end).

(** One transition of invocation [tid]: the code run when [ev] resumes it at
    [pc], with [now] the reading of [Date.now()].  [None] when [ev] is not
    what [pc] waits for. *)
Definition step (tid : nat) (now : Z) (ev : Event) (pc : Pc) (w : World)
  : option (Pc * World) :=
  match pc, ev with
  | HandleAuth, Invoke => Some (handleAuth_begin tid now w)
  | HandleRetry, Invoke => Some (handleRetry_begin tid w)
  | AwaitTokenFetch, TokenFetchSettled None =>
      Some (handleAuth_exchanged tid now (Throw "TypeError: Failed to fetch") w)
  | AwaitTokenFetch, TokenFetchSettled (Some false) => Some (AwaitErrorText, w)
  | AwaitTokenFetch, TokenFetchSettled (Some true) =>
      Some (AwaitTokenJson, exchangeCodeForTokens_ok w)
  | AwaitErrorText, ErrorTextSettled None =>
      Some (handleAuth_exchanged tid now (Throw "TypeError: Failed to fetch") w)
  | AwaitErrorText, ErrorTextSettled (Some text) =>
      Some (handleAuth_exchanged tid now (exchangeCodeForTokens_not_ok text) w)
  | AwaitTokenJson, TokenJsonSettled None =>
      Some (handleAuth_exchanged tid now (Throw "SyntaxError") w)
  | AwaitTokenJson, TokenJsonSettled (Some tokens) =>
      Some (handleAuth_exchanged tid now (Normal tokens) w)
  | AwaitTimer i, TimerFired => Some (waitForTokens_wake tid now i w)
  | AwaitStatus k, StatusSettled reply => Some (status_settled k reply w)
  | _, _ => None
  end.

(** ** Concurrent invocations *)

Record System := mkSystem { world : World; tasks : list Pc }.

Record Label := mkLabel { who : nat; clock : Z; event : Event }.

Definition sys_step (l : Label) (s : System) : option System :=
  match tasks s !! who l with
  | None => None
  | Some pc =>
      match step (who l) (clock l) (event l) pc (world s) with
      | None => None
      | Some (pc', w') => Some (mkSystem w' (<[who l := pc']> (tasks s)))
      end
  end.

Fixpoint sys_run (ls : list Label) (s : System) : option System :=
  match ls with
  | [] => Some s
  | l :: rest =>
      match sys_step l s with
      | None => None
      | Some s' => sys_run rest s'
      end
  end.

End Program.

(** ** Browser library behind the sign-in and sign-out code

    [btoa], the SHA-256 digest of [crypto.subtle], the random generator of
    [crypto], and the two URL encoders, as the standards define them.  A
    [Uint8Array] is a list of bytes; a string handed to [btoa] holds one byte
    per character. *)

(** [String.fromCharCode(...buffer)] *)
Definition String_fromCharCode (buffer : list Byte.byte) : string := string_of_list_byte buffer.

(** [new TextEncoder().encode(s)]: text is held in UTF-8 already. *)
Definition TextEncoder_encode (s : string) : list Byte.byte := list_byte_of_string s.

Definition byte_to_N (b : Byte.byte) : N := N_of_ascii (ascii_of_byte b).
Definition byte_of_N (n : N) : Byte.byte := byte_of_ascii (ascii_of_N n).

(** *** btoa *)

(** The character of a six-bit value in the base64 alphabet. *)
Definition base64_char (n : N) : ascii :=
  ascii_of_N (if (n <? 26)%N then 65 + n
              else if (n <? 52)%N then 71 + n
              else if (n <? 62)%N then n - 4
              else if (n =? 62)%N then 43 else 47)%N.

Fixpoint base64_encode (l : list N) : list ascii :=
  match l with
  | a :: b :: c :: rest =>
      base64_char (a / 4) :: base64_char ((a mod 4) * 16 + b / 16)
        :: base64_char ((b mod 16) * 4 + c / 64) :: base64_char (c mod 64)
        :: base64_encode rest
  | [a; b] =>
      [base64_char (a / 4); base64_char ((a mod 4) * 16 + b / 16);
       base64_char ((b mod 16) * 4); "="%char]
  | [a] => [base64_char (a / 4); base64_char ((a mod 4) * 16); "="%char; "="%char]
  | [] => []
  end%N.

(** [btoa(s)]; every character of [s] is a byte, so it does not throw. *)
Definition btoa (s : string) : string :=
  string_of_list_ascii (base64_encode (map N_of_ascii (list_ascii_of_string s))).

(** *** crypto.subtle.digest('SHA-256', data) *)

Module SHA256.
Local Open Scope N_scope.

Definition word (n : N) : N := n mod 4294967296.
Definition add (x y : N) : N := word (x + y).
Definition rotr (k x : N) : N := N.lor (N.shiftr x k) (word (N.shiftl x (32 - k))).
Definition shr (k x : N) : N := N.shiftr x k.
Definition Ch (x y z : N) : N := N.lxor (N.land x y) (N.land (N.lxor x 4294967295) z).
Definition Maj (x y z : N) : N := N.lxor (N.lxor (N.land x y) (N.land x z)) (N.land y z).
Definition Sigma0 (x : N) : N := N.lxor (rotr 2 x) (N.lxor (rotr 13 x) (rotr 22 x)).
Definition Sigma1 (x : N) : N := N.lxor (rotr 6 x) (N.lxor (rotr 11 x) (rotr 25 x)).
Definition sigma0 (x : N) : N := N.lxor (rotr 7 x) (N.lxor (rotr 18 x) (shr 3 x)).
Definition sigma1 (x : N) : N := N.lxor (rotr 17 x) (N.lxor (rotr 19 x) (shr 10 x)).

(** The round constants. *)
Definition K : list N :=
  [1116352408; 1899447441; 3049323471; 3921009573; 961987163; 1508970993;
   2453635748; 2870763221; 3624381080; 310598401; 607225278; 1426881987;
   1925078388; 2162078206; 2614888103; 3248222580; 3835390401; 4022224774;
   264347078; 604807628; 770255983; 1249150122; 1555081692; 1996064986;
   2554220882; 2821834349; 2952996808; 3210313671; 3336571891; 3584528711;
   113926993; 338241895; 666307205; 773529912; 1294757372; 1396182291;
   1695183700; 1986661051; 2177026350; 2456956037; 2730485921; 2820302411;
   3259730800; 3345764771; 3516065817; 3600352804; 4094571909; 275423344;
   430227734; 506948616; 659060556; 883997877; 958139571; 1322822218;
   1537002063; 1747873779; 1955562222; 2024104815; 2227730452; 2361852424;
   2428436474; 2756734187; 3204031479; 3329325298].

Record State := mkState { a : N; b : N; c : N; d : N; e : N; f : N; g : N; h : N }.

(** The initial hash value. *)
Definition initial : State :=
  mkState 1779033703 3144134277 1013904242 2773480762
          1359893119 2600822924 528734635 1541459225.

(** The message with its padding: a one bit, zeros, and the length in bits
    as 64 bits, up to a multiple of 64 bytes. *)
Definition pad (message : list N) : list N :=
  let len := length message in
  let zeros := ((64 - (len + 9) mod 64) mod 64)%nat in
  let bits := N.of_nat len * 8 in
  (message ++ 128 :: repeat 0 zeros
     ++ map (fun i => (bits / 2 ^ (8 * N.of_nat i)) mod 256) (rev (seq 0 8)))%list.

(** Big-endian 32-bit words. *)
Fixpoint words (bytes : list N) : list N :=
  match bytes with
  | b0 :: b1 :: b2 :: b3 :: rest => (((b0 * 256 + b1) * 256 + b2) * 256 + b3) :: words rest
  | _ => []
  end.

(** The message schedule is kept as a window of sixteen words, the word of
    the current round first. *)
Definition next_word (window : list N) : N :=
  add (add (sigma1 (nth 14 window 0)) (nth 9 window 0))
      (add (sigma0 (nth 1 window 0)) (nth 0 window 0)).

Definition round (s : State) (k w : N) : State :=
  let t1 := add (add (add (h s) (Sigma1 (e s))) (add (Ch (e s) (f s) (g s)) k)) w in
  let t2 := add (Sigma0 (a s)) (Maj (a s) (b s) (c s)) in
  mkState (add t1 t2) (a s) (b s) (c s) (add (d s) t1) (e s) (f s) (g s).

Fixpoint rounds (ks : list N) (window : list N) (s : State) : State :=
  match ks with
  | [] => s
  | k :: ks' => rounds ks' (tl window ++ [next_word window]) (round s k (hd 0 window))
  end.

Definition compress (s : State) (block : list N) : State :=
  let s' := rounds K block s in
  mkState (add (a s) (a s')) (add (b s) (b s')) (add (c s) (c s')) (add (d s) (d s'))
          (add (e s) (e s')) (add (f s) (f s')) (add (g s) (g s')) (add (h s) (h s')).

(** One block of sixteen words after the other; [fuel] bounds their
    number. *)
Fixpoint blocks (fuel : nat) (ws : list N) (s : State) : State :=
  match fuel, ws with
  | S fuel', _ :: _ => blocks fuel' (skipn 16 ws) (compress s (firstn 16 ws))
  | _, _ => s
  end.

Definition word_bytes (x : N) : list N :=
  [x / 16777216; (x / 65536) mod 256; (x / 256) mod 256; x mod 256].

Definition digest (data : list Byte.byte) : list Byte.byte :=
  let ws := words (pad (map byte_to_N data)) in
  let s := blocks (length ws) ws initial in
  map byte_of_N
    (word_bytes (a s) ++ word_bytes (b s) ++ word_bytes (c s) ++ word_bytes (d s)
       ++ word_bytes (e s) ++ word_bytes (f s) ++ word_bytes (g s) ++ word_bytes (h s))%list.

End SHA256.

(** *** crypto.getRandomValues *)

(** The generator: the bytes it hands out, in order, and how many it has
    handed out so far. *)
Record Crypto := mkCrypto { random_byte : nat -> Byte.byte; consumed : nat }.

(** [crypto.getRandomValues(array)] for a fresh [Uint8Array] of the given
    length; more than 65536 bytes is a [QuotaExceededError]. *)
Definition getRandomValues (length : nat) (crypto : Crypto) : Completion (list Byte.byte) * Crypto :=
  if (65536 <? N.of_nat length)%N then (Throw "QuotaExceededError", crypto)
  else (Normal (map (random_byte crypto) (seq (consumed crypto) length)),
        mkCrypto (random_byte crypto) (consumed crypto + length)).

(** *** URL encoding *)

Definition HEX_digit (n : N) : ascii :=
  ascii_of_N (if (n <? 10)%N then 48 + n else 55 + n)%N.

Definition percent_HEX (c : ascii) : string :=
  let n := N_of_ascii c in
  String "%" (String (HEX_digit (n / 16)) (String (HEX_digit (n mod 16)) EmptyString)).

Definition is_alphanumeric (c : ascii) : bool :=
  let n := N_of_ascii c in
  (((48 <=? n) && (n <=? 57)) || ((65 <=? n) && (n <=? 90)) || ((97 <=? n) && (n <=? 122)))%N.

(** The characters [encodeURIComponent] leaves as they are:
    letters, digits and [- _ . ! ~ * ' ( )]. *)
Definition uri_unreserved (c : ascii) : bool :=
  let n := N_of_ascii c in
  is_alphanumeric c
  || ((n =? 45) || (n =? 95) || (n =? 46) || (n =? 33) || (n =? 126)
      || (n =? 42) || (n =? 39) || (n =? 40) || (n =? 41))%N.

(** [encodeURIComponent(s)], on the UTF-8 bytes of [s]. *)
Fixpoint encodeURIComponent (s : string) : string :=
  match s with
  | EmptyString => EmptyString
  | String c rest =>
      if uri_unreserved c then String c (encodeURIComponent rest)
      else percent_HEX c +:+ encodeURIComponent rest
  end.

(** The serialisation of one name or value in
    [application/x-www-form-urlencoded]: letters, digits and [* - . _] stay,
    a space becomes [+], every other byte is escaped. *)
Fixpoint urlencoded (s : string) : string :=
  match s with
  | EmptyString => EmptyString
  | String c rest =>
      let n := N_of_ascii c in
      if (n =? 32)%N then String "+" (urlencoded rest)
      else if is_alphanumeric c || ((n =? 42) || (n =? 45) || (n =? 46) || (n =? 95))%N
      then String c (urlencoded rest)
      else percent_HEX c +:+ urlencoded rest
  end.

(** [URLSearchParams.toString()] *)
Fixpoint URLSearchParams_toString (q : list (string * string)) : string :=
  match q with
  | [] => EmptyString
  | (k, v) :: rest =>
      let pair := urlencoded k +:+ "=" +:+ urlencoded v in
      match rest with
      | [] => pair
      | _ => pair +:+ "&" +:+ URLSearchParams_toString rest
      end
  end.

(** [URLSearchParams.set]: the first pair of that name takes the value and
    the others of that name go; without one, the pair is appended. *)
Fixpoint searchParams_set (k v : string) (q : list (string * string)) : list (string * string) :=
  match q with
  | [] => [(k, v)]
  | (k', v') :: rest =>
      if String.eqb k k' then (k, v) :: searchParams_delete k rest
      else (k', v') :: searchParams_set k v rest
  end.

(** [parts.join(sep)] *)
Fixpoint join (sep : string) (parts : list string) : string :=
  match parts with
  | [] => EmptyString
  | p :: rest =>
      match rest with
      | [] => p
      | _ => p +:+ sep +:+ join sep rest
      end
  end.

(** ** auth-utils.ts: starting the sign-in *)

(** [s.replace(/a+$/, '')] for a single character: the run of [a] at the end
    of [s] removed. *)
Fixpoint strip_trailing (a : ascii) (s : string) : string :=
  match s with
  | EmptyString => EmptyString
  | String c rest =>
      match strip_trailing a rest with
      | EmptyString => if Ascii.eqb c a then EmptyString else String c EmptyString
      | kept => String c kept
      end
  end.

(** [base64UrlEncode(buffer)] *)
Definition base64UrlEncode (buffer : list Byte.byte) : string :=
  let base64 := btoa (String_fromCharCode buffer) in
  strip_trailing "=" (replace_all "/" "_" (replace_all "+" "-" base64)).

(** [generateRandomString(length)] *)
Definition generateRandomString (length : nat) (crypto : Crypto) : Completion string * Crypto :=
  match getRandomValues length crypto with
  | (Throw e, crypto') => (Throw e, crypto')
  | (Normal array, crypto') => (Normal (base64UrlEncode array), crypto')
  end.

(** [generateCodeChallenge(verifier)]; the digest is what the awaited promise
    resolves to. *)
Definition generateCodeChallenge (verifier : string) : string :=
  let data := TextEncoder_encode verifier in
  let hash := SHA256.digest data in
  base64UrlEncode hash.

Section SignIn.
Context `{Platform}.

(** The [scopes] of [signInWithLang]. *)
Definition scopes : list string :=
  ["openid"; "email"; "profile"; "aws.cognito.signin.user.admin"].

(** The [params] of [signInWithLang], with [lang] set when the option is
    truthy. *)
Definition authorize_params (lang : option string) (state codeChallenge : string)
  : list (string * string) :=
  let clientId := VITE_COGNITO_USER_POOL_CLIENT_ID in
  let redirectUri := VITE_REDIRECT_SIGN_IN in
  let params :=
    [("client_id", clientId); ("response_type", "code"); ("scope", join " " scopes);
     ("redirect_uri", redirectUri); ("state", state);
     ("code_challenge", codeChallenge); ("code_challenge_method", "S256")] in
  match truthy lang with
  | Some lang => searchParams_set "lang" lang params
  | None => params
  end.

(** [signInWithLang(options)], resumed with the code challenge of
    [codeVerifier]: the state is drawn, verifier and state are stored, and
    the window is sent to the hosted UI.  The result is the URL assigned to
    [window.location.href]. *)
Definition signInWithLang_challenged (lang : option string) (codeVerifier codeChallenge : string)
    (crypto : Crypto) (w : World) : Completion string * Crypto * World :=
  let domain := VITE_COGNITO_DOMAIN in
  match generateRandomString 32 crypto with
  | (Throw e, crypto') => (Throw e, crypto', w)
  | (Normal state, crypto') =>
      let w1 := with_sessionStorage (setItem STORAGE_KEY_VERIFIER codeVerifier) w in
      let w2 := with_sessionStorage (setItem STORAGE_KEY_STATE state) w1 in
      let params := authorize_params lang state codeChallenge in
      let authUrl :=
        "https://" +:+ domain +:+ "/oauth2/authorize?" +:+ URLSearchParams_toString params in
      (Normal authUrl, crypto', w2)
  end.

(** [signInWithLang(options)], when nothing else runs while the digest is
    awaited. *)
Definition signInWithLang (lang : option string) (crypto : Crypto) (w : World)
  : Completion string * Crypto * World :=
  match generateRandomString 32 crypto with
  | (Throw e, crypto') => (Throw e, crypto', w)
  | (Normal codeVerifier, crypto') =>
      signInWithLang_challenged lang codeVerifier (generateCodeChallenge codeVerifier) crypto' w
  end.

End SignIn.

(** ** App.tsx: signing out *)

(** [import.meta.env.VITE_REDIRECT_SIGN_OUT] *)
Class SignOutConfiguration := { VITE_REDIRECT_SIGN_OUT : string }.

Section SignOut.
Context `{Platform} `{SignOutConfiguration}.

(** [handleSignOut()]; the result is the URL assigned to
    [window.location.href]. *)
Definition handleSignOut (w : World) : string * World :=
  let w1 := with_localStorage (removeItem TOKEN_STORAGE_KEY) w in
  let w2 := setUser None w1 in
  let w3 := setUserStatus Loading w2 in
  let domain := VITE_COGNITO_DOMAIN in
  let clientId := VITE_COGNITO_USER_POOL_CLIENT_ID in
  let logoutUri := VITE_REDIRECT_SIGN_OUT in
  let logoutUrl :=
    "https://" +:+ domain +:+ "/logout?client_id=" +:+ clientId
      +:+ "&logout_uri=" +:+ encodeURIComponent logoutUri in
  (logoutUrl, w3).

End SignOut.

(** ** App.tsx: what is shown *)

(** The handlers that the buttons of [App] are bound to. *)
Inductive Handler :=
| OnSignIn   (* handleSignIn *)
| OnRetry    (* handleRetry *)
| OnSignOut. (* handleSignOut *)

(** The [return] statements of [App], in the order of the source. *)
Inductive Screen :=
| LoadingScreen                          (* if (loading) *)
| SignInScreen                           (* if (!user) *)
| CheckingScreen                         (* if (userStatus === 'loading') *)
| PendingScreen (user : UserInfo)        (* if (userStatus === 'pending') *)
| DeactivatedScreen (user : UserInfo)    (* if (userStatus === 'deactivated') *)
| ErrorScreen                            (* if (userStatus === 'error') *)
| AuthenticatedScreen (user : UserInfo). (* <AuthenticatedApp user={user} ... /> *)

(** Which of them [App] takes for the state it is rendered with. *)
Definition App_screen (w : World) : Screen :=
  if loading w then LoadingScreen
  else
    match user w with
    | None => SignInScreen
    | Some user =>
        match userStatus w with
        | Loading => CheckingScreen
        | Pending => PendingScreen user
        | Deactivated => DeactivatedScreen user
        | Error => ErrorScreen
        | Approved => AuthenticatedScreen user
        end
    end.

(** The handlers of [App] that the buttons of a screen are bound to, in
    document order; on the last screen, through the [signOut] property of
    [AuthenticatedApp]. *)
Definition buttons (s : Screen) : list Handler :=
  match s with
  | LoadingScreen | CheckingScreen => []
  | SignInScreen => [OnSignIn]
  | PendingScreen _ => [OnRetry; OnSignOut]
  | DeactivatedScreen _ => [OnSignOut]
  | ErrorScreen => [OnRetry; OnSignOut]
  | AuthenticatedScreen _ => [OnSignOut]
  end.

(** ** App.tsx: the language *)

(** [useState(() => localStorage.getItem('app-language') || 'en')] *)
Definition initial_language (w : World) : string :=
  match truthy (getItem "app-language" (localStorage w)) with
  | Some language => language
  | None => "en"
  end.

(** The effect [localStorage.setItem('app-language', language)], run after
    the first render and whenever [language] changes. *)
Definition persist_language (language : string) (w : World) : World :=
  with_localStorage (setItem "app-language" language) w.

(** [handleSignIn()], for the current [language]. *)
Definition handleSignIn `{Platform} (language : string) (crypto : Crypto) (w : World)
  : Completion string * Crypto * World :=
  signInWithLang (Some language) crypto w.

(** ** Observations on a run *)

Definition is_token_request (r : Request) : bool :=
  match r with
  | TokenRequest _ _ => true
  | StatusRequest _ _ => false
  end.

(** The calls to the token endpoint made by invocation [tid]. *)
Definition token_calls (tid : nat) (w : World) : list (nat * Request) :=
  List.filter (fun r => Nat.eqb (fst r) tid && is_token_request (snd r)) (requests w).

Definition is_timer (ev : Event) : bool :=
  match ev with
  | TimerFired => true
  | _ => false
  end.

(** How often the poll loop of invocation [tid] was resumed in a schedule. *)
Definition timer_wakes (tid : nat) (ls : list Label) : nat :=
  length (List.filter (fun l => Nat.eqb (who l) tid && is_timer (event l)) ls).

(** The timers armed by invocation [tid]. *)
Definition timers_of (tid : nat) (w : World) : list (nat * Z) :=
  List.filter (fun t => Nat.eqb (fst t) tid) (timers w).

(** Wake-ups an invocation at [pc] can still take in its poll loop. *)
Definition wake_budget (pc : Pc) : nat :=
  match pc with
  | HandleAuth => POLL_ITERATIONS
  | AwaitTimer i => Nat.max 1 (POLL_ITERATIONS - i)
  | _ => 0
  end.

(** Timers an invocation at [pc] can still arm. *)
Definition arm_budget (pc : Pc) : nat :=
  match pc with
  | HandleAuth => POLL_ITERATIONS
  | AwaitTimer i => POLL_ITERATIONS - 1 - i
  | _ => 0
  end.

(** The invocation at [pc] started an exchange of its own: it set the
    ExchangeLock and is inside [exchangeCodeForTokens] or awaits its
    result. *)
Definition owns_exchange (pc : Pc) : Prop :=
  pc = AwaitTokenFetch \/ pc = AwaitErrorText \/ pc = AwaitTokenJson.

(** [ev] tells the invocation at [pc] how its exchange ended: the request
    failed, the body of the error response was read, or the token response
    was read. *)
Definition exchange_concluded (pc : Pc) (ev : Event) : Prop :=
  (pc = AwaitTokenFetch /\ ev = TokenFetchSettled None) \/
  (pc = AwaitErrorText /\ exists text, ev = ErrorTextSettled text) \/
  (pc = AwaitTokenJson /\ exists body, ev = TokenJsonSettled body).

(** The invocation at [pc] is past any exchange: it waits for an account
    status or has ended. *)
Definition past_exchange (pc : Pc) : Prop :=
  match pc with
  | AwaitStatus _ | Finished | Rejected _ => True
  | _ => False
  end.

(** The token cache is empty or holds a TokenSet as [handleAuth] writes
    it. *)
Definition cache_wellformed `{Platform} (w : World) : Prop :=
  getItem TOKEN_STORAGE_KEY (localStorage w) = None \/
  exists tokens, getItem TOKEN_STORAGE_KEY (localStorage w)
                 = Some (JSON_stringify (StoredTokens_to_js tokens)).

(** The body of a 403 reply carries the deactivation code: it parsed to an
    object whose [code] member is the string [ACCOUNT_DESACTIVATED]. *)
Definition carries_deactivation_code (body : option jsval) : Prop :=
  exists fields, body = Some (JObj fields) /\
    obj_lookup "code" fields = Some (JStr "ACCOUNT_DESACTIVATED").

(** Every call to the token endpoint among [rs], whoever made it. *)
Definition token_requests (rs : list (nat * Request)) : list (nat * Request) :=
  List.filter (fun r => is_token_request (snd r)) rs.

(** The callback has been taken up: the address bar no longer carries a
    [code]/[state] pair, and the PendingCallback is either guarded by the
    ExchangeLock or gone. *)
Definition callback_taken (w : World) : Prop :=
  (truthy (searchParams_get "code" (query (location w))) = None \/
   truthy (searchParams_get "state" (query (location w))) = None) /\
  (isExchangeInProgress w = true \/
   truthy (getItem STORAGE_KEY_PENDING_CODE (sessionStorage w)) = None).

(** [s] contains the character [c]. *)
Fixpoint has_char (c : ascii) (s : string) : bool :=
  match s with
  | EmptyString => false
  | String c' rest => Ascii.eqb c' c || has_char c rest
  end.

(** The characters of base64url without padding: letters, digits, [-] and
    [_], the unreserved characters a PKCE verifier is made of. *)
Definition is_base64url (c : ascii) : bool :=
  let n := N_of_ascii c in (is_alphanumeric c || (n =? 45) || (n =? 95))%N.

(** The six-bit values that encode a sequence of bytes, three bytes to four
    values, without padding. *)
Fixpoint sextets_of (l : list N) : list N :=
  match l with
  | a :: b :: c :: rest =>
      a / 4 :: (a mod 4) * 16 + b / 16 :: (b mod 16) * 4 + c / 64 :: c mod 64
        :: sextets_of rest
  | [a; b] => [a / 4; (a mod 4) * 16 + b / 16; (b mod 16) * 4]
  | [a] => [a / 4; (a mod 4) * 16]
  | [] => []
  end%N.

(** The character of a six-bit value in the base64url alphabet. *)
Definition base64url_char (n : N) : ascii :=
  let c := base64_char n in
  if Ascii.eqb c "+" then "-"%char else if Ascii.eqb c "/" then "_"%char else c.

(** How often invocation [tid] is resumed in a schedule. *)
Definition resumptions (tid : nat) (ls : list Label) : nat :=
  length (List.filter (fun l => Nat.eqb (who l) tid) ls).

(** Transitions an invocation at [pc] can still take: the first one, up to
    fifty wake-ups of the poll loop or the three steps of an exchange, and
    the reply to the status check. *)
Definition transitions_left (pc : Pc) : nat :=
  match pc with
  | HandleAuth => 52
  | HandleRetry => 2
  | AwaitTokenFetch => 3
  | AwaitErrorText => 1
  | AwaitTokenJson => 2
  | AwaitTimer i => Nat.max 2 (51 - i)
  | AwaitStatus _ => 1
  | Finished | Rejected _ => 0
  end.

(** ** A reference platform

    An executable [Platform]: a JSON printer and parser (integers for
    numbers, escapes up to U+007F), forgiving base64 decoding and
    percent-decoding of UTF-8.  It meets the laws of [LawfulPlatform] and lets
    the model run on concrete inputs. *)

Module Reference.

(** The double-quote character. *)
Definition dquote : ascii := ascii_of_N 34.

(** *** JSON.stringify *)

Definition escape_char (c : ascii) : string :=
  let n := N_of_ascii c in
  if (n =? 34)%N then String "\" (String dquote EmptyString)
  else if (n =? 92)%N then "\\"
  else if (n =? 8)%N then "\b"
  else if (n =? 12)%N then "\f"
  else if (n =? 10)%N then "\n"
  else if (n =? 13)%N then "\r"
  else if (n =? 9)%N then "\t"
  else if (n <? 32)%N then
    "\u00" +:+ String (hex_digit (n / 16)) (String (hex_digit (n mod 16)) EmptyString)
  else String c EmptyString.

Fixpoint escape (s : string) : string :=
  match s with
  | EmptyString => EmptyString
  | String c rest => escape_char c +:+ escape rest
  end.

Definition quote (s : string) : string :=
  String dquote (escape s +:+ String dquote EmptyString).

Definition print_Z (z : Z) : string :=
  match z with
  | Zneg p => String "-" (NilZero.string_of_uint (N.to_uint (Npos p)))
  | _ => NilZero.string_of_uint (N.to_uint (Z.to_N z))
  end.

Section Lists.
Variable print : jsval -> string.

Fixpoint print_elements (l : list jsval) : string :=
  match l with
  | [] => EmptyString
  | x :: rest =>
      match rest with
      | [] => print x
      | _ => print x +:+ "," +:+ print_elements rest
      end
  end.

Fixpoint print_members (l : list (string * jsval)) : string :=
  match l with
  | [] => EmptyString
  | (k, x) :: rest =>
      match rest with
      | [] => quote k +:+ ":" +:+ print x
      | _ => quote k +:+ ":" +:+ print x +:+ "," +:+ print_members rest
      end
  end.

End Lists.

Fixpoint stringify (v : jsval) : string :=
  match v with
  | JNull => "null"
  | JBool true => "true"
  | JBool false => "false"
  | JNum z => print_Z z
  | JStr s => quote s
  | JArr items => "[" +:+ print_elements stringify items +:+ "]"
  | JObj fields => "{" +:+ print_members stringify fields +:+ "}"
  end.

(** *** JSON.parse *)

Definition is_ws (c : ascii) : bool :=
  let n := N_of_ascii c in ((n =? 32) || (n =? 9) || (n =? 10) || (n =? 13))%N.

Fixpoint skip_ws (s : string) : string :=
  match s with
  | String c rest => if is_ws c then skip_ws rest else s
  | EmptyString => s
  end.

Definition hex_value (c : ascii) : option N :=
  let n := N_of_ascii c in
  if ((48 <=? n) && (n <=? 57))%N then Some (n - 48)%N
  else if ((97 <=? n) && (n <=? 102))%N then Some (n - 87)%N
  else if ((65 <=? n) && (n <=? 70))%N then Some (n - 55)%N
  else None.

(** The characters of a string literal after its opening quote, and what
    follows the closing quote.  Escapes above U+007F are not covered. *)
Fixpoint parse_chars (s : string) : option (string * string) :=
  match s with
  | EmptyString => None
  | String c rest =>
      let n := N_of_ascii c in
      if (n =? 34)%N then Some (EmptyString, rest)
      else if (n <? 32)%N then None
      else if (n =? 92)%N then
        match rest with
        | String e rest' =>
            let m := N_of_ascii e in
            let plain (d : N) :=
              match parse_chars rest' with
              | Some (t, r) => Some (String (ascii_of_N d) t, r)
              | None => None
              end in
            if (m =? 34)%N then plain 34%N
            else if (m =? 92)%N then plain 92%N
            else if (m =? 47)%N then plain 47%N
            else if (m =? 98)%N then plain 8%N
            else if (m =? 102)%N then plain 12%N
            else if (m =? 110)%N then plain 10%N
            else if (m =? 114)%N then plain 13%N
            else if (m =? 116)%N then plain 9%N
            else if (m =? 117)%N then
              match rest' with
              | String h1 (String h2 (String h3 (String h4 rest''))) =>
                  match hex_value h1, hex_value h2, hex_value h3, hex_value h4 with
                  | Some a, Some b, Some c', Some d =>
                      let cp := (((a * 16 + b) * 16 + c') * 16 + d)%N in
                      if (cp <? 128)%N then
                        match parse_chars rest'' with
                        | Some (t, r) => Some (String (ascii_of_N cp) t, r)
                        | None => None
                        end
                      else None
                  | _, _, _, _ => None
                  end
              | _ => None
              end
            else None
        | EmptyString => None
        end
      else
        match parse_chars rest with
        | Some (t, r) => Some (String c t, r)
        | None => None
        end
  end.

Definition is_digit (c : ascii) : bool :=
  let n := N_of_ascii c in ((48 <=? n) && (n <=? 57))%N.

Fixpoint span_digits (s : string) : string * string :=
  match s with
  | String c rest =>
      if is_digit c then let '(ds, r) := span_digits rest in (String c ds, r)
      else (EmptyString, s)
  | EmptyString => (EmptyString, s)
  end.

(** An integer without sign; fractions and exponents are not covered. *)
Definition parse_N (s : string) : option (N * string) :=
  let '(ds, rest) := span_digits s in
  match NilZero.uint_of_string ds with
  | Some u =>
      if Decimal.uint_eq_dec (Decimal.unorm u) u then
        match rest with
        | String c _ =>
            let n := N_of_ascii c in
            if ((n =? 46) || (n =? 101) || (n =? 69))%N then None
            else Some (N.of_uint u, rest)
        | EmptyString => Some (N.of_uint u, rest)
        end
      else None
  | None => None
  end.

Definition parse_number (s : string) : option (jsval * string) :=
  match s with
  | String c rest =>
      if (N_of_ascii c =? 45)%N then
        match parse_N rest with
        | Some (n, r) => Some (JNum (- Z.of_N n), r)
        | None => None
        end
      else
        match parse_N s with
        | Some (n, r) => Some (JNum (Z.of_N n), r)
        | None => None
        end
  | EmptyString => None
  end.

(** [s] without the prefix [lit], when it starts with it. *)
Fixpoint expect (lit s : string) : option string :=
  match lit, s with
  | EmptyString, _ => Some s
  | String a lit', String b s' => if Ascii.eqb a b then expect lit' s' else None
  | String _ _, EmptyString => None
  end.

Definition parse_literal (s : string) : option (jsval * string) :=
  match expect "null" s, expect "true" s, expect "false" s with
  | Some r, _, _ => Some (JNull, r)
  | _, Some r, _ => Some (JBool true, r)
  | _, _, Some r => Some (JBool false, r)
  | _, _, _ => None
  end.

Section Steps.
(** The parsers one nesting level down. *)
Variable value : string -> option (jsval * string).
Variable members : string -> option (list (string * jsval) * string).
Variable elements : string -> option (list jsval * string).

(** A value at the head of [s], after optional white space, and the text
    behind it. *)
Definition value_step (s : string) : option (jsval * string) :=
  match skip_ws s with
  | EmptyString => None
  | String c rest as s' =>
      let n := N_of_ascii c in
      if (n =? 34)%N then
        match parse_chars rest with
        | Some (t, r) => Some (JStr t, r)
        | None => None
        end
      else if (n =? 123)%N then
        match expect "}" (skip_ws rest) with
        | Some r => Some (JObj [], r)
        | None =>
            match members rest with
            | Some (fs, r) => Some (JObj fs, r)
            | None => None
            end
        end
      else if (n =? 91)%N then
        match expect "]" (skip_ws rest) with
        | Some r => Some (JArr [], r)
        | None =>
            match elements rest with
            | Some (xs, r) => Some (JArr xs, r)
            | None => None
            end
        end
      else if ((n =? 45) || is_digit c)%N then parse_number s'
      else parse_literal s'
  end.

(** The members of an object up to and including its closing brace. *)
Definition members_step (s : string) : option (list (string * jsval) * string) :=
  match skip_ws s with
  | String q rest =>
      if (N_of_ascii q =? 34)%N then
        match parse_chars rest with
        | Some (k, r1) =>
            match expect ":" (skip_ws r1) with
            | Some r2 =>
                match value r2 with
                | Some (v, r3) =>
                    match expect "," (skip_ws r3), expect "}" (skip_ws r3) with
                    | Some r4, _ =>
                        match members r4 with
                        | Some (fs, r5) => Some ((k, v) :: fs, r5)
                        | None => None
                        end
                    | None, Some r4 => Some ([(k, v)], r4)
                    | None, None => None
                    end
                | None => None
                end
            | None => None
            end
        | None => None
        end
      else None
  | EmptyString => None
  end.

(** The elements of an array up to and including its closing bracket. *)
Definition elements_step (s : string) : option (list jsval * string) :=
  match value s with
  | Some (v, r) =>
      match expect "," (skip_ws r), expect "]" (skip_ws r) with
      | Some r1, _ =>
          match elements r1 with
          | Some (xs, r2) => Some (v :: xs, r2)
          | None => None
          end
      | None, Some r1 => Some ([v], r1)
      | None, None => None
      end
  | None => None
  end.

End Steps.

(** [fuel] bounds the nesting and the number of members. *)
Fixpoint parse_value (fuel : nat) (s : string) : option (jsval * string) :=
  match fuel with
  | O => None
  | S fuel' =>
      value_step (parse_members fuel') (parse_elements fuel') s
  end
with parse_members (fuel : nat) (s : string) : option (list (string * jsval) * string) :=
  match fuel with
  | O => None
  | S fuel' => members_step (parse_value fuel') (parse_members fuel') s
  end
with parse_elements (fuel : nat) (s : string) : option (list jsval * string) :=
  match fuel with
  | O => None
  | S fuel' => elements_step (parse_value fuel') (parse_elements fuel') s
  end.

Definition parse (s : string) : option jsval :=
  match parse_value (String.length s) s with
  | Some (v, r) =>
      match skip_ws r with
      | EmptyString => Some v
      | _ => None
      end
  | None => None
  end.

(** *** atob *)

Definition sextet (c : ascii) : option N :=
  let n := N_of_ascii c in
  if ((65 <=? n) && (n <=? 90))%N then Some (n - 65)%N
  else if ((97 <=? n) && (n <=? 122))%N then Some (n - 71)%N
  else if ((48 <=? n) && (n <=? 57))%N then Some (n + 4)%N
  else if (n =? 43)%N then Some 62%N
  else if (n =? 47)%N then Some 63%N
  else None.

Definition is_ascii_whitespace (c : ascii) : bool :=
  let n := N_of_ascii c in
  ((n =? 9) || (n =? 10) || (n =? 12) || (n =? 13) || (n =? 32))%N.

Definition is_pad (c : ascii) : bool := (N_of_ascii c =? 61)%N.

(** At most two padding characters removed from the end, given the text
    reversed. *)
Definition strip_padding_rev (r : list ascii) : list ascii :=
  match r with
  | p1 :: p2 :: rest =>
      if is_pad p1 then (if is_pad p2 then rest else p2 :: rest) else r
  | _ => r
  end.

Fixpoint sextets (cs : list ascii) : option (list N) :=
  match cs with
  | [] => Some []
  | c :: rest =>
      match sextet c, sextets rest with
      | Some n, Some ns => Some (n :: ns)
      | _, _ => None
      end
  end.

Fixpoint decode_sextets (l : list N) : list N :=
  match l with
  | a :: b :: c :: d :: rest =>
      (a * 4 + b / 16)%N :: ((b mod 16) * 16 + c / 4)%N :: ((c mod 4) * 64 + d)%N
        :: decode_sextets rest
  | [a; b; c] => [(a * 4 + b / 16)%N; ((b mod 16) * 16 + c / 4)%N]
  | [a; b] => [(a * 4 + b / 16)%N]
  | _ => []
  end.

(** Forgiving base64 decoding. *)
Definition base64_decode (s : string) : option string :=
  let cs := filter (fun c => negb (is_ascii_whitespace c)) (list_ascii_of_string s) in
  let cs := if (length cs mod 4 =? 0)%nat then rev (strip_padding_rev (rev cs)) else cs in
  if (length cs mod 4 =? 1)%nat then None
  else
    match sextets cs with
    | Some ns => Some (string_of_list_ascii (map ascii_of_N (decode_sextets ns)))
    | None => None
    end.

(** *** decodeURIComponent *)

Fixpoint percent_decode (s : string) : option (list N) :=
  match s with
  | EmptyString => Some []
  | String c rest =>
      if (N_of_ascii c =? 37)%N then
        match rest with
        | String h1 (String h2 rest') =>
            match hex_value h1, hex_value h2, percent_decode rest' with
            | Some a, Some b, Some l => Some ((a * 16 + b)%N :: l)
            | _, _, _ => None
            end
        | _ => None
        end
      else
        match percent_decode rest with
        | Some l => Some (N_of_ascii c :: l)
        | None => None
        end
  end.

Definition continuation (b : N) : bool := ((128 <=? b) && (b <=? 191))%N.

(** Well-formed UTF-8. *)
Fixpoint utf8_valid (l : list N) : bool :=
  match l with
  | [] => true
  | b0 :: r0 =>
      if (b0 <? 128)%N then utf8_valid r0
      else if ((194 <=? b0) && (b0 <=? 223))%N then
        match r0 with
        | b1 :: r1 => continuation b1 && utf8_valid r1
        | _ => false
        end
      else if ((224 <=? b0) && (b0 <=? 239))%N then
        match r0 with
        | b1 :: b2 :: r2 =>
            (if (b0 =? 224)%N then ((160 <=? b1) && (b1 <=? 191))%N
             else if (b0 =? 237)%N then ((128 <=? b1) && (b1 <=? 159))%N
             else continuation b1)
            && continuation b2 && utf8_valid r2
        | _ => false
        end
      else if ((240 <=? b0) && (b0 <=? 244))%N then
        match r0 with
        | b1 :: b2 :: b3 :: r3 =>
            (if (b0 =? 240)%N then ((144 <=? b1) && (b1 <=? 191))%N
             else if (b0 =? 244)%N then ((128 <=? b1) && (b1 <=? 143))%N
             else continuation b1)
            && continuation b2 && continuation b3 && utf8_valid r3
        | _ => false
        end
      else false
  end.

(** Text is held in UTF-8, so decoding the escapes of well-formed UTF-8
    yields the bytes themselves. *)
Definition uri_decode (s : string) : option string :=
  match percent_decode s with
  | Some bytes =>
      if utf8_valid bytes then Some (string_of_list_ascii (map ascii_of_N bytes)) else None
  | None => None
  end.

End Reference.

(** The reference platform. *)
Definition reference_platform : Platform := {|
  JSON_parse := Reference.parse;
  JSON_stringify := Reference.stringify;
  atob := Reference.base64_decode;
  decodeURIComponent := Reference.uri_decode;
  VITE_COGNITO_DOMAIN := "auth.example.com";
  VITE_COGNITO_USER_POOL_CLIENT_ID := "client-1";
  VITE_REDIRECT_SIGN_IN := "https://app.example.com/"
|}.

(** ** Scenarios on the reference platform *)

(** The session store after [signInWithLang]: verifier [v], state [xyz]. *)
Definition pkce_session : gmap string string :=
  {[ STORAGE_KEY_VERIFIER := "v"; STORAGE_KEY_STATE := "xyz" ]}.

(** The page as the identity provider redirects back to it, with
    [?code=<code>&state=<state>] in the address bar. *)
Definition callback_world (session cache : gmap string string) (code state : string) : World :=
  mkWorld session cache
    (mkLocation "https://app.example.com/" [("code", code); ("state", state)]) []
    None Loading true [] [] [].

(** An identity token whose payload is
    [{sub: u-1, cognito:username: alice, email: a@b.co, email_verified: true}]. *)
Definition alice_id_token : string :=
  "eyJhbGciOiJub25lIn0.eyJzdWIiOiJ1LTEiLCJjb2duaXRvOnVzZXJuYW1lIjoiYWxpY2UiLCJlbWFpbCI6ImFAYi5jbyIsImVtYWlsX3ZlcmlmaWVkIjp0cnVlfQ.sig".

Definition alice : UserInfo :=
  mkUserInfo (Some (JStr "alice")) (Some (JStr "u-1")) (Some (JStr "a@b.co"))
             (Some (JBool true)) None None None.

Definition alice_tokens (expiresAt : Z) : StoredTokens :=
  mkStoredTokens "access" alice_id_token "refresh" expiresAt.

(** The token cache holding [tokens]. *)
Definition cache_of (tokens : StoredTokens) : gmap string string :=
  {[ TOKEN_STORAGE_KEY := Reference.stringify (StoredTokens_to_js tokens) ]}.

(** State [wrong] comes back while [xyz] is stored. *)
Definition mismatch_world : World := callback_world pkce_session ∅ "abc" "wrong".

(** Two mounts of the effect on that page. *)
Definition mismatch_system : System := mkSystem mismatch_world [HandleAuth; HandleAuth].

(** The second mount runs after the first has finished. *)
Definition mismatch_schedule : list Label := [mkLabel 1 1001 Invoke].

(** The system after the schedule [ls]; [s] itself when the schedule resumes
    an invocation with an event it does not wait for. *)
Definition run_or (s : System) (ls : list Label) : System :=
  match sys_run (H := reference_platform) ls s with
  | Some s' => s'
  | None => s
  end.

(** The state comes back as stored, nothing is cached, and the effect is
    mounted twice: the first mount starts the exchange, the second polls. *)
Definition race_world : World := callback_world pkce_session ∅ "abc" "xyz".
Definition race_system : System := mkSystem race_world [HandleAuth; HandleAuth].

(** Both mounts start, then the poller wakes [n] times while the token
    request of the first mount is still in flight. *)
Definition slow_exchange (n : nat) : list Label :=
  mkLabel 0 1000 Invoke :: mkLabel 1 1001 Invoke
    :: map (fun k => mkLabel 1 (1100 + 100 * Z.of_nat k) TimerFired) (seq 0 n).

(** The address bar reads [?code=&state=xyz]: both parameters are there, the
    code with an empty value. *)
Definition empty_code_world : World := callback_world pkce_session ∅ "" "xyz".

(** A callback arrives, but the ephemeral store is empty. *)
Definition no_session_world : World := callback_world ∅ ∅ "abc" "xyz".

(** A callback with the right state arrives while the cache holds a TokenSet
    that expired at 500; the clock reads 1000. *)
Definition expired_cache_world : World :=
  callback_world pkce_session (cache_of (alice_tokens 500)) "abc" "xyz".

(** The page reloaded later, with no callback, the same TokenSet cached. *)
Definition expired_reload_world : World :=
  mkWorld ∅ (cache_of (alice_tokens 500)) (mkLocation "https://app.example.com/" []) []
    (Some alice) Pending false [] [] [].

(** A callback with the right state arrives while the cache holds a TokenSet
    valid until 5000; the clock reads 1000. *)
Definition valid_cache_world : World :=
  callback_world pkce_session (cache_of (alice_tokens 5000)) "abc" "xyz".

(** Two mounts on that page: each runs to its status check, and the backend
    approves the first and turns the second away. *)
Definition valid_cache_system : System := mkSystem valid_cache_world [HandleAuth; HandleAuth].


(** A page load without a callback, with [cache] as the persistent store. *)
Definition reload_world (cache : gmap string string) : World :=
  mkWorld ∅ cache (mkLocation "https://app.example.com/" []) [] None Loading true [] [] [].

(** The page of a pending account whose token cache holds the text
    [null]. *)
Definition null_cache_world : World :=
  mkWorld ∅ {[ TOKEN_STORAGE_KEY := "null" ]} (mkLocation "https://app.example.com/" []) []
    (Some alice) Pending false [] [] [].

(** A TokenSet whose identity token is not a JWT, as the program caches it
    after [garbled_response] below. *)
Definition garbled_tokens (expiresAt : Z) : StoredTokens :=
  mkStoredTokens "access" "garbage" "refresh" expiresAt.

(** A callback with the right state arrives while the cache holds that
    TokenSet, valid until 5000; the clock reads 1000. *)
Definition garbled_cache_world : World :=
  callback_world pkce_session (cache_of (garbled_tokens 5000)) "abc" "xyz".

(** What the token endpoint returns for [alice], valid for an hour. *)
Definition alice_response : TokenResponse :=
  mkTokenResponse "access" alice_id_token "refresh" "Bearer" 3600.

(** A response whose identity token is not a JWT. *)
Definition garbled_response : TokenResponse :=
  mkTokenResponse "access" "garbage" "refresh" "Bearer" 3600.

(** The claims of [alice] and the text of her token's payload. *)
Definition alice_claims : list (string * jsval) :=
  [("sub", JStr "u-1"); ("cognito:username", JStr "alice"); ("email", JStr "a@b.co");
   ("email_verified", JBool true)].

Definition alice_payload : string := Reference.stringify (JObj alice_claims).

(** A generator that hands out the bytes 0, 1, 2, ... *)
Definition counting_crypto : Crypto := mkCrypto (fun n => byte_of_N (N.of_nat n)) 0.

(** The page before the sign-in button is pressed. *)
Definition signed_out_world : World :=
  mkWorld ∅ ∅ (mkLocation "https://app.example.com/" []) [] None Loading false [] [] [].

(** The same page after [signInWithLang({ lang: 'fr' })]. *)
Definition after_sign_in : Completion string * Crypto * World :=
  signInWithLang (H := reference_platform) (Some "fr") counting_crypto signed_out_world.

(** The callback page the provider redirects to after that sign-in, with the
    given code and state in the address bar. *)
Definition callback_after_sign_in (code state : string) : World :=
  callback_world (sessionStorage (snd after_sign_in)) ∅ code state.

Definition reference_sign_out : SignOutConfiguration :=
  {| VITE_REDIRECT_SIGN_OUT := "https://app.example.com/bye?x=1&y=2#top" |}.

(** [alice] is signed in and approved, her TokenSet cached. *)
Definition signed_in_world : World :=
  mkWorld pkce_session (cache_of (alice_tokens 5000))
    (mkLocation "https://app.example.com/" []) [] (Some alice) Approved false [] [] [].

(** The first mount starts the exchange and the request fails. *)
Definition failed_exchange_schedule : list Label :=
  [mkLabel 0 1000 Invoke; mkLabel 0 1200 (TokenFetchSettled None)].

(** * Properties *)

(** ** Facts about the reference platform *)

Module ReferenceFacts.
Import Reference.
#[local] Arguments append !s1 s2 : simpl nomatch.

Lemma append_assoc (a b c : string) : (a +:+ b) +:+ c = a +:+ (b +:+ c).
Proof. induction a as [|x a IH]; simpl; [reflexivity | now rewrite IH]. Qed.

Lemma length_append (a b : string) :
  String.length (a +:+ b) = (String.length a + String.length b)%nat.
Proof. induction a as [|x a IH]; simpl; [reflexivity | now rewrite IH]. Qed.

(** A string literal reads back: the escapes written by [escape] are the
    ones [parse_chars] undoes. *)
Lemma parse_chars_escape (s rest : string) :
  parse_chars (escape s +:+ String dquote rest) = Some (s, rest).
Proof.
  unfold dquote. simpl (ascii_of_N 34).
  induction s as [|c s IH]; [reflexivity|].
  cbn [escape]. rewrite append_assoc.
  destruct c as [[] [] [] [] [] [] [] []];
    match goal with
    | |- context [escape_char ?c] =>
        let e := eval vm_compute in (escape_char c) in
        change (escape_char c) with e
    end; simpl; rewrite IH; reflexivity.
Qed.

Lemma parse_chars_quote (s rest : string) :
  quote s +:+ rest = String dquote (escape s +:+ String dquote rest).
Proof. unfold quote. cbn. now rewrite append_assoc. Qed.


Fixpoint all_digits (s : string) : bool :=
  match s with
  | EmptyString => true
  | String c rest => is_digit c && all_digits rest
  end.

(** What may follow a number for [parse_N] to stop there. *)
Definition ends_number (rest : string) : bool :=
  match rest with
  | EmptyString => true
  | String c _ =>
      let n := N_of_ascii c in
      negb (is_digit c) && negb ((n =? 46) || (n =? 101) || (n =? 69))%N
  end.

Lemma span_digits_append (ds rest : string) :
  all_digits ds = true -> ends_number rest = true ->
  span_digits (ds +:+ rest) = (ds, rest).
Proof.
  intros Hds Hrest. induction ds as [|c ds IH]; cbn in *.
  - destruct rest as [|c r]; [reflexivity|]. cbn in *.
    destruct (is_digit c); [discriminate | reflexivity].
  - apply andb_prop in Hds as [Hc Hds]. rewrite Hc, (IH Hds). reflexivity.
Qed.

Lemma all_digits_string_of_uint (u : Decimal.uint) :
  all_digits (NilEmpty.string_of_uint u) = true.
Proof. induction u; cbn; auto. Qed.

Lemma to_uint_nonnil (n : N) : N.to_uint n <> Decimal.Nil.
Proof.
  destruct n as [|p]; [discriminate|]. apply DecimalPos.Unsigned.to_uint_nonnil.
Qed.

Lemma string_of_uint_to_uint (n : N) :
  NilZero.string_of_uint (N.to_uint n) = NilEmpty.string_of_uint (N.to_uint n).
Proof.
  pose proof (to_uint_nonnil n) as Hn.
  destruct (N.to_uint n); [contradiction | reflexivity ..].
Qed.

Lemma parse_N_print (n : N) (rest : string) :
  ends_number rest = true ->
  parse_N (NilZero.string_of_uint (N.to_uint n) +:+ rest) = Some (n, rest).
Proof.
  intros Hrest. unfold parse_N.
  rewrite string_of_uint_to_uint.
  rewrite span_digits_append by (auto using all_digits_string_of_uint).
  rewrite <- string_of_uint_to_uint.
  rewrite NilZero.usu by apply to_uint_nonnil.
  assert (Decimal.unorm (N.to_uint n) = N.to_uint n) as Hnorm.
  { rewrite <- (DecimalN.Unsigned.of_to n) at 2.
    now rewrite DecimalN.Unsigned.to_of. }
  destruct (Decimal.uint_eq_dec _ _) as [_|Hne]; [|contradiction].
  rewrite DecimalN.Unsigned.of_to.
  destruct rest as [|c r]; [reflexivity|]. cbn in Hrest.
  apply andb_prop in Hrest as [_ Hc].
  apply negb_true_iff in Hc. now rewrite Hc.
Qed.

(** The first character of a printed integer is a minus sign or a digit. *)
Lemma print_Z_head (z : Z) :
  exists c t, print_Z z = String c t /\
    (is_ws c = false) /\
    ((N_of_ascii c =? 34) = false)%N /\ ((N_of_ascii c =? 123) = false)%N /\
    ((N_of_ascii c =? 91) = false)%N /\
    (((N_of_ascii c =? 45)%N || is_digit c) = true) /\
    (z < 0 -> c = "-"%char) /\ (0 <= z -> is_digit c = true).
Proof.
  assert (forall n, exists c t, NilZero.string_of_uint (N.to_uint n) = String c t /\
                                is_digit c = true) as Hd.
  { intros n. rewrite string_of_uint_to_uint.
    pose proof (all_digits_string_of_uint (N.to_uint n)) as Hall.
    pose proof (to_uint_nonnil n) as Hn.
    destruct (N.to_uint n); try contradiction; cbn in *; eauto. }
  assert (forall c, is_digit c = true ->
            is_ws c = false /\ ((N_of_ascii c =? 34) = false)%N /\
            ((N_of_ascii c =? 123) = false)%N /\ ((N_of_ascii c =? 91) = false)%N) as Hc.
  { intros c. unfold is_digit, is_ws. intros Hc.
    apply andb_prop in Hc as [H1 H2].
    apply N.leb_le in H1, H2.
    repeat split; rewrite ?orb_false_iff; repeat split; apply N.eqb_neq; lia. }
  destruct z as [|p|p]; cbn [print_Z].
  - destruct (Hd (Z.to_N 0)) as (c & t & -> & Hdig). destruct (Hc c Hdig) as (?&?&?&?).
    exists c, t. rewrite Hdig, orb_true_r. repeat split; auto; lia.
  - destruct (Hd (Z.to_N (Z.pos p))) as (c & t & -> & Hdig). destruct (Hc c Hdig) as (?&?&?&?).
    exists c, t. rewrite Hdig, orb_true_r. repeat split; auto; lia.
  - eexists _, _. split; [reflexivity|]. repeat split; auto; lia.
Qed.

Lemma parse_number_print (z : Z) (rest : string) :
  ends_number rest = true ->
  parse_number (print_Z z +:+ rest) = Some (JNum z, rest).
Proof.
  intros Hrest. destruct z as [|p|p].
  - cbn [print_Z]. destruct (print_Z_head 0) as (c & t & Hp & _ & _ & _ & _ & _ & _ & Hdig).
    cbn [print_Z] in Hp. specialize (Hdig ltac:(lia)).
    pose proof (parse_N_print (Z.to_N 0) rest Hrest) as HN.
    rewrite Hp in *. cbn [append parse_number].
    assert ((N_of_ascii c =? 45)%N = false) as ->.
    { unfold is_digit in Hdig. apply andb_prop in Hdig as [H1 H2].
      apply N.leb_le in H1, H2. apply N.eqb_neq. lia. }
    cbn [append] in HN. rewrite HN. reflexivity.
  - cbn [print_Z]. destruct (print_Z_head (Z.pos p)) as (c & t & Hp & _ & _ & _ & _ & _ & _ & Hdig).
    cbn [print_Z] in Hp. specialize (Hdig ltac:(lia)).
    pose proof (parse_N_print (Z.to_N (Z.pos p)) rest Hrest) as HN.
    rewrite Hp in *. cbn [append parse_number].
    assert ((N_of_ascii c =? 45)%N = false) as ->.
    { unfold is_digit in Hdig. apply andb_prop in Hdig as [H1 H2].
      apply N.leb_le in H1, H2. apply N.eqb_neq. lia. }
    cbn [append] in HN. rewrite HN. cbn. reflexivity.
  - cbn [print_Z append parse_number]. cbn [N_of_ascii]. 
    change (N_of_ascii "-" =? 45)%N with true. cbn iota.
    rewrite parse_N_print by assumption. reflexivity.
Qed.


(** Strings and integers: the member values of the documents the program
    writes. *)
Definition scalar (v : jsval) : Prop :=
  match v with
  | JStr _ | JNum _ => True
  | _ => False
  end.

(** What follows a member value inside an object. *)
Definition closes_member (rest : string) : Prop :=
  exists c r, rest = String c r /\ (c = ","%char \/ c = "}"%char).

Lemma closes_member_ends_number rest : closes_member rest -> ends_number rest = true.
Proof. intros (c & r & -> & [-> | ->]); reflexivity. Qed.

Lemma parse_value_scalar (fuel : nat) (v : jsval) (rest : string) :
  scalar v -> closes_member rest ->
  parse_value (S fuel) (stringify v +:+ rest) = Some (v, rest).
Proof.
  intros Hv Hrest. destruct v as [| | z | s | |]; try contradiction.
  - cbn [stringify].
    pose proof (parse_number_print z rest (closes_member_ends_number _ Hrest)) as Hnum.
    destruct (print_Z_head z) as (c & t & Hp & Hws & H34 & H123 & H91 & Hnumc & _).
    rewrite Hp in *. cbn [append] in *. cbn [parse_value]. unfold value_step.
    cbn [skip_ws]. rewrite Hws. cbv zeta. rewrite H34, H123, H91, Hnumc. exact Hnum.
  - cbn [stringify]. rewrite parse_chars_quote.
    unfold dquote. simpl (ascii_of_N 34). cbn [parse_value]. unfold value_step.
    cbn [skip_ws]. change (is_ws _) with false. cbv iota zeta.
    change (N_of_ascii _ =? 34)%N with true. cbv iota.
    pose proof (parse_chars_escape s rest) as Hs. unfold dquote in Hs.
    simpl (ascii_of_N 34) in Hs. rewrite Hs. reflexivity.
Qed.

Lemma print_members_last (k : string) (v : jsval) :
  print_members stringify [(k, v)] = quote k +:+ ":" +:+ stringify v.
Proof. reflexivity. Qed.

Lemma print_members_more (k : string) (v : jsval) kv fs :
  print_members stringify ((k, v) :: kv :: fs)
  = quote k +:+ ":" +:+ stringify v +:+ "," +:+ print_members stringify (kv :: fs).
Proof. reflexivity. Qed.

(** One member, up to and including its value. *)
Lemma parse_member_head (fuel : nat) (k : string) (v : jsval) (rest : string) :
  scalar v -> closes_member rest ->
  parse_members (S (S fuel)) (quote k +:+ ":" +:+ stringify v +:+ rest)
  = match expect "," (skip_ws rest), expect "}" (skip_ws rest) with
    | Some r4, _ =>
        match parse_members (S fuel) r4 with
        | Some (fs, r5) => Some ((k, v) :: fs, r5)
        | None => None
        end
    | None, Some r4 => Some ([(k, v)], r4)
    | None, None => None
    end.
Proof.
  intros Hv Hrest.
  pose proof (parse_chars_escape k) as Hk. unfold dquote in Hk. simpl (ascii_of_N 34) in Hk.
  rewrite parse_chars_quote. unfold dquote. simpl (ascii_of_N 34).
  cbn [parse_members]. unfold members_step at 1.
  cbn [skip_ws]. change (is_ws _) with false. cbv iota.
  change (N_of_ascii _ =? 34)%N with true. cbv iota.
  rewrite Hk. cbn [append skip_ws]. change (is_ws ":") with false. cbv iota.
  cbn [expect]. change (Ascii.eqb ":" ":") with true. cbv iota.
  rewrite parse_value_scalar by assumption. reflexivity.
Qed.

Lemma parse_members_scalars (fs : list (string * jsval)) :
  fs <> [] -> Forall (fun kv => scalar (snd kv)) fs ->
  forall fuel rest, (length fs <= fuel)%nat ->
  parse_members (S fuel) (print_members stringify fs +:+ String "}" rest) = Some (fs, rest).
Proof.
  induction fs as [|[k v] fs IH]; [congruence|].
  intros _ Hall fuel rest Hfuel.
  apply Forall_cons in Hall as [Hv Hall]. cbn [snd] in Hv.
  destruct fuel as [|fuel]; [cbn in Hfuel; lia|].
  destruct fs as [|kv' fs'].
  - rewrite print_members_last, !append_assoc.
    rewrite parse_member_head
      by first [assumption | eexists _, _; split; [reflexivity | auto]].
    reflexivity.
  - rewrite print_members_more, !append_assoc.
    rewrite parse_member_head
      by first [assumption | eexists _, _; split; [reflexivity | auto]].
    cbn [append skip_ws]. change (is_ws ",") with false. cbv iota.
    cbn [expect]. change (Ascii.eqb "," ",") with true. cbv iota.
    rewrite IH; [reflexivity | discriminate | assumption | cbn [length] in *; lia].
Qed.

Lemma length_print_members (fs : list (string * jsval)) :
  (length fs <= String.length (print_members stringify fs))%nat.
Proof.
  induction fs as [|[k v] fs IH]; [cbn; lia|].
  destruct fs as [|kv' fs'].
  - rewrite print_members_last. unfold quote. cbn [append String.length length].
    apply le_n_S, Nat.le_0_l.
  - rewrite print_members_more, !length_append.
    change (String.length ":") with 1%nat. change (String.length ",") with 1%nat.
    cbn [length] in *. lia.
Qed.

(** A non-empty object of strings and integers reads back as written. *)
Lemma parse_stringify_object (fs : list (string * jsval)) :
  fs <> [] -> Forall (fun kv => scalar (snd kv)) fs ->
  parse (stringify (JObj fs)) = Some (JObj fs).
Proof.
  intros Hne Hall. unfold parse. cbn [stringify append String.length].
  rewrite length_append. cbn [String.length].
  pose proof (length_print_members fs) as Hlen.
  replace (String.length (print_members stringify fs) + 1)%nat
    with (S (String.length (print_members stringify fs))) by lia.
  cbn [parse_value]. unfold value_step.
  cbn [skip_ws]. change (is_ws "{") with false. cbv iota zeta.
  change (N_of_ascii "{" =? 34)%N with false.
  change (N_of_ascii "{" =? 123)%N with true. cbv iota.
  assert (exists t, print_members stringify fs +:+ "}" = String (ascii_of_N 34) t) as [t Ht].
  { destruct fs as [|[k v] fs]; [congruence|].
    destruct fs; cbn [print_members]; unfold quote, dquote; cbn [append]; eauto. }
  rewrite Ht. simpl (ascii_of_N 34). cbn [skip_ws]. change (is_ws _) with false. cbv iota.
  cbn [expect]. change (Ascii.eqb "}" _) with false. cbv iota.
  simpl (ascii_of_N 34) in Ht. rewrite <- Ht.
  rewrite (parse_members_scalars fs Hne Hall _ EmptyString) by lia.
  reflexivity.
Qed.

Lemma stringify_object_nonempty (fs : list (string * jsval)) :
  stringify (JObj fs) <> EmptyString.
Proof. cbn [stringify append]. discriminate. Qed.

Lemma parse_stringify_AuthCode (ac : AuthCode) :
  parse (stringify (AuthCode_to_js ac)) = Some (AuthCode_to_js ac).
Proof. apply parse_stringify_object; [discriminate | repeat constructor]. Qed.

Lemma parse_stringify_StoredTokens (t : StoredTokens) :
  parse (stringify (StoredTokens_to_js t)) = Some (StoredTokens_to_js t).
Proof. apply parse_stringify_object; [discriminate | repeat constructor]. Qed.

End ReferenceFacts.

Lemma reference_platform_lawful : LawfulPlatform (H := reference_platform).
Proof.
  split.
  - apply ReferenceFacts.parse_stringify_AuthCode.
  - apply ReferenceFacts.parse_stringify_StoredTokens.
  - apply ReferenceFacts.stringify_object_nonempty.
Qed.


(** Case analysis on the next [match] or [if] of the goal or of a
    hypothesis. *)
Ltac break_match :=
  match goal with
  | |- context [match ?x with _ => _ end] => destruct x eqn:?
  | H : context [match ?x with _ => _ end] |- _ => destruct x eqn:?
  end.

Ltac unfold_paths :=
  unfold handleAuth_begin, handleRetry_begin, waitForTokens_wake, checkStoredTokens,
    handleAuth_exchanged, handleAuth_tokens, handleAuth_catch, use_cached_tokens,
    exchange_failed_or_timed_out, status_settled, checkUserStatus_settled,
    exchangeCodeForTokens_call, exchangeCodeForTokens_not_ok, exchangeCodeForTokens_ok,
    checkUserStatus_call in *.

(** Both, and the pairs of results taken apart. *)
Ltac all_cases :=
  unfold_paths; repeat break_match;
  repeat match goal with
         | H : (_, _) = (_, _) |- _ => inversion H; subst; clear H
         end.

Section Properties.
Context `{Platform} `{!LawfulPlatform}.

(** ** validateState *)

Lemma validateState_true (returnedState : string) (w : World) :
  validateState returnedState w = true <->
  getItem STORAGE_KEY_STATE (sessionStorage w) = Some returnedState.
Proof.
  unfold validateState. destruct (getItem _ _) as [stored|].
  - rewrite String.eqb_eq. split; congruence.
  - split; discriminate.
Qed.

Lemma validateState_false (returnedState : string) (w : World) :
  validateState returnedState w = false <->
  getItem STORAGE_KEY_STATE (sessionStorage w) <> Some returnedState.
Proof.
  rewrite <- validateState_true. destruct (validateState _ _); split; congruence.
Qed.

(** ** getAuthorizationCode *)

(** [getAuthorizationCode] writes one storage key, the pending code, and
    nothing outside the session store and the address bar. *)
Lemma getAuthorizationCode_frame (w w1 : World) r :
  getAuthorizationCode w = (r, w1) ->
  (forall k, k <> STORAGE_KEY_PENDING_CODE ->
     getItem k (sessionStorage w1) = getItem k (sessionStorage w)) /\
  localStorage w1 = localStorage w /\ history_back w1 = history_back w /\
  user w1 = user w /\ userStatus w1 = userStatus w /\ loading w1 = loading w /\
  requests w1 = requests w /\ console w1 = console w /\ timers w1 = timers w.
Proof.
  unfold getAuthorizationCode. intros Hget.
  repeat break_match; inversion Hget; subst; cbn; repeat split; auto;
    intros k Hk; unfold getItem, setItem; now rewrite lookup_insert_ne.
Qed.

(** ** One transition *)

Lemma step_Finished tid now ev w : step tid now ev Finished w = None.
Proof. destruct ev; reflexivity. Qed.

Lemma step_Rejected tid now ev e w : step tid now ev (Rejected e) w = None.
Proof. destruct ev; reflexivity. Qed.

(** Every transition runs one of the code paths of [step]; the rest of the
    development reasons by cases on them. *)
Ltac step_paths Hstep :=
  match type of Hstep with
  | step _ _ ?ev ?pc _ = Some _ =>
      destruct pc, ev; cbn [step] in Hstep; try discriminate Hstep;
      repeat match type of Hstep with
             | context [match ?x with _ => _ end] => destruct x
             end;
      apply (inj Some) in Hstep
  end.

(** ... and then by cases on the branches taken inside the path. *)
Ltac path_cases :=
  unfold_paths;
  repeat match goal with
         | H : context [match ?x with _ => _ end] |- _ => destruct x eqn:?
         end;
  repeat match goal with
         | H : (_, _) = (_, _) |- _ => inversion H; subst; clear H
         end.

(** A transition only adds requests, and tags them with the invocation that
    made it. *)
Lemma step_requests tid now ev pc w pc' w' :
  step tid now ev pc w = Some (pc', w') ->
  exists new, requests w' = (new ++ requests w)%list /\ Forall (fun r => fst r = tid) new.
Proof.
  intros Hstep. step_paths Hstep;
    try (unfold handleAuth_begin in Hstep;
         destruct (getAuthorizationCode w) as [r w1] eqn:Hget;
         apply getAuthorizationCode_frame in Hget as (_ & _ & _ & _ & _ & _ & Hreq & _));
    path_cases; cbn; rewrite ?Hreq;
    first [ exists []; split; [reflexivity | constructor]
          | eexists [_]; split; [reflexivity | repeat constructor] ].
Qed.

(** ** Runs of the system *)

Lemma sys_step_inv l s s' :
  sys_step l s = Some s' ->
  exists pc pc', tasks s !! who l = Some pc /\
    step (who l) (clock l) (event l) pc (world s) = Some (pc', world s') /\
    tasks s' = <[who l := pc']> (tasks s).
Proof.
  unfold sys_step. intros Hstep.
  destruct (tasks s !! who l) as [pc|]; [|discriminate].
  destruct (step _ _ _ _ _) as [[pc' w']|] eqn:Hs; [|discriminate].
  injection Hstep as <-. eauto.
Qed.

Lemma sys_step_other_task l s s' (i : nat) :
  sys_step l s = Some s' -> who l <> i -> tasks s' !! i = tasks s !! i.
Proof.
  intros (pc & pc' & _ & _ & ->)%sys_step_inv Hne. now apply list_lookup_insert_ne.
Qed.

Lemma sys_step_other_token_calls l s s' (i : nat) :
  sys_step l s = Some s' -> who l <> i ->
  token_calls i (world s') = token_calls i (world s).
Proof.
  intros (pc & pc' & _ & Hstep & _)%sys_step_inv Hne.
  apply step_requests in Hstep as (new & Hreq & Htag).
  unfold token_calls. rewrite Hreq, List.filter_app.
  replace (List.filter _ new) with (@nil (nat * Request)); [reflexivity|].
  symmetry. clear Hreq. induction Htag as [|[j r] new Hj _ IH]; [reflexivity|].
  cbn in *. subst j. rewrite IH.
  destruct (Nat.eqb_spec (who l) i); [contradiction | reflexivity].
Qed.

(** An invocation that is past any exchange stays so, and no further call
    to the token endpoint is attributed to it. *)
Lemma step_past_exchange tid now ev pc w pc' w' :
  step tid now ev pc w = Some (pc', w') -> past_exchange pc ->
  pc' = Finished /\ requests w' = requests w.
Proof.
  intros Hstep Hpast. destruct pc; try contradiction; destruct ev; try discriminate.
  cbn in Hstep. injection Hstep as <- <-. split; [reflexivity|].
  destruct k, reply; reflexivity.
Qed.

Lemma past_exchange_no_token_calls ls s s' (i : nat) pc :
  tasks s !! i = Some pc -> past_exchange pc -> sys_run ls s = Some s' ->
  token_calls i (world s') = token_calls i (world s) /\
  exists pc', tasks s' !! i = Some pc' /\ past_exchange pc' /\
    (pc = Finished -> pc' = Finished).
Proof.
  revert s pc. induction ls as [|l ls IH]; intros s pc Hi Hpast Hrun; cbn in Hrun.
  - injection Hrun as <-. eauto.
  - destruct (sys_step l s) as [s1|] eqn:Hstep; [|discriminate].
    destruct (decide (who l = i)) as [Heq|Hne].
    + apply sys_step_inv in Hstep as (pc0 & pc1 & Hpc0 & Hstep & Htasks).
      rewrite Heq in *. rewrite Hi in Hpc0. injection Hpc0 as <-.
      destruct (step_past_exchange _ _ _ _ _ _ _ Hstep Hpast) as [-> Hreq].
      destruct (IH s1 Finished) as (Hcalls & pc' & Hpc' & Hpast' & Hfin); auto.
      { rewrite Htasks. apply list_lookup_insert_eq. eauto using lookup_lt_Some. }
      { exact I. }
      split.
      * rewrite Hcalls. unfold token_calls. now rewrite Hreq.
      * exists pc'. repeat split; auto.
    + destruct (IH s1 pc) as (Hcalls & pc' & Hpc' & Hpast' & Hfin); auto.
      * now rewrite (sys_step_other_task l s s1 i).
      * split; [|eauto].
        now rewrite Hcalls, (sys_step_other_token_calls l s s1 i).
Qed.

(** ** The state mismatch path *)

(** What [handleAuth] does when the pending callback fails
    [validateState]. *)
Lemma handleAuth_begin_mismatch tid now w authCode w1 :
  getAuthorizationCode w = (Normal (Some authCode), w1) ->
  getItem STORAGE_KEY_STATE (sessionStorage w1) <> Some (state authCode) ->
  handleAuth_begin tid now w
  = (Finished,
     setLoading false (clearAuthorizationCode (console_error "Invalid OAuth state" w1))).
Proof.
  intros Hget Hstate. unfold handleAuth_begin. rewrite Hget.
  apply validateState_false in Hstate. now rewrite Hstate.
Qed.

(** C1. A run of the initialization that finds a pending callback whose
    state is not exactly the stored anti-CSRF state never calls the token
    endpoint: whatever the other invocations and the environment do
    afterwards, no token request is ever attributed to it, and it is finished
    after its first transition. *)
Theorem csrf_mismatch_never_calls_token_endpoint
    (s s' : System) (i : nat) (now : Z) (ls : list Label) authCode w1 :
  tasks s !! i = Some HandleAuth ->
  getAuthorizationCode (world s) = (Normal (Some authCode), w1) ->
  getItem STORAGE_KEY_STATE (sessionStorage w1) <> Some (state authCode) ->
  sys_run (mkLabel i now Invoke :: ls) s = Some s' ->
  token_calls i (world s') = token_calls i (world s) /\
  tasks s' !! i = Some Finished.
Proof.
  intros Hi Hget Hstate Hrun. cbn [sys_run] in Hrun.
  destruct (sys_step _ s) as [s1|] eqn:Hstep; [|discriminate].
  apply sys_step_inv in Hstep as (pc & pc' & Hpc & Hstep & Htasks).
  cbn [who clock event] in *. rewrite Hi in Hpc. injection Hpc as <-.
  cbn [step] in Hstep. rewrite (handleAuth_begin_mismatch _ _ _ _ _ Hget Hstate) in Hstep.
  injection Hstep as <- Hw.
  destruct (past_exchange_no_token_calls ls s1 s' i Finished)
    as (Hcalls & pc' & Hpc' & _ & Hfin); auto.
  { rewrite Htasks. apply list_lookup_insert_eq. eauto using lookup_lt_Some. }
  { exact I. }
  split; [|now rewrite Hpc', Hfin]. rewrite Hcalls. unfold token_calls. rewrite <- Hw. cbn.
  apply getAuthorizationCode_frame in Hget as (_ & _ & _ & _ & _ & _ & -> & _).
  reflexivity.
Qed.

(** C3 (amended). When the initialization finds a pending callback whose
    state fails validation, the run ends at once: loading is switched off,
    no request is made, and the PendingCallback and the ExchangeLock are
    removed from the ephemeral store.  The PkceSession is not touched: the
    stored verifier and state are what they were before the run. *)
Theorem csrf_mismatch_clears_callback_only
    (tid : nat) (now : Z) (w : World) authCode w1 :
  getAuthorizationCode w = (Normal (Some authCode), w1) ->
  validateState (state authCode) w1 = false ->
  exists w',
    handleAuth_begin tid now w = (Finished, w') /\
    loading w' = false /\
    requests w' = requests w /\
    getItem STORAGE_KEY_PENDING_CODE (sessionStorage w') = None /\
    getItem STORAGE_KEY_EXCHANGE_IN_PROGRESS (sessionStorage w') = None /\
    getItem STORAGE_KEY_VERIFIER (sessionStorage w')
      = getItem STORAGE_KEY_VERIFIER (sessionStorage w) /\
    getItem STORAGE_KEY_STATE (sessionStorage w')
      = getItem STORAGE_KEY_STATE (sessionStorage w) /\
    localStorage w' = localStorage w.
Proof.
  intros Hget Hstate. eexists. split.
  { apply (handleAuth_begin_mismatch tid now w authCode w1 Hget).
    now apply validateState_false. }
  apply getAuthorizationCode_frame in Hget as (Hss & Hls & _ & _ & _ & _ & Hreq & _).
  cbn. unfold getItem, removeItem in *.
  repeat split; auto.
  - rewrite lookup_delete_ne by discriminate. apply lookup_delete_eq.
  - apply lookup_delete_eq.
  - rewrite !lookup_delete_ne by discriminate. now apply Hss.
  - rewrite !lookup_delete_ne by discriminate. now apply Hss.
Qed.

(** C10. With no anti-CSRF state in the ephemeral store, [validateState]
    answers [false] for every returned state; so a callback that arrives
    while no PkceSession is active does not validate. *)
Theorem validateState_without_stored_state :
  (forall (returnedState : string) (w : World),
     getItem STORAGE_KEY_STATE (sessionStorage w) = None ->
     validateState returnedState w = false) /\
  (forall (w w1 : World) authCode,
     getItem STORAGE_KEY_STATE (sessionStorage w) = None ->
     getAuthorizationCode w = (Normal (Some authCode), w1) ->
     validateState (state authCode) w1 = false).
Proof.
  split.
  - intros returnedState w Hnone. unfold validateState. now rewrite Hnone.
  - intros w w1 authCode Hnone Hget.
    apply getAuthorizationCode_frame in Hget as (Hss & _).
    unfold validateState. rewrite Hss by discriminate. now rewrite Hnone.
Qed.

(** ** checkUserStatus *)

(** C2. [checkUserStatus] classifies every reply: 200 is [Approved]; 403
    with the deactivation code in its JSON body is [Deactivated]; 403 with
    any other body, or one that does not parse, is [Pending]; every other
    status code and a failed request are [Error]. *)
Theorem checkUserStatus_classifies :
  (forall body, checkUserStatus (Some (mkStatusResponse 200 body)) = Approved) /\
  (forall body, carries_deactivation_code body ->
     checkUserStatus (Some (mkStatusResponse 403 body)) = Deactivated) /\
  (forall body, ~ carries_deactivation_code body ->
     checkUserStatus (Some (mkStatusResponse 403 body)) = Pending) /\
  (forall status body, status <> 200 -> status <> 403 ->
     checkUserStatus (Some (mkStatusResponse status body)) = Error) /\
  checkUserStatus None = Error.
Proof.
  repeat split.
  - intros body (fields & -> & Hcode). cbn. now rewrite Hcode.
  - intros body Hnot. cbn.
    destruct body as [[| | | | |fields]|]; try reflexivity. cbn.
    destruct (obj_lookup "code" fields) as [[| | |c| |]|] eqn:Hcode; try reflexivity.
    destruct (String.eqb_spec c "ACCOUNT_DESACTIVATED") as [->|]; [|reflexivity].
    exfalso. apply Hnot. now exists fields.
  - intros status body H200 H403. unfold checkUserStatus. cbn.
    destruct (Z.eqb_spec status 200); [contradiction|].
    destruct (Z.eqb_spec status 403); [contradiction|]. reflexivity.
Qed.

(** ** The callback resolver *)

Lemma searchParams_get_delete_eq (k : string) (q : list (string * string)) :
  searchParams_get k (searchParams_delete k q) = None.
Proof.
  induction q as [|[k' v] q IH]; [reflexivity|]. cbn.
  destruct (String.eqb k k') eqn:Hk; [assumption|]. cbn. now rewrite Hk.
Qed.

Lemma searchParams_get_delete_ne (k k' : string) (q : list (string * string)) :
  k <> k' -> searchParams_get k (searchParams_delete k' q) = searchParams_get k q.
Proof.
  intros Hne. induction q as [|[k0 v] q IH]; [reflexivity|]. cbn.
  destruct (String.eqb_spec k' k0) as [<-|Hk0].
  - destruct (String.eqb_spec k k'); [contradiction | assumption].
  - cbn. now rewrite IH.
Qed.

Lemma truthy_Some (o : option string) (v : string) :
  truthy o = Some v <-> o = Some v /\ v <> "".
Proof.
  unfold truthy. destruct o as [x|]; [|split; [discriminate | intros [[=] _]]].
  destruct (String.eqb_spec x ""); split.
  - discriminate.
  - intros [[= ->] Hv]. contradiction.
  - intros [= ->]. auto.
  - now intros [[= ->] _].
Qed.

Lemma as_AuthCode_to_js (ac : AuthCode) : as_AuthCode (AuthCode_to_js ac) = Some ac.
Proof. now destruct ac. Qed.

Lemma as_StoredTokens_to_js (t : StoredTokens) : as_StoredTokens (StoredTokens_to_js t) = Some t.
Proof. now destruct t. Qed.

(** C6 (amended). [getAuthorizationCode] follows its three steps and is
    idempotent.  When [code] and [state] are both in the URL with non-empty
    values, it stores them as the PendingCallback, removes both parameters
    from the address bar by rewriting the current history entry (no entry is
    added, every other parameter stays) and returns them; a further call, on
    the URL so cleaned, returns the same pair from the store and changes
    nothing, as does any later call for as long as the PendingCallback is
    stored.  With no such pair in the URL and no PendingCallback stored it
    returns absent and changes nothing. *)
Theorem getAuthorizationCode_three_steps :
  (forall (w : World) (c s : string),
     searchParams_get "code" (query (location w)) = Some c -> c <> "" ->
     searchParams_get "state" (query (location w)) = Some s -> s <> "" ->
     exists w1,
       getAuthorizationCode w = (Normal (Some (mkAuthCode c s)), w1) /\
       getItem STORAGE_KEY_PENDING_CODE (sessionStorage w1)
         = Some (JSON_stringify (AuthCode_to_js (mkAuthCode c s))) /\
       searchParams_get "code" (query (location w1)) = None /\
       searchParams_get "state" (query (location w1)) = None /\
       (forall k, k <> "code" -> k <> "state" ->
          searchParams_get k (query (location w1)) = searchParams_get k (query (location w))) /\
       path (location w1) = path (location w) /\
       history_back w1 = history_back w /\
       getAuthorizationCode w1 = (Normal (Some (mkAuthCode c s)), w1)) /\
  (forall (w : World) (pending : AuthCode),
     truthy (searchParams_get "code" (query (location w))) = None \/
     truthy (searchParams_get "state" (query (location w))) = None ->
     getItem STORAGE_KEY_PENDING_CODE (sessionStorage w)
       = Some (JSON_stringify (AuthCode_to_js pending)) ->
     getAuthorizationCode w = (Normal (Some pending), w)) /\
  (forall (w : World),
     truthy (searchParams_get "code" (query (location w))) = None \/
     truthy (searchParams_get "state" (query (location w))) = None ->
     getItem STORAGE_KEY_PENDING_CODE (sessionStorage w) = None ->
     getAuthorizationCode w = (Normal None, w)).
Proof.
  assert (forall (w : World) (pending : AuthCode),
            truthy (searchParams_get "code" (query (location w))) = None \/
            truthy (searchParams_get "state" (query (location w))) = None ->
            getItem STORAGE_KEY_PENDING_CODE (sessionStorage w)
              = Some (JSON_stringify (AuthCode_to_js pending)) ->
            getAuthorizationCode w = (Normal (Some pending), w)) as Hstored.
  { intros w pending Hurl Hitem. unfold getAuthorizationCode. rewrite Hitem.
    assert (truthy (Some (JSON_stringify (AuthCode_to_js pending)))
            = Some (JSON_stringify (AuthCode_to_js pending))) as ->.
    { apply truthy_Some. split; [reflexivity | apply JSON_stringify_nonempty]. }
    rewrite JSON_parse_stringify_AuthCode. cbn [AuthCode_to_js].
    change (JObj _) with (AuthCode_to_js pending). rewrite as_AuthCode_to_js.
    destruct Hurl as [-> | ->]; [reflexivity|].
    now destruct (truthy (searchParams_get "code" _)). }
  split; [|split; [exact Hstored|]].
  - intros w c s Hc Hc' Hs Hs'.
    assert (truthy (searchParams_get "code" (query (location w))) = Some c) as Htc
      by now apply truthy_Some.
    assert (truthy (searchParams_get "state" (query (location w))) = Some s) as Hts
      by now apply truthy_Some.
    eexists. split; [unfold getAuthorizationCode; rewrite Htc, Hts; reflexivity|].
    cbn. unfold getItem, setItem. rewrite lookup_insert_eq.
    repeat split.
    + rewrite searchParams_get_delete_ne by discriminate.
      apply searchParams_get_delete_eq.
    + apply searchParams_get_delete_eq.
    + intros k Hk1 Hk2. now rewrite !searchParams_get_delete_ne.
    + apply Hstored.
      * left. cbn. rewrite (searchParams_get_delete_ne "code" "state") by discriminate.
        now rewrite searchParams_get_delete_eq.
      * cbn. unfold getItem, setItem. apply lookup_insert_eq.
  - intros w Hurl Hpending. unfold getAuthorizationCode.
    rewrite Hpending. cbn.
    destruct Hurl as [-> | ->]; [reflexivity|].
    now destruct (truthy (searchParams_get "code" _)).
Qed.

(** ** The token exchange *)

Lemma stored_tokens_localStorage (w1 w2 : World) :
  localStorage w1 = localStorage w2 -> stored_tokens w1 = stored_tokens w2.
Proof. unfold stored_tokens. now intros ->. Qed.

(** [handleRetry] in terms of the typed read of the cache. *)
Lemma handleRetry_begin_empty (tid : nat) (w : World) :
  stored_tokens w = Normal None -> handleRetry_begin tid w = (Finished, w).
Proof.
  unfold stored_tokens, handleRetry_begin.
  destruct (truthy _) as [stored|]; [|reflexivity].
  destruct (JSON_parse stored) as [v|]; [|discriminate].
  destruct (as_StoredTokens v); discriminate.
Qed.

Lemma handleRetry_begin_cached (tid : nat) (w : World) (tokens : StoredTokens) :
  stored_tokens w = Normal (Some tokens) ->
  handleRetry_begin tid w
  = (AwaitStatus FromRetry,
     checkUserStatus_call tid (idToken tokens) (setUserStatus Loading w)).
Proof.
  unfold stored_tokens, handleRetry_begin.
  destruct (truthy _) as [stored|]; [|discriminate].
  destruct (JSON_parse stored) as [v|]; [|discriminate].
  destruct (as_StoredTokens v); [|discriminate].
  now intros [= ->].
Qed.

(** C7. [exchangeCodeForTokens] fails at once, with no request made, when no
    verifier is stored; when the token endpoint answers with a response that
    is not [ok], it reads the body and fails with it in the error, which the
    caller reports before it publishes [Error]; on an [ok] response it
    removes the stored verifier and state; and the caller then caches the
    tokens with [expiresAt] equal to the time of that moment plus
    [expires_in] seconds. *)
Theorem exchangeCodeForTokens_contract :
  (forall (tid : nat) (code : string) (w : World),
     getItem STORAGE_KEY_VERIFIER (sessionStorage w) = None ->
     exchangeCodeForTokens_call tid code w = (Throw "No code verifier found", w)) /\
  (forall (tid : nat) (now : Z) (w : World) (body : string),
     step tid now (TokenFetchSettled (Some false)) AwaitTokenFetch w = Some (AwaitErrorText, w) /\
     exchangeCodeForTokens_not_ok body = Throw ("Token exchange failed: " +:+ body) /\
     exists w',
       step tid now (ErrorTextSettled (Some body)) AwaitErrorText w = Some (Finished, w') /\
       console w' = ("Token exchange failed: " +:+ "Token exchange failed: " +:+ body) :: console w /\
       userStatus w' = Error /\
       localStorage w' = localStorage w) /\
  (forall (tid : nat) (now : Z) (w : World),
     exists w',
       step tid now (TokenFetchSettled (Some true)) AwaitTokenFetch w = Some (AwaitTokenJson, w') /\
       getItem STORAGE_KEY_VERIFIER (sessionStorage w') = None /\
       getItem STORAGE_KEY_STATE (sessionStorage w') = None) /\
  (forall (tid : nat) (now : Z) (w : World) (tokens : TokenResponse),
     exists pc w',
       step tid now (TokenJsonSettled (Some tokens)) AwaitTokenJson w = Some (pc, w') /\
       stored_tokens w'
         = Normal (Some (mkStoredTokens (access_token tokens) (id_token tokens)
                           (refresh_token tokens) (now + expires_in tokens * 1000)))).
Proof.
  split; [|split; [|split]].
  - intros tid code w Hnone. unfold exchangeCodeForTokens_call. now rewrite Hnone.
  - intros tid now w body. split; [reflexivity|]. split; [reflexivity|].
    eexists. split; [reflexivity|]. cbn. auto.
  - intros tid now w. eexists. split; [reflexivity|].
    cbn. unfold getItem, removeItem. split.
    + rewrite lookup_delete_ne by discriminate. apply lookup_delete_eq.
    + apply lookup_delete_eq.
  - intros tid now w tokens. cbn [step handleAuth_exchanged].
    destruct (handleAuth_tokens tid now tokens w) as [pc w'] eqn:Hpath.
    exists pc, w'. split; [reflexivity|].
    set (storedTokens := mkStoredTokens _ _ _ _).
    assert (getItem TOKEN_STORAGE_KEY (localStorage w')
            = Some (JSON_stringify (StoredTokens_to_js storedTokens))) as Hitem.
    { unfold handleAuth_tokens, handleAuth_catch in Hpath.
      destruct (getUserInfoFromToken _); injection Hpath as <- <-; cbn;
        unfold getItem, setItem; apply lookup_insert_eq. }
    unfold stored_tokens. rewrite Hitem.
    assert (truthy (Some (JSON_stringify (StoredTokens_to_js storedTokens)))
            = Some (JSON_stringify (StoredTokens_to_js storedTokens))) as ->.
    { apply truthy_Some. split; [reflexivity | apply JSON_stringify_nonempty]. }
    now rewrite JSON_parse_stringify_StoredTokens, as_StoredTokens_to_js.
Qed.

(** ** The token cache *)

Lemma unexpired_Some (now : Z) (o : option StoredTokens) (tokens : StoredTokens) :
  unexpired now o = Some tokens <-> o = Some tokens /\ now < expiresAt tokens.
Proof.
  unfold unexpired. destruct o as [t|]; [|split; [discriminate | intros [[=] _]]].
  destruct (Z.gtb_spec (expiresAt t) now); split.
  - intros [= ->]. auto.
  - now intros [[= ->] _].
  - discriminate.
  - intros [[= ->] Hlt]. lia.
Qed.

Lemma unexpired_expired (now : Z) (tokens : StoredTokens) :
  expiresAt tokens <= now -> unexpired now (Some tokens) = None.
Proof.
  intros Hle. unfold unexpired. destruct (Z.gtb_spec (expiresAt tokens) now); [lia | reflexivity].
Qed.

(** The only writes to persistent storage are the purge of
    [checkStoredTokens] and the TokenSet cached after an exchange. *)
Lemma step_localStorage tid now ev pc w pc' w' :
  step tid now ev pc w = Some (pc', w') ->
  localStorage w' = localStorage w \/
  localStorage w' = removeItem TOKEN_STORAGE_KEY (localStorage w) \/
  exists tokens,
    localStorage w'
    = setItem TOKEN_STORAGE_KEY (JSON_stringify (StoredTokens_to_js tokens)) (localStorage w).
Proof.
  intros Hstep. step_paths Hstep;
    try (unfold handleAuth_begin in Hstep;
         destruct (getAuthorizationCode w) as [r w1] eqn:Hget;
         apply getAuthorizationCode_frame in Hget as (_ & Hls & _));
    path_cases; cbn; rewrite ?Hls; eauto.
Qed.

(** So a cache that is well formed stays well formed in every run, and every
    read of it parses. *)
Lemma sys_run_cache_wellformed ls s s' :
  sys_run ls s = Some s' -> cache_wellformed (world s) -> cache_wellformed (world s').
Proof.
  revert s. induction ls as [|l ls IH]; intros s Hrun Hwf; cbn in Hrun.
  - now injection Hrun as <-.
  - destruct (sys_step l s) as [s1|] eqn:Hstep; [|discriminate].
    apply (IH s1 Hrun).
    apply sys_step_inv in Hstep as (pc & pc' & _ & Hstep & _).
    apply step_localStorage in Hstep as [Hsame | [Hpurged | [tokens Hcached]]];
      unfold cache_wellformed, getItem, setItem, removeItem in *.
    + now rewrite Hsame.
    + left. rewrite Hpurged. apply lookup_delete_eq.
    + right. exists tokens. rewrite Hcached. apply lookup_insert_eq.
Qed.

Lemma cache_wellformed_read (w : World) :
  cache_wellformed w -> exists stored, stored_tokens w = Normal stored.
Proof.
  unfold stored_tokens. intros [-> | [tokens ->]]; [eauto|].
  assert (truthy (Some (JSON_stringify (StoredTokens_to_js tokens)))
          = Some (JSON_stringify (StoredTokens_to_js tokens))) as ->.
  { apply truthy_Some. split; [reflexivity | apply JSON_stringify_nonempty]. }
  rewrite JSON_parse_stringify_StoredTokens, as_StoredTokens_to_js. eauto.
Qed.


(** C8 (amended). On the initialization path without a pending callback,
    [checkStoredTokens] trusts a stored TokenSet only when its [expiresAt] is
    strictly greater than the current time; one that is not strictly in the
    future is treated as absent and removed from persistent storage.  The
    two reads on the callback path, before the exchange and in the poll
    loop, apply the same strict test and never use such a TokenSet, but they
    leave it in storage.  The manual retry does not look at [expiresAt]: it
    checks the account status with whatever TokenSet is cached. *)
Theorem expired_tokens_untrusted :
  (forall (tid : nat) (now : Z) (w : World) (tokens : StoredTokens),
     stored_tokens w = Normal (Some tokens) ->
     (forall k w', checkStoredTokens tid now w = (AwaitStatus k, w') ->
        now < expiresAt tokens) /\
     (expiresAt tokens <= now ->
        checkStoredTokens tid now w
        = (Finished, setLoading false (with_localStorage (removeItem TOKEN_STORAGE_KEY) w)) /\
        getItem TOKEN_STORAGE_KEY
          (localStorage (snd (checkStoredTokens tid now w))) = None /\
        requests (snd (checkStoredTokens tid now w)) = requests w /\
        user (snd (checkStoredTokens tid now w)) = user w)) /\
  (forall (tid : nat) (now : Z) (w : World) authCode w1 (tokens : StoredTokens),
     getAuthorizationCode w = (Normal (Some authCode), w1) ->
     stored_tokens w = Normal (Some tokens) ->
     expiresAt tokens <= now ->
     fst (handleAuth_begin tid now w) <> AwaitStatus FromCachedTokens /\
     localStorage (snd (handleAuth_begin tid now w)) = localStorage w /\
     user (snd (handleAuth_begin tid now w)) = user w) /\
  (forall (tid : nat) (now : Z) (i : nat) (w : World) (tokens : StoredTokens),
     stored_tokens w = Normal (Some tokens) ->
     expiresAt tokens <= now ->
     fst (waitForTokens_wake tid now i w) <> AwaitStatus FromWaitForTokens /\
     localStorage (snd (waitForTokens_wake tid now i w)) = localStorage w /\
     user (snd (waitForTokens_wake tid now i w)) = user w) /\
  (forall (tid : nat) (w : World) (tokens : StoredTokens),
     stored_tokens w = Normal (Some tokens) ->
     handleRetry_begin tid w
     = (AwaitStatus FromRetry,
        checkUserStatus_call tid (idToken tokens) (setUserStatus Loading w))).
Proof.
  split; [|split; [|split]].
  - intros tid now w tokens Hstored. unfold checkStoredTokens. rewrite Hstored.
    destruct (Z.gtb_spec (expiresAt tokens) now) as [Hgt|Hle].
    + split; [intros; lia | intros; lia].
    + split; [intros k w' Hpath; discriminate Hpath|].
      intros _. cbn. repeat split. unfold getItem, removeItem. apply lookup_delete_eq.
  - intros tid now w authCode w1 tokens Hget Hstored Hexpired.
    pose proof Hget as Hframe.
    apply getAuthorizationCode_frame in Hframe as (_ & Hls & _ & Huser & _).
    rewrite <- (stored_tokens_localStorage w1 w Hls) in Hstored.
    unfold handleAuth_begin. rewrite Hget, Hstored, unexpired_expired by assumption.
    all_cases; cbn; repeat split; auto; discriminate.
  - intros tid now i w tokens Hstored Hexpired.
    unfold waitForTokens_wake. rewrite Hstored, unexpired_expired by assumption.
    all_cases; cbn; repeat split; auto; discriminate.
  - intros tid w tokens Hstored. now apply handleRetry_begin_cached.
Qed.

(** ** The poll loop *)

(** Each wake-up of the poll loop uses up budget, and nothing else gives any
    back. *)
Lemma step_wake_budget tid now ev pc w pc' w' :
  step tid now ev pc w = Some (pc', w') ->
  ((if is_timer ev then 1 else 0) + wake_budget pc' <= wake_budget pc)%nat.
Proof.
  intros Hstep. step_paths Hstep; path_cases; cbn [is_timer wake_budget];
    unfold POLL_ITERATIONS in *; try lia.
  match goal with
  | Hlt : (S ?i <? 50)%nat = true |- _ => apply Nat.ltb_lt in Hlt; lia
  end.
Qed.

(** A transition arms at most one timer, of 100 ms, and only within the
    budget. *)
Lemma step_arms tid now ev pc w pc' w' :
  step tid now ev pc w = Some (pc', w') ->
  exists new, timers w' = (new ++ timers w)%list /\
    Forall (fun t => t = (tid, POLL_INTERVAL_MS)) new /\
    (length new + arm_budget pc' <= arm_budget pc)%nat.
Proof.
  intros Hstep. step_paths Hstep;
    try (unfold handleAuth_begin in Hstep;
         destruct (getAuthorizationCode w) as [r w1] eqn:Hget;
         apply getAuthorizationCode_frame in Hget as (_ & _ & _ & _ & _ & _ & _ & _ & Htm));
    path_cases; cbn; rewrite ?Htm; unfold POLL_ITERATIONS in *;
    first [ exists []; split; [reflexivity | split; [constructor | cbn; lia]]
          | eexists [_]; split; [reflexivity | split; [repeat constructor | cbn; try lia]] ].
  match goal with
  | Hlt : (S ?i <? 50)%nat = true |- _ => apply Nat.ltb_lt in Hlt; lia
  end.
Qed.

Lemma wake_budget_bound pc : (wake_budget pc <= POLL_ITERATIONS)%nat.
Proof. destruct pc; cbn; unfold POLL_ITERATIONS; lia. Qed.

Lemma arm_budget_bound pc : (arm_budget pc <= POLL_ITERATIONS)%nat.
Proof. destruct pc; cbn; unfold POLL_ITERATIONS; lia. Qed.

Lemma sys_run_wake_budget ls s s' (i : nat) pc :
  sys_run ls s = Some s' -> tasks s !! i = Some pc ->
  exists pc', tasks s' !! i = Some pc' /\
    (timer_wakes i ls + wake_budget pc' <= wake_budget pc)%nat.
Proof.
  revert s pc. induction ls as [|l ls IH]; intros s pc Hrun Hi; cbn in Hrun.
  - injection Hrun as <-. exists pc. split; [assumption | cbn; lia].
  - destruct (sys_step l s) as [s1|] eqn:Hstep; [|discriminate].
    unfold timer_wakes. cbn [List.filter].
    destruct (Nat.eqb_spec (who l) i) as [Heq|Hne].
    + apply sys_step_inv in Hstep as (pc0 & pc1 & Hpc0 & Hstep & Htasks).
      rewrite Heq in *. rewrite Hi in Hpc0. injection Hpc0 as <-.
      apply step_wake_budget in Hstep.
      destruct (IH s1 pc1 Hrun) as (pc' & Hpc' & Hle).
      { rewrite Htasks. apply list_lookup_insert_eq. eauto using lookup_lt_Some. }
      exists pc'. split; [assumption|]. unfold timer_wakes in Hle.
      cbn [andb]. destruct (is_timer (event l)); cbn [length] in *; lia.
    + destruct (IH s1 pc Hrun) as (pc' & Hpc' & Hle).
      { now rewrite (sys_step_other_task l s s1 i). }
      exists pc'. split; [assumption | exact Hle].
Qed.

Lemma sys_run_arms ls s s' (i : nat) pc :
  sys_run ls s = Some s' -> tasks s !! i = Some pc ->
  exists pc' new, tasks s' !! i = Some pc' /\
    timers_of i (world s') = (new ++ timers_of i (world s))%list /\
    Forall (fun t => snd t = POLL_INTERVAL_MS) new /\
    (length new + arm_budget pc' <= arm_budget pc)%nat.
Proof.
  revert s pc. induction ls as [|l ls IH]; intros s pc Hrun Hi; cbn in Hrun.
  - injection Hrun as <-. exists pc, []. repeat split; [assumption | constructor | cbn; lia].
  - destruct (sys_step l s) as [s1|] eqn:Hstep; [|discriminate].
    pose proof Hstep as Hinv.
    apply sys_step_inv in Hinv as (pc0 & pc1 & Hpc0 & Hst & Htasks).
    apply step_arms in Hst as (new1 & Htm & Hnew1 & Hlen1).
    destruct (Nat.eqb_spec (who l) i) as [Heq|Hne].
    + rewrite Heq in *. rewrite Hi in Hpc0. injection Hpc0 as <-.
      destruct (IH s1 pc1 Hrun) as (pc' & new & Hpc' & Htms & Hnew & Hlen).
      { rewrite Htasks. apply list_lookup_insert_eq. eauto using lookup_lt_Some. }
      exists pc', (new ++ new1)%list. split; [assumption|].
      assert (timers_of i (world s1) = (new1 ++ timers_of i (world s))%list) as Hs1.
      { unfold timers_of. rewrite Htm, List.filter_app. f_equal.
        clear -Hnew1. induction Hnew1 as [|t new1 -> _ IH]; [reflexivity|].
        cbn. now rewrite Nat.eqb_refl, IH. }
      rewrite Htms, Hs1, <- app_assoc. split; [reflexivity|].
      split.
      * apply Forall_app. split; [assumption|].
        eapply Forall_impl; [exact Hnew1|]. now intros t ->.
      * rewrite length_app. lia.
    + destruct (IH s1 pc Hrun) as (pc' & new & Hpc' & Htms & Hnew & Hlen).
      { now rewrite (sys_step_other_task l s s1 i). }
      exists pc', new. split; [assumption|].
      assert (timers_of i (world s1) = timers_of i (world s)) as Hs1.
      { unfold timers_of. rewrite Htm, List.filter_app.
        replace (List.filter _ new1) with (@nil (nat * Z)); [reflexivity|].
        symmetry. clear -Hnew1 Hne. induction Hnew1 as [|t new1 -> _ IH]; [reflexivity|].
        cbn. destruct (Nat.eqb_spec (who l) i); [contradiction | assumption]. }
      rewrite Htms, Hs1. auto.
Qed.

(** C4. An initializer that finds the ExchangeLock set arms a 100 ms timer
    and waits.  In every run it arms at most 50 such timers and is woken at
    most 50 times; each wake-up is defined and either leaves the loop or
    moves to the next iteration, below 50.  At a wake-up that finds no valid
    TokenSet in the cache, with the lock gone or the budget used up, the
    invocation finishes with the PendingCallback and lock removed, status
    [Error] and loading switched off. *)
Theorem poll_loop_bounded_and_fails_closed :
  (forall (tid : nat) (now : Z) (w : World) authCode w1,
     getAuthorizationCode w = (Normal (Some authCode), w1) ->
     validateState (state authCode) w1 = true ->
     (exists existing, stored_tokens w = Normal existing /\ unexpired now existing = None) ->
     isExchangeInProgress w = true ->
     handleAuth_begin tid now w = (AwaitTimer 0, setTimeout tid POLL_INTERVAL_MS w1)) /\
  (forall (ls : list Label) (s s' : System) (i : nat) pc,
     sys_run ls s = Some s' -> tasks s !! i = Some pc ->
     (timer_wakes i ls <= POLL_ITERATIONS)%nat /\
     exists armed, timers_of i (world s') = (armed ++ timers_of i (world s))%list /\
       (length armed <= POLL_ITERATIONS)%nat /\
       Forall (fun t => snd t = POLL_INTERVAL_MS) armed) /\
  (forall (tid : nat) (now : Z) (i : nat) (w : World),
     exists pc' w',
       step tid now TimerFired (AwaitTimer i) w = Some (pc', w') /\
       forall j, pc' = AwaitTimer j -> j = S i /\ (j < POLL_ITERATIONS)%nat) /\
  (forall (tid : nat) (now : Z) (i : nat) (w : World),
     (exists stored, stored_tokens w = Normal stored /\ unexpired now stored = None) ->
     isExchangeInProgress w = false \/ (POLL_ITERATIONS <= S i)%nat ->
     exists w',
       step tid now TimerFired (AwaitTimer i) w = Some (Finished, w') /\
       userStatus w' = Error /\ loading w' = false /\
       getItem STORAGE_KEY_PENDING_CODE (sessionStorage w') = None /\
       getItem STORAGE_KEY_EXCHANGE_IN_PROGRESS (sessionStorage w') = None /\
       requests w' = requests w).
Proof.
  split; [|split; [|split]].
  - intros tid now w authCode w1 Hget Hstate (existing & Hstored & Hnone) Hlock.
    pose proof Hget as Hframe.
    apply getAuthorizationCode_frame in Hframe as (Hss & Hls & _).
    rewrite <- (stored_tokens_localStorage w1 w Hls) in Hstored.
    assert (isExchangeInProgress w1 = true) as Hlock1.
    { unfold isExchangeInProgress in *. now rewrite Hss by discriminate. }
    unfold handleAuth_begin. now rewrite Hget, Hstate, Hstored, Hnone, Hlock1.
  - intros ls s s' i pc Hrun Hi. split.
    + destruct (sys_run_wake_budget ls s s' i pc Hrun Hi) as (pc' & _ & Hle).
      pose proof (wake_budget_bound pc). lia.
    + destruct (sys_run_arms ls s s' i pc Hrun Hi) as (pc' & new & _ & Htm & Hnew & Hle).
      exists new. pose proof (arm_budget_bound pc). repeat split; [assumption | lia | assumption].
  - intros tid now i w. cbn [step].
    destruct (waitForTokens_wake tid now i w) as [pc' w'] eqn:Hwake.
    exists pc', w'. split; [reflexivity|]. intros j ->.
    unfold waitForTokens_wake in Hwake. all_cases; try discriminate.
    match goal with
    | Hlt : (S ?i <? _)%nat = true |- _ => apply Nat.ltb_lt in Hlt; auto
    end.
  - intros tid now i w (stored & Hstored & Hnone) Hend. eexists. split.
    { cbn [step]. unfold waitForTokens_wake. rewrite Hstored, Hnone.
      destruct Hend as [-> | Hbudget]; [reflexivity|].
      apply Nat.ltb_ge in Hbudget. rewrite Hbudget.
      now destruct (negb (isExchangeInProgress w)). }
    cbn. unfold getItem, removeItem. repeat split.
    + rewrite lookup_delete_ne by discriminate. apply lookup_delete_eq.
    + apply lookup_delete_eq.
Qed.

(** ** The exchange lock *)

Lemma isExchangeInProgress_frame (w w' : World) :
  getItem STORAGE_KEY_EXCHANGE_IN_PROGRESS (sessionStorage w')
  = getItem STORAGE_KEY_EXCHANGE_IN_PROGRESS (sessionStorage w) ->
  isExchangeInProgress w' = isExchangeInProgress w.
Proof. unfold isExchangeInProgress. now intros ->. Qed.

(** Storage reads after the writes of a code path. *)
Ltac storage_simpl :=
  cbn in *; unfold isExchangeInProgress, getItem, setItem, removeItem in *; cbn in *;
  repeat first
    [ rewrite lookup_delete_eq in *
    | rewrite lookup_insert_eq in *
    | rewrite lookup_delete_ne in * by discriminate
    | rewrite lookup_insert_ne in * by discriminate ].

(** C5 (amended). The ExchangeLock is set only by an invocation that starts
    an exchange of its own, its owner.  The owner leaves the lock alone while
    its request is in flight and removes it only once the exchange has
    failed or its token response has been read.  The lock is not reserved to
    the owner, though: a polling invocation leaves the ephemeral store
    untouched for as long as it keeps polling, but removes the lock when its
    loop ends, and a starting invocation removes it when it aborts on a state
    mismatch or finds a valid TokenSet cached.  No other transition removes
    it. *)
Theorem exchange_lock_discipline
    (tid : nat) (now : Z) (ev : Event) (pc pc' : Pc) (w w' : World) :
  step tid now ev pc w = Some (pc', w') ->
  (isExchangeInProgress w = false -> isExchangeInProgress w' = true ->
     pc = HandleAuth /\ pc' = AwaitTokenFetch) /\
  (owns_exchange pc -> isExchangeInProgress w = true -> isExchangeInProgress w' = false ->
     exchange_concluded pc ev) /\
  (forall i j, pc = AwaitTimer i -> pc' = AwaitTimer j ->
     sessionStorage w' = sessionStorage w) /\
  (isExchangeInProgress w = true -> isExchangeInProgress w' = false ->
     exchange_concluded pc ev \/
     (exists i stored, pc = AwaitTimer i /\ stored_tokens w = Normal stored /\
        ((exists tokens, unexpired now stored = Some tokens) \/
         (unexpired now stored = None /\ (POLL_ITERATIONS <= S i)%nat))) \/
     (exists authCode w1, pc = HandleAuth /\
        getAuthorizationCode w = (Normal (Some authCode), w1) /\
        (validateState (state authCode) w1 = false \/
         exists existing tokens, stored_tokens w1 = Normal existing /\
           unexpired now existing = Some tokens))).
Proof.
  intros Hstep.
  assert (pc = HandleAuth ->
          exists r w1, getAuthorizationCode w = (r, w1) /\
            isExchangeInProgress w1 = isExchangeInProgress w) as Hstart.
  { intros _. destruct (getAuthorizationCode w) as [r w1] eqn:Hget. exists r, w1.
    split; [reflexivity|]. apply isExchangeInProgress_frame.
    apply getAuthorizationCode_frame in Hget as (Hss & _). now apply Hss. }
  unfold owns_exchange, exchange_concluded.
  step_paths Hstep;
    try (destruct Hstart as (r & w1 & Hget & Hlock1); [reflexivity|];
         unfold handleAuth_begin in Hstep; rewrite Hget in Hstep;
         revert Hlock1; generalize (isExchangeInProgress w); intros lock0 Hlock1);
    try clear Hstart; path_cases.
  all: repeat match goal with
              | Hlt : (_ <? _)%nat = false |- _ => apply Nat.ltb_ge in Hlt
              | Hneg : negb _ = true |- _ => apply negb_true_iff in Hneg
              | Hneg : negb _ = false |- _ => apply negb_false_iff in Hneg
              end.
  all: repeat split; intros;
    repeat match goal with
           | Hor : _ \/ _ |- _ => destruct Hor
           end;
    try discriminate; try congruence; subst.
  all: try solve [storage_simpl; congruence].
  all: try solve [left; eauto 10].
  all: try solve [right; left; eauto 10].
  all: try solve [right; right; eauto 10].
  all: try solve [right; left; do 2 eexists; repeat split; eauto; right; split; eauto].
Qed.

(** ** One exchange per callback *)

(** Once the callback is taken up, [getAuthorizationCode] changes nothing,
    and it answers with a callback only under the lock. *)
Lemma getAuthorizationCode_taken (w w1 : World) r :
  callback_taken w -> getAuthorizationCode w = (r, w1) ->
  w1 = w /\ (forall authCode, r = Normal (Some authCode) -> isExchangeInProgress w = true).
Proof.
  intros [Hurl Hguard] Hget. unfold getAuthorizationCode in Hget.
  assert (match truthy (searchParams_get "code" (query (location w))),
                truthy (searchParams_get "state" (query (location w))) with
          | Some _, Some _ => False
          | _, _ => True
          end) as Hnopair.
  { destruct Hurl as [-> | ->]; [exact I|].
    destruct (truthy (searchParams_get "code" (query (location w)))); exact I. }
  destruct (truthy (searchParams_get "code" _)), (truthy (searchParams_get "state" _));
    try contradiction;
    (destruct Hguard as [Hlock | Hnone];
     [ repeat break_match; inversion Hget; subst; auto
     | rewrite Hnone in Hget; inversion Hget; subst; split; [reflexivity | congruence] ]).
Qed.

(** With the callback taken up, no transition calls the token endpoint, and
    the callback stays taken up. *)
Lemma step_callback_taken tid now ev pc w pc' w' :
  step tid now ev pc w = Some (pc', w') -> callback_taken w ->
  callback_taken w' /\ token_requests (requests w') = token_requests (requests w).
Proof.
  intros Hstep Htaken.
  assert (pc = HandleAuth ->
          exists r, getAuthorizationCode w = (r, w) /\
            (forall authCode, r = Normal (Some authCode) -> isExchangeInProgress w = true))
    as Hstart.
  { intros _. destruct (getAuthorizationCode w) as [r w1] eqn:Hget.
    destruct (getAuthorizationCode_taken w w1 r Htaken Hget) as [-> Hlock]. eauto. }
  destruct Htaken as [Hurl Hguard]. unfold callback_taken.
  step_paths Hstep;
    try (destruct Hstart as (r & Hget & Hlock); [reflexivity|];
         unfold handleAuth_begin in Hstep; rewrite Hget in Hstep);
    try clear Hstart; path_cases;
    try (specialize (Hlock _ eq_refl); congruence);
    cbn; (split; [split; [exact Hurl|] | reflexivity]);
    first [ exact Hguard
          | left; assumption
          | right; unfold getItem, removeItem;
            rewrite lookup_delete_ne by discriminate; now rewrite lookup_delete_eq
          | destruct Hguard as [Hlock' | Hnone]; [left | right];
            [ revert Hlock' | revert Hnone ];
            unfold isExchangeInProgress, getItem, removeItem; cbn;
            now rewrite !lookup_delete_ne by discriminate ].
Qed.

Lemma token_requests_app (a b : list (nat * Request)) :
  token_requests (a ++ b) = (token_requests a ++ token_requests b)%list.
Proof. apply List.filter_app. Qed.

(** A transition makes at most one call to the token endpoint, and the
    callback is taken up when it has made one. *)
Lemma step_token_request tid now ev pc w pc' w' :
  step tid now ev pc w = Some (pc', w') ->
  exists new, requests w' = (new ++ requests w)%list /\
    (token_requests new = [] \/
     (length (token_requests new) = 1%nat /\ callback_taken w')).
Proof.
  intros Hstep.
  assert (pc = HandleAuth ->
          exists r w1, getAuthorizationCode w = (r, w1) /\ requests w1 = requests w /\
            (forall authCode, r = Normal (Some authCode) ->
               truthy (searchParams_get "code" (query (location w1))) = None \/
               truthy (searchParams_get "state" (query (location w1))) = None)) as Hstart.
  { intros _. destruct (getAuthorizationCode w) as [r w1] eqn:Hget. exists r, w1.
    split; [reflexivity|]. split.
    { now apply getAuthorizationCode_frame in Hget as (_ & _ & _ & _ & _ & _ & Hreq & _). }
    intros authCode ->. unfold getAuthorizationCode in Hget.
    destruct (truthy (searchParams_get "code" (query (location w)))) eqn:Hc;
      [destruct (truthy (searchParams_get "state" (query (location w)))) eqn:Hs|].
    - injection Hget as _ <-. left. cbn.
      rewrite (searchParams_get_delete_ne "code" "state") by discriminate.
      now rewrite searchParams_get_delete_eq.
    - repeat break_match; inversion Hget; subst; auto.
    - repeat break_match; inversion Hget; subst; auto. }
  step_paths Hstep;
    try (destruct Hstart as (r & w1 & Hget & Hreq & Hurl); [reflexivity|];
         unfold handleAuth_begin in Hstep; rewrite Hget in Hstep);
    try clear Hstart; path_cases; cbn; rewrite ?Hreq;
    first [ exists []; split; [reflexivity | left; reflexivity]
          | eexists [(_, StatusRequest _ _)]; split; [reflexivity | left; reflexivity]
          | eexists [(_, TokenRequest _ _)]; split; [reflexivity|]; right;
            split; [reflexivity|]; split; [now apply (Hurl _ eq_refl) | left];
            unfold isExchangeInProgress, getItem, setItem; cbn;
            now rewrite lookup_insert_eq ].
Qed.

(** X1. However often [handleAuth] is started and however its invocations
    and the replies of the network interleave, at most one call to the token
    endpoint is made in a run. *)
Theorem at_most_one_token_exchange (ls : list Label) (s s' : System) :
  sys_run ls s = Some s' ->
  exists new, requests (world s') = (new ++ requests (world s))%list /\
    (length (token_requests new) <= 1)%nat.
Proof.
  assert (forall ls s s', sys_run ls s = Some s' -> callback_taken (world s) ->
            token_requests (requests (world s')) = token_requests (requests (world s)) /\
            exists new, requests (world s') = (new ++ requests (world s))%list) as Hquiet.
  { clear. intros ls. induction ls as [|l ls IH]; intros s s' Hrun Htaken; cbn in Hrun.
    - injection Hrun as <-. split; [reflexivity | now exists []].
    - destruct (sys_step l s) as [s1|] eqn:Hstep; [|discriminate].
      apply sys_step_inv in Hstep as (pc & pc' & _ & Hstep & _).
      destruct (step_callback_taken _ _ _ _ _ _ _ Hstep Htaken) as [Htaken1 Hsame].
      apply step_requests in Hstep as (new1 & Hreq1 & _).
      destruct (IH s1 s' Hrun Htaken1) as (Hrest & new & Hreq).
      split; [congruence|]. exists (new ++ new1)%list.
      now rewrite Hreq, Hreq1, app_assoc. }
  revert s. induction ls as [|l ls IH]; intros s Hrun; cbn in Hrun.
  - injection Hrun as <-. exists []. split; [reflexivity | cbn; lia].
  - destruct (sys_step l s) as [s1|] eqn:Hstep; [|discriminate].
    apply sys_step_inv in Hstep as (pc & pc' & _ & Hstep & _).
    apply step_token_request in Hstep as (new1 & Hreq1 & [Hnone | [Hone Htaken]]).
    + destruct (IH s1 Hrun) as (new & Hreq & Hle). exists (new ++ new1)%list.
      split; [now rewrite Hreq, Hreq1, app_assoc|].
      rewrite token_requests_app, Hnone, app_nil_r. exact Hle.
    + destruct (Hquiet ls s1 s' Hrun Htaken) as (Hsame & new & Hreq).
      exists (new ++ new1)%list. split; [now rewrite Hreq, Hreq1, app_assoc|].
      rewrite Hreq, Hreq1, !token_requests_app in Hsame.
      rewrite token_requests_app, length_app.
      apply (f_equal (@length _)) in Hsame. rewrite !length_app in Hsame. lia.
Qed.

(** ** How an invocation ends *)

(** X2. Whenever [handleAuth] runs to its end, the loading state is switched
    off: every transition that finishes an invocation, [handleRetry] apart,
    leaves [loading] false. *)
Theorem handleAuth_finishes_with_loading_off
    (tid : nat) (now : Z) (ev : Event) (pc : Pc) (w w' : World) :
  step tid now ev pc w = Some (Finished, w') ->
  pc <> HandleRetry -> pc <> AwaitStatus FromRetry ->
  loading w' = false.
Proof.
  intros Hstep Hretry Hstatus.
  step_paths Hstep; try congruence; path_cases; try congruence; reflexivity.
Qed.

(** X3. An exception that escapes [handleAuth] or [handleRetry] is raised
    before the first await or in the poll loop, never while an exchange or a
    status check is awaited.  It leaves user and loading flag untouched,
    nothing is requested or logged, and the token cache is not changed.  The
    status is untouched too when the exception escapes [handleAuth];
    [handleRetry] has either left it or has already switched it to
    [loading]. *)
Theorem rejection_leaves_page_untouched
    (tid : nat) (now : Z) (ev : Event) (pc : Pc) (w w' : World) (e : string) :
  step tid now ev pc w = Some (Rejected e, w') ->
  (pc = HandleAuth \/ pc = HandleRetry \/ exists i, pc = AwaitTimer i) /\
  user w' = user w /\ loading w' = loading w /\
  requests w' = requests w /\ console w' = console w /\
  localStorage w' = localStorage w /\
  (userStatus w' = userStatus w \/ pc = HandleRetry /\ userStatus w' = Loading).
Proof.
  intros Hstep.
  step_paths Hstep;
    try (unfold handleAuth_begin in Hstep;
         destruct (getAuthorizationCode w) as [r w1] eqn:Hget;
         apply getAuthorizationCode_frame in Hget
           as (_ & Hls & _ & Huser & Hstatus & Hloading & Hreq & Hcon & _));
    path_cases; try discriminate; cbn; eauto 12.
Qed.

(** ** What is sent, and where *)

(** A TokenSet written to the cache reads back as written. *)
Lemma stored_tokens_cached (w : World) (tokens : StoredTokens) :
  getItem TOKEN_STORAGE_KEY (localStorage w)
  = Some (JSON_stringify (StoredTokens_to_js tokens)) ->
  stored_tokens w = Normal (Some tokens).
Proof.
  intros Hitem. unfold stored_tokens. rewrite Hitem.
  assert (truthy (Some (JSON_stringify (StoredTokens_to_js tokens)))
          = Some (JSON_stringify (StoredTokens_to_js tokens))) as ->.
  { apply truthy_Some. split; [reflexivity | apply JSON_stringify_nonempty]. }
  now rewrite JSON_parse_stringify_StoredTokens, as_StoredTokens_to_js.
Qed.

(** X4. A call to the token endpoint is only ever made for a callback whose
    state passed [validateState], by an invocation that found no valid
    TokenSet cached and no exchange in progress; it goes to the token
    endpoint of the configured domain and carries the code of that callback
    and the stored, non-empty verifier. *)
Theorem token_request_only_for_validated_callback
    (tid : nat) (now : Z) (ev : Event) (pc pc' : Pc) (w w' : World)
    (url : string) (form : list (string * string)) :
  step tid now ev pc w = Some (pc', w') ->
  requests w' = (tid, TokenRequest url form) :: requests w ->
  pc = HandleAuth /\ pc' = AwaitTokenFetch /\
  exists authCode w1 existing codeVerifier,
    getAuthorizationCode w = (Normal (Some authCode), w1) /\
    validateState (state authCode) w1 = true /\
    stored_tokens w1 = Normal existing /\ unexpired now existing = None /\
    isExchangeInProgress w1 = false /\
    getItem STORAGE_KEY_VERIFIER (sessionStorage w) = Some codeVerifier /\
    codeVerifier <> "" /\
    url = "https://" +:+ VITE_COGNITO_DOMAIN +:+ "/oauth2/token" /\
    form = [("grant_type", "authorization_code");
            ("client_id", VITE_COGNITO_USER_POOL_CLIENT_ID);
            ("code", code authCode);
            ("redirect_uri", VITE_REDIRECT_SIGN_IN);
            ("code_verifier", codeVerifier)].
Proof.
  intros Hstep Hsent.
  assert (forall x : nat * Request, requests w <> x :: requests w) as Hcons.
  { intros x Heq. apply (f_equal (@length _)) in Heq. cbn in Heq. lia. }
  step_paths Hstep;
    try (unfold handleAuth_begin in Hstep;
         destruct (getAuthorizationCode w) as [r w1] eqn:Hget;
         pose proof Hget as Hframe;
         apply getAuthorizationCode_frame in Hframe
           as (Hss & _ & _ & _ & _ & _ & Hreq & _));
    path_cases; cbn in Hsent; rewrite ?Hreq in Hsent;
    try discriminate Hsent;
    try (exfalso; exact (Hcons _ Hsent)).
  injection Hsent as <- <-.
  repeat split; try reflexivity.
  match goal with
  | Hv : truthy (getItem STORAGE_KEY_VERIFIER _) = Some ?v |- _ =>
      cbn in Hv; unfold getItem, setItem in Hv;
      rewrite lookup_insert_ne in Hv by discriminate;
      apply truthy_Some in Hv as [Hv Hne];
      change (sessionStorage w1 !! STORAGE_KEY_VERIFIER)
        with (getItem STORAGE_KEY_VERIFIER (sessionStorage w1)) in Hv;
      rewrite Hss in Hv by discriminate
  end.
  match goal with
  | Hneg : negb _ = false |- _ => apply negb_false_iff in Hneg
  end.
  eauto 15.
Qed.

(** X5. The account status is only ever asked for at the dashboard endpoint
    of the API, and the bearer token sent is the identity token of the
    TokenSet that the cache holds at that moment. *)
Theorem status_request_carries_cached_token
    (tid : nat) (now : Z) (ev : Event) (pc pc' : Pc) (w w' : World)
    (url authorization : string) :
  step tid now ev pc w = Some (pc', w') ->
  requests w' = (tid, StatusRequest url authorization) :: requests w ->
  url = API_BASE_URL +:+ "/api/dashboard" /\
  (exists k, pc' = AwaitStatus k) /\
  exists tokens,
    stored_tokens w' = Normal (Some tokens) /\
    authorization = "Bearer " +:+ idToken tokens.
Proof.
  intros Hstep Hsent.
  assert (forall x : nat * Request, requests w <> x :: requests w) as Hcons.
  { intros x Heq. apply (f_equal (@length _)) in Heq. cbn in Heq. lia. }
  step_paths Hstep;
    try (unfold handleAuth_begin in Hstep;
         destruct (getAuthorizationCode w) as [r w1] eqn:Hget;
         apply getAuthorizationCode_frame in Hget
           as (_ & Hls & _ & _ & _ & _ & Hreq & _));
    path_cases; cbn in Hsent; rewrite ?Hreq in Hsent;
    try discriminate Hsent;
    try (exfalso; exact (Hcons _ Hsent));
    injection Hsent as <- <-;
    (split; [reflexivity|]); (split; [eauto|]);
    repeat match goal with
           | Hu : unexpired _ _ = Some _ |- _ => apply unexpired_Some in Hu as [-> _]
           end.
  all: try (eexists; split; [|reflexivity];
            match goal with
            | Hst : stored_tokens ?w0 = Normal (Some ?t) |- stored_tokens ?w2 = _ =>
                rewrite <- Hst; apply stored_tokens_localStorage; reflexivity
            end).
  all: try (eexists; split; [|reflexivity];
            match goal with
            | Hitem : truthy _ = Some ?stored, Hparsed : JSON_parse ?stored = Some ?v,
              Hread : as_StoredTokens ?v = Some _ |- _ =>
                transitivity (stored_tokens w);
                  [ apply stored_tokens_localStorage; reflexivity
                  | unfold stored_tokens; now rewrite Hitem, Hparsed, Hread ]
            end).
  all: eexists (mkStoredTokens _ _ _ _); split; [|reflexivity];
    apply stored_tokens_cached; cbn; unfold getItem, setItem; apply lookup_insert_eq.
Qed.

(** ** The manual retry *)

(** X6. [handleRetry] only re-checks the account status.  With nothing
    cached it does nothing at all.  In no case does it touch either store,
    the address bar, the published user or the loading flag, or call the
    token endpoint; and when the reply to its status check arrives, it
    publishes the classification of that reply. *)
Theorem handleRetry_only_rechecks_status :
  (forall (tid : nat) (w : World),
     stored_tokens w = Normal None -> handleRetry_begin tid w = (Finished, w)) /\
  (forall (tid : nat) (now : Z) (ev : Event) (pc pc' : Pc) (w w' : World),
     step tid now ev pc w = Some (pc', w') ->
     pc = HandleRetry \/ pc = AwaitStatus FromRetry ->
     sessionStorage w' = sessionStorage w /\ localStorage w' = localStorage w /\
     location w' = location w /\ history_back w' = history_back w /\
     user w' = user w /\ loading w' = loading w /\
     token_requests (requests w') = token_requests (requests w) /\
     (pc = AwaitStatus FromRetry ->
      forall reply, ev = StatusSettled reply ->
        pc' = Finished /\ userStatus w' = checkUserStatus reply)).
Proof.
  split.
  - intros tid w Hnone. now apply handleRetry_begin_empty.
  - intros tid now ev pc pc' w w' Hstep [-> | ->];
      destruct ev; try discriminate Hstep; cbn [step] in Hstep;
      apply (inj Some) in Hstep; path_cases; cbn;
      repeat split; try reflexivity; try discriminate;
      intros; repeat match goal with
                     | Heq : StatusSettled _ = StatusSettled _ |- _ =>
                         injection Heq as <-
                     end; reflexivity.
Qed.

(** ** The lifetime of a cached TokenSet *)

(** [handleAuth] caches what the token endpoint returned, whether or not the
    identity token can be decoded. *)
Lemma handleAuth_tokens_cached tid now tokens w pc w1 :
  handleAuth_tokens tid now tokens w = (pc, w1) ->
  getItem TOKEN_STORAGE_KEY (localStorage w1)
  = Some (JSON_stringify
            (StoredTokens_to_js
               (mkStoredTokens (access_token tokens) (id_token tokens)
                  (refresh_token tokens) (now + expires_in tokens * 1000)))).
Proof.
  unfold handleAuth_tokens, handleAuth_catch. intros Hpath.
  destruct (getUserInfoFromToken _); injection Hpath as <- <-; cbn;
    unfold getItem, setItem; apply lookup_insert_eq.
Qed.

(** X7. A TokenSet cached by an exchange at time [now] is honoured by a later
    page load without a callback exactly until [now + expires_in * 1000]:
    before that moment the load publishes the user decoded from the identity
    token and asks for the account status with that token; from that moment
    on it removes the TokenSet and finishes with loading switched off and
    no status check.  A response with [expires_in] of zero or less is
    therefore never honoured. *)
Theorem cached_tokens_lifetime
    (tid tid' : nat) (now now' : Z) (tokens : TokenResponse) (w w1 w2 : World) (pc : Pc)
    (userInfo : UserInfo) :
  handleAuth_tokens tid now tokens w = (pc, w1) ->
  getUserInfoFromToken (id_token tokens) = Normal userInfo ->
  localStorage w2 = localStorage w1 ->
  getAuthorizationCode w2 = (Normal None, w2) ->
  handleAuth_begin tid' now' w2
  = if now' <? now + expires_in tokens * 1000 then
      (AwaitStatus FromCheckStoredTokens,
       checkUserStatus_call tid' (id_token tokens) (setUser (Some userInfo) w2))
    else
      (Finished, setLoading false (with_localStorage (removeItem TOKEN_STORAGE_KEY) w2)).
Proof.
  intros Hpath Huser Hls Hget.
  apply handleAuth_tokens_cached in Hpath. rewrite <- Hls in Hpath.
  apply stored_tokens_cached in Hpath.
  unfold handleAuth_begin. rewrite Hget. unfold checkStoredTokens. rewrite Hpath.
  cbn [expiresAt idToken]. rewrite Huser, Z.gtb_ltb. reflexivity.
Qed.

(** X8. A polling invocation adopts the TokenSet of the invocation that made
    the exchange: woken before the TokenSet expires, it removes the
    PendingCallback and the lock, publishes the same user and asks for the
    account status with the same identity token. *)
Theorem poller_adopts_exchanged_tokens
    (tid tid' : nat) (now now' : Z) (i : nat) (tokens : TokenResponse) (w w1 w2 : World)
    (pc : Pc) (userInfo : UserInfo) :
  handleAuth_tokens tid now tokens w = (pc, w1) ->
  getUserInfoFromToken (id_token tokens) = Normal userInfo ->
  localStorage w2 = localStorage w1 ->
  now' < now + expires_in tokens * 1000 ->
  step tid' now' TimerFired (AwaitTimer i) w2
  = Some (AwaitStatus FromWaitForTokens,
          checkUserStatus_call tid' (id_token tokens)
            (setUser (Some userInfo) (clearAuthorizationCode w2))) /\
  pc = AwaitStatus FromExchange /\ user w1 = Some userInfo.
Proof.
  intros Hpath Huser Hls Hfresh. pose proof Hpath as Hcached.
  apply handleAuth_tokens_cached in Hcached. rewrite <- Hls in Hcached.
  apply stored_tokens_cached in Hcached.
  split.
  - cbn [step]. unfold waitForTokens_wake. rewrite Hcached.
    assert (unexpired now' (Some (mkStoredTokens (access_token tokens) (id_token tokens)
                                    (refresh_token tokens) (now + expires_in tokens * 1000)))
            = Some (mkStoredTokens (access_token tokens) (id_token tokens)
                      (refresh_token tokens) (now + expires_in tokens * 1000))) as ->
      by now apply unexpired_Some.
    unfold use_cached_tokens. cbn [idToken]. now rewrite Huser.
  - unfold handleAuth_tokens in Hpath. rewrite Huser in Hpath.
    now injection Hpath as <- <-.
Qed.

(** X9. When the identity token returned by the token endpoint cannot be
    decoded, the exchange is reported as failed (status [Error], loading
    off, nobody published), yet the TokenSet has been cached already; and
    every later page load that finds it unexpired raises the same exception
    outside any handler, so that the page is left as it was, loading flag
    included, and the TokenSet stays cached. *)
Theorem undecodable_identity_token
    (tid tid' : nat) (now now' : Z) (tokens : TokenResponse) (w w2 : World) (e : string) :
  getUserInfoFromToken (id_token tokens) = Throw e ->
  exists w1,
    handleAuth_tokens tid now tokens w = (Finished, w1) /\
    userStatus w1 = Error /\ loading w1 = false /\ user w1 = user w /\
    requests w1 = requests w /\
    stored_tokens w1
    = Normal (Some (mkStoredTokens (access_token tokens) (id_token tokens)
                      (refresh_token tokens) (now + expires_in tokens * 1000))) /\
    (localStorage w2 = localStorage w1 ->
     getAuthorizationCode w2 = (Normal None, w2) ->
     now' < now + expires_in tokens * 1000 ->
     handleAuth_begin tid' now' w2 = (Rejected e, w2)).
Proof.
  intros Huser.
  destruct (handleAuth_tokens tid now tokens w) as [pc w1] eqn:Hpath.
  pose proof Hpath as Hcached. apply handleAuth_tokens_cached in Hcached.
  unfold handleAuth_tokens, handleAuth_catch in Hpath. rewrite Huser in Hpath.
  injection Hpath as <- <-. eexists. split; [reflexivity|].
  cbn. repeat split.
  - now apply stored_tokens_cached.
  - intros Hls Hget Hfresh. clear Hcached.
    assert (stored_tokens w2
            = Normal (Some (mkStoredTokens (access_token tokens) (id_token tokens)
                              (refresh_token tokens) (now + expires_in tokens * 1000))))
      as Hread.
    { apply stored_tokens_cached. rewrite Hls. unfold getItem, setItem.
      apply lookup_insert_eq. }
    unfold handleAuth_begin. rewrite Hget. unfold checkStoredTokens. rewrite Hread.
    cbn [expiresAt idToken]. rewrite Huser.
    destruct (Z.gtb_spec (now + expires_in tokens * 1000) now'); [reflexivity | lia].
Qed.

(** ** parseJwt *)

#[local] Arguments append !s1 s2 : simpl nomatch.

Lemma split_on_nonempty (sep : ascii) (s : string) : split_on sep s <> [].
Proof.
  induction s as [|c s IH]; [discriminate|]. cbn [split_on].
  destruct (split_on sep s); [contradiction|]. now destruct (Ascii.eqb c sep).
Qed.

Lemma split_on_whole (sep : ascii) (s : string) :
  has_char sep s = false -> split_on sep s = [s].
Proof.
  induction s as [|c s IH]; [reflexivity|]. cbn [has_char split_on].
  intros [Hc Hs]%orb_false_iff. rewrite (IH Hs). now rewrite Hc.
Qed.

(** The piece before the first separator, and the pieces after it. *)
Lemma split_on_first (sep : ascii) (s rest : string) :
  has_char sep s = false ->
  split_on sep (s +:+ String sep rest) = s :: split_on sep rest.
Proof.
  intros Hs. induction s as [|c s IH]; cbn [append split_on].
  - rewrite Ascii.eqb_refl. pose proof (split_on_nonempty sep rest).
    now destruct (split_on sep rest).
  - cbn [has_char] in Hs. apply orb_false_iff in Hs as [Hc Hs].
    rewrite (IH Hs). now rewrite Hc.
Qed.

(** The second segment of a token [header.payload], with or without further
    segments behind it. *)
Lemma split_on_second (header payload : string) :
  has_char "." header = false -> has_char "." payload = false ->
  split_on "." (header +:+ String "." payload) !! 1%nat = Some payload /\
  forall signature,
    split_on "." (header +:+ String "." (payload +:+ String "." signature)) !! 1%nat
    = Some payload.
Proof.
  intros Hheader Hpayload. split; [|intros signature]; rewrite split_on_first by assumption.
  - now rewrite split_on_whole.
  - now rewrite split_on_first.
Qed.

(** X10. [parseJwt] reads the second segment of the token and nothing else:
    the header and whatever follows the payload, the signature included, have
    no influence on the result. *)
Theorem parseJwt_reads_only_the_payload
    (header header' payload signature signature' : string) :
  has_char "." header = false -> has_char "." header' = false ->
  has_char "." payload = false ->
  parseJwt (header +:+ "." +:+ payload +:+ "." +:+ signature)
  = parseJwt (header' +:+ "." +:+ payload +:+ "." +:+ signature') /\
  parseJwt (header +:+ "." +:+ payload +:+ "." +:+ signature)
  = parseJwt (header' +:+ "." +:+ payload).
Proof.
  intros Hheader Hheader' Hpayload. unfold parseJwt.
  change (header +:+ "." +:+ payload +:+ "." +:+ signature)
    with (header +:+ String "." (payload +:+ String "." signature)).
  change (header' +:+ "." +:+ payload +:+ "." +:+ signature')
    with (header' +:+ String "." (payload +:+ String "." signature')).
  change (header' +:+ "." +:+ payload) with (header' +:+ String "." payload).
  destruct (split_on_second header payload Hheader Hpayload) as [_ Hsigned].
  destruct (split_on_second header' payload Hheader' Hpayload) as [Hbare Hsigned'].
  rewrite Hsigned, Hsigned', Hbare. split; reflexivity.
Qed.

(** X11. A token without a dot has no second segment: [parseJwt] throws a
    [TypeError], and so does [getUserInfoFromToken]. *)
Theorem parseJwt_without_dot_throws (token : string) :
  has_char "." token = false ->
  parseJwt token = Throw "TypeError: Cannot read properties of undefined" /\
  getUserInfoFromToken token = Throw "TypeError: Cannot read properties of undefined".
Proof.
  intros Htoken. unfold getUserInfoFromToken, parseJwt.
  now rewrite split_on_whole.
Qed.

(** ** The storage footprint *)

Lemma step_sessionStorage tid now ev pc w pc' w' (k : string) :
  step tid now ev pc w = Some (pc', w') ->
  k <> STORAGE_KEY_VERIFIER -> k <> STORAGE_KEY_STATE ->
  k <> STORAGE_KEY_PENDING_CODE -> k <> STORAGE_KEY_EXCHANGE_IN_PROGRESS ->
  getItem k (sessionStorage w') = getItem k (sessionStorage w).
Proof.
  intros Hstep Hverifier Hstate Hpending Hlock.
  step_paths Hstep;
    try (unfold handleAuth_begin in Hstep;
         destruct (getAuthorizationCode w) as [r w1] eqn:Hget;
         apply getAuthorizationCode_frame in Hget as (Hss & _);
         specialize (Hss k Hpending); unfold getItem in Hss);
    path_cases; cbn; unfold getItem, setItem, removeItem;
    rewrite ?lookup_delete_ne, ?lookup_insert_ne
      by (intros Hk; subst k;
          first [ exact (Hlock eq_refl) | exact (Hpending eq_refl)
                | exact (Hverifier eq_refl) | exact (Hstate eq_refl) ]);
    first [reflexivity | exact Hss].
Qed.

Lemma sys_run_sessionStorage ls s s' (k : string) :
  sys_run ls s = Some s' ->
  k <> STORAGE_KEY_VERIFIER -> k <> STORAGE_KEY_STATE ->
  k <> STORAGE_KEY_PENDING_CODE -> k <> STORAGE_KEY_EXCHANGE_IN_PROGRESS ->
  getItem k (sessionStorage (world s')) = getItem k (sessionStorage (world s)).
Proof.
  intros Hrun Hverifier Hstate Hpending Hlock.
  revert s Hrun. induction ls as [|l ls IH]; intros s Hrun; cbn in Hrun.
  - now injection Hrun as <-.
  - destruct (sys_step l s) as [s1|] eqn:Hstep; [|discriminate].
    rewrite (IH s1 Hrun).
    apply sys_step_inv in Hstep as (pc & pc' & _ & Hstep & _).
    now apply (step_sessionStorage _ _ _ _ _ _ _ k Hstep).
Qed.

Lemma sys_run_localStorage ls s s' (k : string) :
  sys_run ls s = Some s' -> k <> TOKEN_STORAGE_KEY ->
  getItem k (localStorage (world s')) = getItem k (localStorage (world s)).
Proof.
  intros Hrun Hk.
  revert s Hrun. induction ls as [|l ls IH]; intros s Hrun; cbn in Hrun.
  - now injection Hrun as <-.
  - destruct (sys_step l s) as [s1|] eqn:Hstep; [|discriminate].
    rewrite (IH s1 Hrun).
    apply sys_step_inv in Hstep as (pc & pc' & _ & Hstep & _).
    apply step_localStorage in Hstep as [-> | [-> | [tokens ->]]];
      unfold getItem, setItem, removeItem;
      rewrite ?lookup_delete_ne, ?lookup_insert_ne by (intros Heq; now apply Hk);
      reflexivity.
Qed.

(** X12. The sign-in flow keeps to its own storage keys: in every run, the
    ephemeral store is changed at most under the verifier, the state, the
    pending code and the exchange lock, and the persistent store at most
    under the token key.  What else the page keeps there, its language
    preference for one, is never touched. *)
Theorem storage_footprint (ls : list Label) (s s' : System) :
  sys_run ls s = Some s' ->
  (forall k, k <> STORAGE_KEY_VERIFIER -> k <> STORAGE_KEY_STATE ->
     k <> STORAGE_KEY_PENDING_CODE -> k <> STORAGE_KEY_EXCHANGE_IN_PROGRESS ->
     getItem k (sessionStorage (world s')) = getItem k (sessionStorage (world s))) /\
  (forall k, k <> TOKEN_STORAGE_KEY ->
     getItem k (localStorage (world s')) = getItem k (localStorage (world s))).
Proof.
  intros Hrun. split.
  - intros k Hverifier Hstate Hpending Hlock. now apply (sys_run_sessionStorage ls).
  - intros k Hk. now apply (sys_run_localStorage ls).
Qed.

(** ** What the page shows *)

(** X13. A sign-in that fails before anybody is published ends on the sign-in
    screen.  Whenever [handleAuth] finishes without having reached a status
    check, on a page with no user, the page shows the sign-in screen with
    its one button, also where the status has been set to [Error]: the error
    screen needs a user. *)
Theorem failed_sign_in_shows_the_sign_in_screen
    (tid : nat) (now : Z) (ev : Event) (pc : Pc) (w w' : World) :
  step tid now ev pc w = Some (Finished, w') ->
  user w = None ->
  pc <> HandleRetry -> (forall k, pc <> AwaitStatus k) ->
  App_screen w' = SignInScreen /\ buttons (App_screen w') = [OnSignIn] /\
  (owns_exchange pc \/ (exists i, pc = AwaitTimer i) -> userStatus w' = Error).
Proof.
  intros Hstep Huser Hretry Hstatus.
  assert (loading w' = false /\ user w' = None /\
          (owns_exchange pc \/ (exists i, pc = AwaitTimer i) -> userStatus w' = Error))
    as (Hloading & Huser' & Herror).
  { unfold owns_exchange.
    step_paths Hstep; try congruence;
      try (exfalso; eapply Hstatus; reflexivity);
      try (unfold handleAuth_begin in Hstep;
           destruct (getAuthorizationCode w) as [r w1] eqn:Hget;
           apply getAuthorizationCode_frame in Hget as (_ & _ & _ & Huser1 & _));
      path_cases; try discriminate; cbn; rewrite ?Huser1;
      repeat split; auto;
      intros [[Hpc | [Hpc | Hpc]] | [i Hpc]]; discriminate Hpc. }
  unfold App_screen. rewrite Hloading, Huser'. auto.
Qed.

Lemma checkUserStatus_Approved (reply : option StatusResponse) :
  checkUserStatus reply = Approved ->
  exists body, reply = Some (mkStatusResponse 200 body).
Proof.
  destruct reply as [[status body]|]; [|discriminate]. unfold checkUserStatus. cbn.
  destruct (Z.eqb_spec status 200) as [->|_]; [eauto|].
  destruct (status =? 403); [|discriminate].
  repeat break_match; discriminate.
Qed.

(** X14. Only the backend approves.  A transition publishes the status
    [Approved] only when it is resumed by the reply to a status check and
    that reply has status code 200; and the authenticated screen is shown
    only with that status and a published user. *)
Theorem approved_only_by_the_backend
    (tid : nat) (now : Z) (ev : Event) (pc pc' : Pc) (w w' : World) :
  step tid now ev pc w = Some (pc', w') ->
  (userStatus w' = Approved ->
   userStatus w = Approved \/
   exists k body, pc = AwaitStatus k /\ ev = StatusSettled (Some (mkStatusResponse 200 body))) /\
  (forall u, App_screen w' = AuthenticatedScreen u ->
     userStatus w' = Approved /\ user w' = Some u /\ loading w' = false).
Proof.
  intros Hstep. split.
  - intros Happroved.
    assert ((exists k reply, pc = AwaitStatus k /\ ev = StatusSettled reply) \/
            (forall k, pc <> AwaitStatus k)) as [(k & reply & -> & ->) | Hnot].
    { destruct pc; try (right; intros k0; discriminate).
      destruct ev; try discriminate Hstep. left. eauto. }
    + cbn [step] in Hstep. apply (inj Some) in Hstep.
      unfold status_settled, checkUserStatus_settled in Hstep. injection Hstep as _ <-.
      right. assert (checkUserStatus reply = Approved) as Hreply
        by (destruct k, reply; exact Happroved).
      apply checkUserStatus_Approved in Hreply as [body ->]. eauto.
    + left.
      step_paths Hstep; try (exfalso; eapply Hnot; reflexivity);
        try (unfold handleAuth_begin in Hstep;
             destruct (getAuthorizationCode w) as [r w1] eqn:Hget;
             apply getAuthorizationCode_frame in Hget as (_ & _ & _ & _ & Hstatus1 & _));
        path_cases; cbn in Happroved; rewrite ?Hstatus1 in Happroved;
        try discriminate Happroved; assumption.
  - intros u Hscreen. unfold App_screen in Hscreen.
    destruct (loading w'); [discriminate|].
    destruct (user w') as [u'|]; [|discriminate].
    destruct (userStatus w'); try discriminate. now injection Hscreen as ->.
Qed.

(** ** Termination *)

Lemma step_transitions_left tid now ev pc w pc' w' :
  step tid now ev pc w = Some (pc', w') ->
  (S (transitions_left pc') <= transitions_left pc)%nat.
Proof.
  intros Hstep. step_paths Hstep; path_cases; cbn [transitions_left]; try lia.
  match goal with
  | Hlt : (S ?i <? POLL_ITERATIONS)%nat = true |- _ =>
      apply Nat.ltb_lt in Hlt; unfold POLL_ITERATIONS in Hlt; lia
  end.
Qed.

(** X23. Every invocation comes to an end: in any run, [handleAuth] is
    resumed at most 52 times and [handleRetry] at most twice, whatever the
    network and the other invocations do; and an invocation that has
    finished or thrown is not resumed again. *)
Theorem invocation_terminates (ls : list Label) (s s' : System) (i : nat) (pc : Pc) :
  sys_run ls s = Some s' -> tasks s !! i = Some pc ->
  (resumptions i ls <= transitions_left pc)%nat /\
  (transitions_left pc <= 52)%nat /\
  (pc = HandleRetry -> resumptions i ls <= 2)%nat /\
  (pc = Finished \/ (exists e, pc = Rejected e) -> resumptions i ls = 0%nat).
Proof.
  intros Hrun Hi.
  assert (resumptions i ls <= transitions_left pc)%nat as Hbound.
  { revert s pc Hrun Hi. induction ls as [|l ls IH]; intros s pc Hrun Hi; cbn in Hrun.
    - cbn. lia.
    - destruct (sys_step l s) as [s1|] eqn:Hstep; [|discriminate].
      unfold resumptions. cbn [List.filter].
      destruct (Nat.eqb_spec (who l) i) as [Heq|Hne].
      + apply sys_step_inv in Hstep as (pc0 & pc1 & Hpc0 & Hstep & Htasks).
        rewrite Heq in *. rewrite Hi in Hpc0. injection Hpc0 as <-.
        apply step_transitions_left in Hstep.
        assert (tasks s1 !! i = Some pc1) as Hi1.
        { rewrite Htasks. apply list_lookup_insert_eq. eauto using lookup_lt_Some. }
        specialize (IH s1 pc1 Hrun Hi1). unfold resumptions in IH. cbn [length]. lia.
      + apply (IH s1 pc Hrun). now rewrite (sys_step_other_task l s s1 i). }
  split; [exact Hbound|]. split; [|split].
  - destruct pc; cbn; lia.
  - intros ->. exact Hbound.
  - intros [-> | [e ->]]; cbn in Hbound; lia.
Qed.

(** ** What a transition changes *)

(** X24. The PKCE session is used up by a successful token response and by
    nothing else: a transition changes the stored verifier or the stored
    state only when it is resumed by an [ok] response of the token endpoint,
    and then both are removed.  A failed exchange leaves them where they
    are. *)
Theorem pkce_session_consumed_only_by_ok_response
    (tid : nat) (now : Z) (ev : Event) (pc pc' : Pc) (w w' : World) :
  step tid now ev pc w = Some (pc', w') ->
  (getItem STORAGE_KEY_VERIFIER (sessionStorage w')
   = getItem STORAGE_KEY_VERIFIER (sessionStorage w) /\
   getItem STORAGE_KEY_STATE (sessionStorage w')
   = getItem STORAGE_KEY_STATE (sessionStorage w)) \/
  (pc = AwaitTokenFetch /\ ev = TokenFetchSettled (Some true) /\ pc' = AwaitTokenJson /\
   getItem STORAGE_KEY_VERIFIER (sessionStorage w') = None /\
   getItem STORAGE_KEY_STATE (sessionStorage w') = None).
Proof.
  intros Hstep.
  step_paths Hstep;
    try (unfold handleAuth_begin in Hstep;
         destruct (getAuthorizationCode w) as [r w1] eqn:Hget;
         apply getAuthorizationCode_frame in Hget as (Hss & _);
         pose proof (Hss STORAGE_KEY_VERIFIER ltac:(discriminate)) as Hverifier;
         pose proof (Hss STORAGE_KEY_STATE ltac:(discriminate)) as Hstate;
         unfold getItem in Hverifier, Hstate; clear Hss);
    path_cases; cbn; unfold getItem, setItem, removeItem;
    rewrite ?lookup_delete_ne, ?lookup_insert_ne by discriminate;
    first [ left; split; first [reflexivity | assumption]
          | right; rewrite !lookup_delete_eq; auto 10 ].
Qed.

(** X25. A user is only published together with a status check: a
    transition changes the published user only by publishing the user
    decoded from an identity token, and it then sends that very token to the
    backend as its one request.  [handleAuth] and [handleRetry] never take a
    published user back. *)
Theorem user_published_with_status_check
    (tid : nat) (now : Z) (ev : Event) (pc pc' : Pc) (w w' : World) :
  step tid now ev pc w = Some (pc', w') ->
  user w' = user w \/
  exists userInfo token k,
    user w' = Some userInfo /\ getUserInfoFromToken token = Normal userInfo /\
    pc' = AwaitStatus k /\
    requests w'
    = (tid, StatusRequest (API_BASE_URL +:+ "/api/dashboard") ("Bearer " +:+ token))
        :: requests w.
Proof.
  intros Hstep.
  step_paths Hstep;
    try (unfold handleAuth_begin in Hstep;
         destruct (getAuthorizationCode w) as [r w1] eqn:Hget;
         apply getAuthorizationCode_frame in Hget
           as (_ & _ & _ & Huser & _ & _ & Hreq & _));
    path_cases; cbn; rewrite ?Huser, ?Hreq;
    first [ left; reflexivity | right; eauto 10 ].
Qed.

End Properties.

(** * The encoders of the sign-in code *)

Example sha256_abc :
  map byte_to_N (SHA256.digest (TextEncoder_encode "abc"))
  = [186; 120; 22; 191; 143; 1; 207; 234; 65; 65; 64; 222; 93; 174; 34; 35;
     176; 3; 97; 163; 150; 23; 122; 156; 180; 16; 255; 97; 242; 0; 21; 173]%N.
Proof. vm_compute. reflexivity. Qed.

Example rfc7636_appendix_B :
  generateCodeChallenge "dBjftJeZ4CVP-mB92K27uhbUJU1p1r_wW1gFWFOEjXk"
  = "E9Melhoa2OwvFrEMTJguCHaoeK1t8URWbuGJSstw-cM".
Proof. vm_compute. reflexivity. Qed.

(** Induction over a list three elements at a time. *)
Lemma list_ind3 {A : Type} (P : list A -> Prop) :
  P [] -> (forall a, P [a]) -> (forall a b, P [a; b]) ->
  (forall a b c l, P l -> P (a :: b :: c :: l)) ->
  forall l, P l.
Proof.
  intros H0 H1 H2 H3 l.
  enough (P l /\ (forall a, P (a :: l)) /\ (forall a b, P (a :: b :: l))) as [Hl _]
    by exact Hl.
  induction l as [|x l (IH0 & IH1 & IH2)]; auto.
Qed.

(** A property of the six-bit values, checked on each of them. *)
Lemma below_64 (P : N -> bool) :
  forallb P (map N.of_nat (seq 0 64)) = true ->
  forall n, (n < 64)%N -> P n = true.
Proof.
  intros Hall n Hn. rewrite forallb_forall in Hall. apply Hall.
  apply in_map_iff. exists (N.to_nat n). split; [apply N2Nat.id|].
  apply in_seq. lia.
Qed.

(** ... and of the sixteen hexadecimal digits. *)
Lemma below_16 (P : N -> bool) :
  forallb P (map N.of_nat (seq 0 16)) = true ->
  forall n, (n < 16)%N -> P n = true.
Proof.
  intros Hall n Hn. rewrite forallb_forall in Hall. apply Hall.
  apply in_map_iff. exists (N.to_nat n). split; [apply N2Nat.id|].
  apply in_seq. lia.
Qed.

Lemma byte_to_N_bounded (b : Byte.byte) : (byte_to_N b < 256)%N.
Proof. apply N_ascii_bounded. Qed.

(** Linear arithmetic with division and remainder by constants. *)
Ltac div_lia := zify; Z.to_euclidean_division_equations; lia.

Lemma sextets_of_bounded (l : list N) :
  Forall (fun n => (n < 256)%N) l -> Forall (fun n => (n < 64)%N) (sextets_of l).
Proof.
  induction l as [| a | a b | a b c l IH] using list_ind3; intros Hl; cbn [sextets_of];
    repeat match goal with
           | Hf : Forall _ (_ :: _) |- _ => apply Forall_cons in Hf as [? Hf]
           end;
    repeat (apply Forall_cons; split); auto; try apply Forall_nil; div_lia.
Qed.

Lemma sextets_of_length (l : list N) :
  length (sextets_of l) = ((4 * length l + 2) / 3)%nat.
Proof.
  induction l as [| a | a b | a b c l IH] using list_ind3; cbn [sextets_of length];
    try reflexivity.
  rewrite IH. replace (4 * S (S (S (length l))) + 2)%nat with (4 * length l + 2 + 4 * 3)%nat by lia.
  rewrite Nat.div_add by discriminate. lia.
Qed.

Lemma sextets_of_length_mod4 (l : list N) : (length (sextets_of l) mod 4 <> 1)%nat.
Proof.
  induction l as [| a | a b | a b c l IH] using list_ind3; cbn [sextets_of length];
    try (cbn; discriminate).
  replace (S (S (S (S (length (sextets_of l)))))) with (length (sextets_of l) + 1 * 4)%nat by lia.
  now rewrite Nat.Div0.mod_add.
Qed.

(** The decoder of [atob] undoes the grouping into six-bit values. *)
Lemma decode_sextets_of (l : list N) :
  Forall (fun n => (n < 256)%N) l -> Reference.decode_sextets (sextets_of l) = l.
Proof.
  induction l as [| a | a b | a b c l IH] using list_ind3; intros Hl;
    cbn [sextets_of Reference.decode_sextets];
    repeat match goal with
           | Hf : Forall _ (_ :: _) |- _ => apply Forall_cons in Hf as [? Hf]
           end;
    try reflexivity.
  - f_equal. div_lia.
  - f_equal; [div_lia|]. f_equal. div_lia.
  - rewrite (IH Hl). f_equal; [div_lia|]. f_equal; [div_lia|]. f_equal. div_lia.
Qed.

(** *** The alphabet *)

Lemma base64_char_sextet (n : N) : (n < 64)%N -> Reference.sextet (base64_char n) = Some n.
Proof.
  intros Hn.
  apply (below_64 (fun n => match Reference.sextet (base64_char n) with
                            | Some m => (m =? n)%N
                            | None => false
                            end)) in Hn; [|vm_compute; reflexivity].
  destruct (Reference.sextet (base64_char n)); [|discriminate].
  now apply N.eqb_eq in Hn as ->.
Qed.

Lemma base64_char_plain (n : N) :
  (n < 64)%N ->
  Reference.is_ascii_whitespace (base64_char n) = false /\
  Reference.is_pad (base64_char n) = false.
Proof.
  intros Hn.
  apply (below_64 (fun n => negb (Reference.is_ascii_whitespace (base64_char n))
                            && negb (Reference.is_pad (base64_char n)))) in Hn;
    [|vm_compute; reflexivity].
  apply andb_prop in Hn as [Hws Hpad]. now apply negb_true_iff in Hws, Hpad.
Qed.

Lemma base64_char_not_pad (n : N) : Ascii.eqb (base64_char n) "=" = false.
Proof.
  unfold base64_char.
  repeat match goal with
         | |- context [if ?b then _ else _] => destruct b eqn:?
         end;
    repeat match goal with
           | Hlt : (_ <? _)%N = true |- _ => apply N.ltb_lt in Hlt
           | Hlt : (_ <? _)%N = false |- _ => apply N.ltb_ge in Hlt
           | Heq : (_ =? _)%N = true |- _ => apply N.eqb_eq in Heq
           end;
    apply Ascii.eqb_neq; intros Heq; apply (f_equal N_of_ascii) in Heq;
    rewrite N_ascii_embedding in Heq by lia; cbn in Heq; lia.
Qed.

Lemma base64url_char_safe (n : N) :
  (n < 64)%N -> is_base64url (base64url_char n) = true.
Proof. apply (below_64 (fun n => is_base64url (base64url_char n))). vm_compute. reflexivity. Qed.

(** Mapping [-] and [_] back gives the character of [btoa]. *)
Lemma base64url_char_back (n : N) :
  (n < 64)%N ->
  (let c := base64url_char n in
   let c1 := if Ascii.eqb c "-" then "+"%char else c in
   if Ascii.eqb c1 "_" then "/"%char else c1) = base64_char n.
Proof.
  intros Hn.
  apply (below_64 (fun n => Ascii.eqb
                              (let c := base64url_char n in
                               let c1 := if Ascii.eqb c "-" then "+"%char else c in
                               if Ascii.eqb c1 "_" then "/"%char else c1)
                              (base64_char n))) in Hn; [|vm_compute; reflexivity].
  now apply Ascii.eqb_eq in Hn.
Qed.

(** *** base64UrlEncode *)

Lemma strip_trailing_cons (a c : ascii) (s : string) :
  Ascii.eqb c a = false -> strip_trailing a (String c s) = String c (strip_trailing a s).
Proof. intros Hc. cbn [strip_trailing]. rewrite Hc. now destruct (strip_trailing a s). Qed.

Lemma base64url_char_not_pad (n : N) : Ascii.eqb (base64url_char n) "=" = false.
Proof.
  unfold base64url_char. pose proof (base64_char_not_pad n).
  destruct (Ascii.eqb (base64_char n) "+"); [reflexivity|].
  now destruct (Ascii.eqb (base64_char n) "/").
Qed.

(** The two replacements of [base64UrlEncode], on one character. *)
Lemma base64url_char_replaced (n : N) :
  (let c1 := if Ascii.eqb (base64_char n) "+" then "-"%char else base64_char n in
   if Ascii.eqb c1 "/" then "_"%char else c1) = base64url_char n.
Proof.
  unfold base64url_char. destruct (Ascii.eqb (base64_char n) "+"); [reflexivity|].
  cbv zeta. now destruct (Ascii.eqb (base64_char n) "/").
Qed.

Lemma list_ascii_of_string_of_list_byte (buffer : list Byte.byte) :
  map N_of_ascii (list_ascii_of_string (string_of_list_byte buffer)) = map byte_to_N buffer.
Proof.
  unfold string_of_list_byte. rewrite list_ascii_of_string_of_list_ascii.
  now rewrite List.map_map.
Qed.

(** [base64UrlEncode] writes the six-bit values of its input in the base64url
    alphabet, and nothing else. *)
Lemma base64UrlEncode_sextets (buffer : list Byte.byte) :
  base64UrlEncode buffer
  = string_of_list_ascii (map base64url_char (sextets_of (map byte_to_N buffer))).
Proof.
  unfold base64UrlEncode, btoa, String_fromCharCode.
  rewrite list_ascii_of_string_of_list_byte.
  generalize (map byte_to_N buffer) as l. intros l.
  induction l as [| a | a b | a b c l IH] using list_ind3;
    cbn [base64_encode sextets_of map string_of_list_ascii replace_all].
  - reflexivity.
  - change (Ascii.eqb "=" "+") with false. change (Ascii.eqb "=" "/") with false. cbv iota.
    rewrite !base64url_char_replaced.
    rewrite !strip_trailing_cons by apply base64url_char_not_pad. reflexivity.
  - change (Ascii.eqb "=" "+") with false. change (Ascii.eqb "=" "/") with false. cbv iota.
    rewrite !base64url_char_replaced.
    rewrite !strip_trailing_cons by apply base64url_char_not_pad. reflexivity.
  - rewrite !base64url_char_replaced.
    rewrite !strip_trailing_cons by apply base64url_char_not_pad. now rewrite IH.
Qed.

Lemma length_string_of_list_ascii (l : list ascii) :
  String.length (string_of_list_ascii l) = length l.
Proof. induction l as [|c l IH]; [reflexivity|]. cbn. now rewrite IH. Qed.

Lemma bytes_bounded (buffer : list Byte.byte) :
  Forall (fun n => (n < 256)%N) (map byte_to_N buffer).
Proof. apply Forall_map, Forall_forall. intros b _. apply byte_to_N_bounded. Qed.

Lemma base64UrlEncode_alphabet (buffer : list Byte.byte) :
  Forall (fun c => is_base64url c = true) (list_ascii_of_string (base64UrlEncode buffer)).
Proof.
  rewrite base64UrlEncode_sextets, list_ascii_of_string_of_list_ascii. apply Forall_map.
  eapply Forall_impl; [apply sextets_of_bounded, bytes_bounded|].
  intros n Hn. now apply base64url_char_safe.
Qed.

Lemma base64UrlEncode_length (buffer : list Byte.byte) :
  String.length (base64UrlEncode buffer) = ((4 * length buffer + 2) / 3)%nat.
Proof.
  rewrite base64UrlEncode_sextets.
  now rewrite length_string_of_list_ascii, length_map, sextets_of_length, length_map.
Qed.

(** X15. [base64UrlEncode] is URL-safe and unpadded: its output consists of
    letters, digits, [-] and [_] only, and has [ceil(4n/3)] characters for
    [n] bytes. *)
Theorem base64UrlEncode_url_safe (buffer : list Byte.byte) :
  Forall (fun c => is_base64url c = true) (list_ascii_of_string (base64UrlEncode buffer)) /\
  String.length (base64UrlEncode buffer) = ((4 * length buffer + 2) / 3)%nat.
Proof. split; [apply base64UrlEncode_alphabet | apply base64UrlEncode_length]. Qed.

(** *** The way back: the first lines of [parseJwt] *)

Lemma replace_back (ns : list N) :
  Forall (fun n => (n < 64)%N) ns ->
  replace_all "_" "/" (replace_all "-" "+" (string_of_list_ascii (map base64url_char ns)))
  = string_of_list_ascii (map base64_char ns).
Proof.
  induction 1 as [|n ns Hn _ IH]; [reflexivity|].
  cbn [map string_of_list_ascii replace_all]. rewrite IH. f_equal.
  exact (base64url_char_back n Hn).
Qed.

Lemma sextets_base64_chars (ns : list N) :
  Forall (fun n => (n < 64)%N) ns -> Reference.sextets (map base64_char ns) = Some ns.
Proof.
  induction 1 as [|n ns Hn _ IH]; [reflexivity|].
  cbn [map Reference.sextets]. now rewrite base64_char_sextet, IH.
Qed.

Lemma strip_padding_rev_plain (r : list ascii) :
  Forall (fun c => Reference.is_pad c = false) r -> Reference.strip_padding_rev r = r.
Proof.
  intros Hr. destruct r as [|p1 [|p2 rest]]; try reflexivity.
  apply Forall_cons in Hr as [Hp1 _]. cbn. now rewrite Hp1.
Qed.

(** [atob] reads unpadded base64 of any length that base64 can have. *)
Lemma base64_decode_chars (ns : list N) :
  Forall (fun n => (n < 64)%N) ns -> (length ns mod 4 <> 1)%nat ->
  Reference.base64_decode (string_of_list_ascii (map base64_char ns))
  = Some (string_of_list_ascii (map ascii_of_N (Reference.decode_sextets ns))).
Proof.
  intros Hns Hlen. unfold Reference.base64_decode.
  rewrite list_ascii_of_string_of_list_ascii.
  assert (filter (fun c => negb (Reference.is_ascii_whitespace c)) (map base64_char ns)
          = map base64_char ns) as ->.
  { clear Hlen. induction Hns as [|n ns Hn _ IH]; [reflexivity|].
    cbn [map]. rewrite filter_cons_True; [now rewrite IH|].
    destruct (base64_char_plain n Hn) as [-> _]. exact I. }
  assert (rev (Reference.strip_padding_rev (rev (map base64_char ns))) = map base64_char ns)
    as Hstrip.
  { rewrite strip_padding_rev_plain; [apply rev_involutive|].
    apply Forall_rev, Forall_map. eapply Forall_impl; [exact Hns|].
    intros n Hn. now destruct (base64_char_plain n Hn). }
  rewrite Hstrip.
  assert ((if (length (map base64_char ns) mod 4 =? 0)%nat
           then map base64_char ns else map base64_char ns) = map base64_char ns) as ->
    by now destruct (_ =? _)%nat.
  rewrite length_map.
  destruct (Nat.eqb_spec (length ns mod 4) 1) as [Hone|_]; [contradiction|].
  now rewrite sextets_base64_chars.
Qed.

Lemma atob_base64UrlEncode (buffer : list Byte.byte) :
  Reference.base64_decode (replace_all "_" "/" (replace_all "-" "+" (base64UrlEncode buffer)))
  = Some (String_fromCharCode buffer).
Proof.
  rewrite base64UrlEncode_sextets.
  pose proof (sextets_of_bounded _ (bytes_bounded buffer)) as Hns.
  rewrite replace_back by assumption.
  rewrite base64_decode_chars by (auto using sextets_of_length_mod4).
  rewrite decode_sextets_of by apply bytes_bounded.
  unfold String_fromCharCode, string_of_list_byte, byte_to_N.
  rewrite List.map_map. do 2 f_equal. apply map_ext. intros b. apply ascii_N_embedding.
Qed.

(** X16. The decoding that [parseJwt] starts with undoes [base64UrlEncode]:
    mapping [-] and [_] back and applying [atob] returns the bytes that were
    encoded, whatever their number. *)
Theorem base64UrlEncode_decodes (buffer : list Byte.byte) :
  atob (Platform := reference_platform)
    (replace_all "_" "/" (replace_all "-" "+" (base64UrlEncode buffer)))
  = Some (String_fromCharCode buffer).
Proof. exact (atob_base64UrlEncode buffer). Qed.

(** *** Percent escapes *)

Lemma hex_value_hex_digit (n : N) :
  (n < 16)%N -> Reference.hex_value (hex_digit n) = Some n.
Proof.
  intros Hn.
  apply (below_16 (fun n => match Reference.hex_value (hex_digit n) with
                            | Some m => (m =? n)%N
                            | None => false
                            end)) in Hn; [|vm_compute; reflexivity].
  destruct (Reference.hex_value (hex_digit n)); [|discriminate].
  now apply N.eqb_eq in Hn as ->.
Qed.

(** Escaping every byte, as [parseJwt] does, and reading the escapes gives
    the bytes back. *)
Lemma percent_decode_encode_all (s : string) :
  Reference.percent_decode (percent_encode_all s)
  = Some (map N_of_ascii (list_ascii_of_string s)).
Proof.
  induction s as [|c s IH]; [reflexivity|].
  cbn [percent_encode_all list_ascii_of_string map]. unfold percent_hex.
  change (String "%" (String ?h1 (String ?h2 EmptyString)) +:+ ?t)
    with (String "%" (String h1 (String h2 t))).
  cbn [Reference.percent_decode].
  change (N_of_ascii "%" =? 37)%N with true. cbv iota zeta.
  pose proof (N_ascii_bounded c) as Hc.
  rewrite !hex_value_hex_digit by div_lia. rewrite IH. do 2 f_equal. div_lia.
Qed.

Lemma string_of_bytes_of_string (s : string) :
  string_of_list_ascii (map ascii_of_N (map N_of_ascii (list_ascii_of_string s))) = s.
Proof.
  rewrite List.map_map. rewrite (map_ext _ id) by (intros c; apply ascii_N_embedding).
  rewrite map_id. apply string_of_list_ascii_of_string.
Qed.

(** [decodeURIComponent] gives the text back when its bytes are well-formed
    UTF-8, and throws otherwise. *)
Lemma uri_decode_encode_all (s : string) :
  Reference.uri_decode (percent_encode_all s)
  = if Reference.utf8_valid (map N_of_ascii (list_ascii_of_string s)) then Some s else None.
Proof.
  unfold Reference.uri_decode. rewrite percent_decode_encode_all.
  destruct (Reference.utf8_valid _); [|reflexivity]. now rewrite string_of_bytes_of_string.
Qed.

Lemma has_char_base64UrlEncode (buffer : list Byte.byte) :
  has_char "." (base64UrlEncode buffer) = false.
Proof.
  pose proof (base64UrlEncode_alphabet buffer) as Hsafe.
  induction (base64UrlEncode buffer) as [|c s IH]; [reflexivity|].
  cbn [list_ascii_of_string] in Hsafe. apply Forall_cons in Hsafe as [Hc Hs].
  cbn [has_char]. rewrite (IH Hs), orb_false_r.
  apply Ascii.eqb_neq. intros ->. discriminate Hc.
Qed.

(** X17. [parseJwt] decodes the payload segment as base64url, then UTF-8,
    then JSON, whatever the header and the signature are.  Where [atob] is
    forgiving base64 decoding and [decodeURIComponent] reads percent escapes
    as UTF-8, for a token whose second segment is the base64url encoding of
    [payload], it throws a [URIError] when [payload] is not well-formed
    UTF-8, a [SyntaxError] when [JSON.parse] rejects [payload], and otherwise
    returns what [JSON.parse] makes of [payload], object or not. *)
Theorem parseJwt_decodes_payload `{Platform} (header payload signature : string) :
  (forall s, atob s = Reference.base64_decode s) ->
  (forall s, decodeURIComponent s = Reference.uri_decode s) ->
  has_char "." header = false ->
  parseJwt
    (header +:+ "." +:+ base64UrlEncode (TextEncoder_encode payload) +:+ "." +:+ signature)
  = if Reference.utf8_valid (map N_of_ascii (list_ascii_of_string payload)) then
      match JSON_parse payload with
      | None => Throw "SyntaxError"
      | Some claims => Normal claims
      end
    else Throw "URIError".
Proof.
  intros Hatob Hdecode Hheader. unfold parseJwt.
  change (header +:+ "." +:+ ?p +:+ "." +:+ signature)
    with (header +:+ String "." (p +:+ String "." signature)).
  destruct (split_on_second header
              (base64UrlEncode (TextEncoder_encode payload)) Hheader
              (has_char_base64UrlEncode _)) as [_ ->].
  pose proof (atob_base64UrlEncode (TextEncoder_encode payload)) as Hbytes.
  cbn [atob reference_platform] in Hbytes. rewrite Hatob, Hbytes.
  unfold String_fromCharCode, TextEncoder_encode.
  rewrite string_of_list_byte_of_string, Hdecode, uri_decode_encode_all.
  destruct (Reference.utf8_valid _); reflexivity.
Qed.

(** * Signing in and out *)

Lemma digest_length (data : list Byte.byte) : length (SHA256.digest data) = 32%nat.
Proof.
  unfold SHA256.digest. rewrite length_map.
  generalize (SHA256.blocks (length (SHA256.words (SHA256.pad (map byte_to_N data))))
                (SHA256.words (SHA256.pad (map byte_to_N data))) SHA256.initial).
  intros s. reflexivity.
Qed.

(** The form serialiser and [encodeURIComponent] leave base64url text as it
    is. *)
Lemma urlencoded_base64url (s : string) :
  Forall (fun c => is_base64url c = true) (list_ascii_of_string s) ->
  urlencoded s = s /\ encodeURIComponent s = s.
Proof.
  induction s as [|c s IH]; [split; reflexivity|].
  cbn [list_ascii_of_string]. intros [Hc Hs]%Forall_cons.
  destruct (IH Hs) as [IHu IHe]. cbn [urlencoded encodeURIComponent]. rewrite IHu, IHe.
  unfold is_base64url in Hc. unfold uri_unreserved.
  destruct (is_alphanumeric c) eqn:Halnum.
  - assert ((N_of_ascii c =? 32)%N = false) as ->; [|split; reflexivity].
    unfold is_alphanumeric in Halnum. apply N.eqb_neq. intros Heq. rewrite Heq in Halnum.
    discriminate Halnum.
  - cbn [orb] in Hc. apply orb_prop in Hc as [Hc | Hc]; apply N.eqb_eq in Hc; rewrite Hc;
      split; reflexivity.
Qed.

Lemma generateRandomString_32 (crypto : Crypto) :
  generateRandomString 32 crypto
  = (Normal (base64UrlEncode (map (random_byte crypto) (seq (consumed crypto) 32))),
     mkCrypto (random_byte crypto) (consumed crypto + 32)).
Proof. reflexivity. Qed.

Lemma base64UrlEncode_32 (buffer : list Byte.byte) :
  length buffer = 32%nat ->
  String.length (base64UrlEncode buffer) = 43%nat /\ base64UrlEncode buffer <> "" /\
  urlencoded (base64UrlEncode buffer) = base64UrlEncode buffer.
Proof.
  intros Hlen. pose proof (base64UrlEncode_alphabet buffer) as Hsafe.
  pose proof (base64UrlEncode_length buffer) as Hlength.
  rewrite Hlen in Hlength. change ((4 * 32 + 2) / 3)%nat with 43%nat in Hlength.
  repeat split; [assumption | | now apply urlencoded_base64url].
  intros Hempty. rewrite Hempty in Hlength. discriminate Hlength.
Qed.

Lemma HEX_digit_alphanumeric (n : N) : (n < 16)%N -> is_alphanumeric (HEX_digit n) = true.
Proof. apply (below_16 (fun n => is_alphanumeric (HEX_digit n))). vm_compute. reflexivity. Qed.

Lemma has_char_percent_HEX (x c : ascii) (s : string) :
  is_alphanumeric x = false -> x <> "%"%char ->
  has_char x (percent_HEX c +:+ s) = has_char x s.
Proof.
  intros Hx Hpercent. unfold percent_HEX.
  change (String "%" (String ?h1 (String ?h2 EmptyString)) +:+ s)
    with (String "%" (String h1 (String h2 s))).
  cbn [has_char]. pose proof (N_ascii_bounded c) as Hc.
  assert (forall n, (n < 16)%N -> Ascii.eqb (HEX_digit n) x = false) as Hdigit.
  { intros n Hn. apply Ascii.eqb_neq. intros <-.
    rewrite HEX_digit_alphanumeric in Hx by assumption. discriminate Hx. }
  rewrite !Hdigit by div_lia.
  assert (Ascii.eqb "%" x = false) as -> by (apply Ascii.eqb_neq; congruence).
  reflexivity.
Qed.

(** A character that is neither a letter nor a digit and that the form
    serialiser does not write is not part of what it writes. *)
Lemma has_char_urlencoded (x : ascii) (s : string) :
  is_alphanumeric x = false ->
  ~ In x ["*"; "-"; "."; "_"; "+"; "%"]%char ->
  has_char x (urlencoded s) = false.
Proof.
  intros Hx Hnot. induction s as [|c s IH]; [reflexivity|]. cbn [urlencoded].
  destruct (N_of_ascii c =? 32)%N.
  - cbn [has_char]. rewrite IH, orb_false_r. apply Ascii.eqb_neq. intros <-.
    apply Hnot. cbn. tauto.
  - destruct (is_alphanumeric c || _) eqn:Hkept.
    + cbn [has_char]. rewrite IH, orb_false_r. apply Ascii.eqb_neq. intros <-.
      rewrite Hx in Hkept. cbn [orb] in Hkept.
      apply Hnot. rewrite <- (ascii_N_embedding c).
      repeat (apply orb_prop in Hkept as [Hkept | Hkept]);
        apply N.eqb_eq in Hkept; rewrite Hkept; cbn; tauto.
    + rewrite has_char_percent_HEX; [exact IH | assumption |].
      intros ->. apply Hnot. cbn. tauto.
Qed.

(** The same for [encodeURIComponent]. *)
Lemma has_char_encodeURIComponent (x : ascii) (s : string) :
  uri_unreserved x = false -> x <> "%"%char ->
  has_char x (encodeURIComponent s) = false.
Proof.
  intros Hx Hpercent. induction s as [|c s IH]; [reflexivity|]. cbn [encodeURIComponent].
  destruct (uri_unreserved c) eqn:Hkept.
  - cbn [has_char]. rewrite IH, orb_false_r. apply Ascii.eqb_neq. intros <-. congruence.
  - rewrite has_char_percent_HEX; [exact IH | | assumption].
    unfold uri_unreserved in Hx. now apply orb_false_iff in Hx as [Hx _].
Qed.

Lemma URLSearchParams_toString_append (q : list (string * string)) (k v : string) :
  q <> [] ->
  URLSearchParams_toString (q ++ [(k, v)])
  = URLSearchParams_toString q +:+ "&" +:+ urlencoded k +:+ "=" +:+ urlencoded v.
Proof.
  induction q as [|[k1 v1] q IH]; [congruence|]. intros _.
  destruct q as [|kv q]; [reflexivity|].
  change (((k1, v1) :: kv :: q) ++ [(k, v)])%list
    with ((k1, v1) :: (kv :: q) ++ [(k, v)])%list.
  cbn [URLSearchParams_toString] in *.
  destruct ((kv :: q) ++ [(k, v)])%list eqn:Happ; [discriminate Happ|].
  rewrite IH by discriminate. now rewrite !ReferenceFacts.append_assoc.
Qed.

Section SigningIn.
Context `{Platform}.

(** What [signInWithLang] returns and leaves behind. *)
Lemma signInWithLang_result (lang : option string) (crypto : Crypto) (w : World) :
  let codeVerifier := base64UrlEncode (map (random_byte crypto) (seq (consumed crypto) 32)) in
  let state := base64UrlEncode (map (random_byte crypto) (seq (consumed crypto + 32) 32)) in
  let codeChallenge := base64UrlEncode (SHA256.digest (TextEncoder_encode codeVerifier)) in
  signInWithLang lang crypto w
  = (Normal ("https://" +:+ VITE_COGNITO_DOMAIN +:+ "/oauth2/authorize?"
             +:+ URLSearchParams_toString (authorize_params lang state codeChallenge)),
     mkCrypto (random_byte crypto) (consumed crypto + 32 + 32),
     with_sessionStorage (setItem STORAGE_KEY_STATE state)
       (with_sessionStorage (setItem STORAGE_KEY_VERIFIER codeVerifier) w)).
Proof.
  intros codeVerifier state codeChallenge.
  unfold signInWithLang. rewrite generateRandomString_32.
  unfold signInWithLang_challenged. rewrite generateRandomString_32.
  cbn [random_byte consumed]. reflexivity.
Qed.

Lemma drawn_32 (crypto : Crypto) (n : nat) :
  length (map (random_byte crypto) (seq n 32)) = 32%nat.
Proof. now rewrite length_map, length_seq. Qed.

(** X18. [signInWithLang] starts a PKCE session.  It draws 32 random bytes
    for the verifier and 32 further ones for the state, stores both under
    their keys of the ephemeral store and touches nothing else, and sends
    the window to the hosted UI with that state and the S256 challenge of
    that verifier.  Verifier, state and challenge are 43 characters of the
    base64url alphabet each, so they travel in the URL as they are; and from
    then on [validateState] accepts that state and no other. *)
Theorem signInWithLang_starts_pkce_session (lang : option string) (crypto : Crypto) (w : World) :
  let codeVerifier := base64UrlEncode (map (random_byte crypto) (seq (consumed crypto) 32)) in
  let state := base64UrlEncode (map (random_byte crypto) (seq (consumed crypto + 32) 32)) in
  let codeChallenge := base64UrlEncode (SHA256.digest (TextEncoder_encode codeVerifier)) in
  exists crypto' w',
    signInWithLang lang crypto w
    = (Normal ("https://" +:+ VITE_COGNITO_DOMAIN +:+ "/oauth2/authorize?"
               +:+ URLSearchParams_toString (authorize_params lang state codeChallenge)),
       crypto', w') /\
    consumed crypto' = (consumed crypto + 64)%nat /\
    getItem STORAGE_KEY_VERIFIER (sessionStorage w') = Some codeVerifier /\
    getItem STORAGE_KEY_STATE (sessionStorage w') = Some state /\
    (forall k, k <> STORAGE_KEY_VERIFIER -> k <> STORAGE_KEY_STATE ->
       getItem k (sessionStorage w') = getItem k (sessionStorage w)) /\
    localStorage w' = localStorage w /\ location w' = location w /\
    requests w' = requests w /\ user w' = user w /\ userStatus w' = userStatus w /\
    String.length codeVerifier = 43%nat /\ String.length state = 43%nat /\
    String.length codeChallenge = 43%nat /\
    urlencoded state = state /\ urlencoded codeChallenge = codeChallenge /\
    (forall returnedState, validateState returnedState w' = true <-> returnedState = state).
Proof.
  intros codeVerifier state codeChallenge.
  destruct (base64UrlEncode_32 _ (drawn_32 crypto (consumed crypto))) as (Hv & _ & _).
  destruct (base64UrlEncode_32 _ (drawn_32 crypto (consumed crypto + 32)%nat))
    as (Hs & _ & Hsu).
  destruct (base64UrlEncode_32 _ (digest_length (TextEncoder_encode codeVerifier)))
    as (Hc & _ & Hcu).
  eexists _, _. split; [apply signInWithLang_result|].
  fold codeVerifier state codeChallenge in Hv, Hs, Hc, Hsu, Hcu |- *.
  clearbody codeVerifier state codeChallenge.
  cbn [consumed sessionStorage localStorage location requests user userStatus
       with_sessionStorage].
  unfold getItem, setItem.
  repeat split; try assumption; try lia.
  - rewrite lookup_insert_ne by discriminate. apply lookup_insert_eq.
  - apply lookup_insert_eq.
  - intros k Hk1 Hk2. now rewrite !lookup_insert_ne.
  - intros Hvalid. apply validateState_true in Hvalid.
    cbn [sessionStorage with_sessionStorage] in Hvalid.
    unfold getItem, setItem in Hvalid. rewrite lookup_insert_eq in Hvalid. congruence.
  - intros ->. apply validateState_true. cbn [sessionStorage with_sessionStorage].
    unfold getItem, setItem. apply lookup_insert_eq.
Qed.

(** X19. The verifier stored by [signInWithLang] is the one the exchange is
    made with.  When the provider redirects back to the page with a code and
    the state that was sent, and no TokenSet is cached and no exchange is
    running, [handleAuth] calls the token endpoint with that code and with
    the verifier whose challenge went out in the sign-in URL; when any other
    state comes back it finishes without a request. *)
Theorem callback_after_sign_in_sends_the_verifier
    (lang : option string) (crypto crypto' : Crypto) (w w' page : World) (url : string)
    (tid : nat) (now : Z) (returnedCode returnedState : string) :
  signInWithLang lang crypto w = (Normal url, crypto', w') ->
  sessionStorage page = sessionStorage w' ->
  searchParams_get "code" (query (location page)) = Some returnedCode ->
  returnedCode <> "" ->
  searchParams_get "state" (query (location page)) = Some returnedState ->
  returnedState <> "" ->
  (exists existing, stored_tokens page = Normal existing /\ unexpired now existing = None) ->
  isExchangeInProgress page = false ->
  let codeVerifier := base64UrlEncode (map (random_byte crypto) (seq (consumed crypto) 32)) in
  let sentState := base64UrlEncode (map (random_byte crypto) (seq (consumed crypto + 32) 32)) in
  (returnedState = sentState ->
   exists w'',
     handleAuth_begin tid now page = (AwaitTokenFetch, w'') /\
     requests w''
     = (tid, TokenRequest ("https://" +:+ VITE_COGNITO_DOMAIN +:+ "/oauth2/token")
               [("grant_type", "authorization_code");
                ("client_id", VITE_COGNITO_USER_POOL_CLIENT_ID);
                ("code", returnedCode);
                ("redirect_uri", VITE_REDIRECT_SIGN_IN);
                ("code_verifier", codeVerifier)]) :: requests page) /\
  (returnedState <> sentState ->
   fst (handleAuth_begin tid now page) = Finished /\
   requests (snd (handleAuth_begin tid now page)) = requests page).
Proof.
  intros Hsign Hsession Hcode Hcode' Hstate Hstate' (existing & Hstored & Hnone) Hlock
    codeVerifier sentState.
  pose proof (signInWithLang_result lang crypto w) as Hsign0. cbv zeta in Hsign0.
  fold codeVerifier sentState in Hsign0.
  destruct (base64UrlEncode_32 _ (drawn_32 crypto (consumed crypto))) as (_ & Hvne & _).
  fold codeVerifier in Hvne.
  clearbody codeVerifier sentState.
  rewrite Hsign in Hsign0. injection Hsign0 as _ _ ->.
  assert (getItem STORAGE_KEY_VERIFIER
            (sessionStorage
               (with_sessionStorage (setItem STORAGE_KEY_STATE sentState)
                  (with_sessionStorage (setItem STORAGE_KEY_VERIFIER codeVerifier) w)))
          = Some codeVerifier) as Hv.
  { cbn [sessionStorage with_sessionStorage]. unfold getItem, setItem.
    rewrite lookup_insert_ne by discriminate. apply lookup_insert_eq. }
  assert (getItem STORAGE_KEY_STATE
            (sessionStorage
               (with_sessionStorage (setItem STORAGE_KEY_STATE sentState)
                  (with_sessionStorage (setItem STORAGE_KEY_VERIFIER codeVerifier) w)))
          = Some sentState) as Hs.
  { cbn [sessionStorage with_sessionStorage]. unfold getItem, setItem.
    apply lookup_insert_eq. }
  assert (truthy (searchParams_get "code" (query (location page))) = Some returnedCode) as Htc
    by now apply truthy_Some.
  assert (truthy (searchParams_get "state" (query (location page))) = Some returnedState)
    as Hts by now apply truthy_Some.
  destruct (getAuthorizationCode page) as [r w1] eqn:Hget.
  pose proof Hget as Hframe.
  apply getAuthorizationCode_frame in Hframe as (Hss & Hls & _ & _ & _ & _ & Hreq & _).
  assert (r = Normal (Some (mkAuthCode returnedCode returnedState))) as ->.
  { unfold getAuthorizationCode in Hget. rewrite Htc, Hts in Hget. now injection Hget as <- _. }
  assert (getItem STORAGE_KEY_STATE (sessionStorage w1) = Some sentState) as Hstate1.
  { rewrite Hss by discriminate. now rewrite Hsession. }
  unfold handleAuth_begin. rewrite Hget. cbn [state code].
  split.
  - intros ->.
    assert (validateState sentState w1 = true) as -> by now apply validateState_true.
    cbn [negb]. rewrite (stored_tokens_localStorage w1 page Hls), Hstored, Hnone.
    assert (isExchangeInProgress w1 = false) as ->.
    { rewrite <- Hlock. apply isExchangeInProgress_frame. now apply Hss. }
    unfold exchangeCodeForTokens_call, markExchangeInProgress.
    cbn [sessionStorage with_sessionStorage]. unfold getItem at 1, setItem.
    rewrite lookup_insert_ne by discriminate.
    change (sessionStorage w1 !! STORAGE_KEY_VERIFIER)
      with (getItem STORAGE_KEY_VERIFIER (sessionStorage w1)).
    rewrite Hss by discriminate. rewrite Hsession, Hv.
    assert (truthy (Some codeVerifier) = Some codeVerifier) as -> by now apply truthy_Some.
    eexists. split; [reflexivity|]. cbn [requests fetch with_sessionStorage].
    now rewrite Hreq.
  - intros Hne.
    assert (validateState returnedState w1 = false) as ->.
    { apply validateState_false. rewrite Hstate1. congruence. }
    cbn. now rewrite Hreq.
Qed.

(** X20. The language is appended to the sign-in URL, and only appended.
    Without a language, or with an empty one, the request has seven
    parameters and no [lang]; with one, the URL is the same URL followed by
    [&lang=] and the form-encoded language, in which no [&], [=] or [#]
    occurs: the language cannot add or change another parameter. *)
Theorem lang_parameter_is_appended_and_escaped (state codeChallenge : string) :
  (forall lang, truthy lang = None ->
     authorize_params lang state codeChallenge = authorize_params None state codeChallenge) /\
  searchParams_get "lang" (authorize_params None state codeChallenge) = None /\
  (forall lang, lang <> "" ->
     authorize_params (Some lang) state codeChallenge
     = (authorize_params None state codeChallenge ++ [("lang", lang)])%list /\
     URLSearchParams_toString (authorize_params (Some lang) state codeChallenge)
     = URLSearchParams_toString (authorize_params None state codeChallenge)
         +:+ "&lang=" +:+ urlencoded lang /\
     has_char "&" (urlencoded lang) = false /\
     has_char "=" (urlencoded lang) = false /\
     has_char "#" (urlencoded lang) = false).
Proof.
  split; [|split].
  - intros lang Hlang. unfold authorize_params. now rewrite Hlang.
  - reflexivity.
  - intros lang Hlang.
    assert (authorize_params (Some lang) state codeChallenge
            = (authorize_params None state codeChallenge ++ [("lang", lang)])%list) as Happ.
    { unfold authorize_params.
      assert (truthy (Some lang) = Some lang) as -> by now apply truthy_Some.
      reflexivity. }
    split; [exact Happ|]. split.
    + rewrite Happ, URLSearchParams_toString_append by discriminate. reflexivity.
    + repeat split; apply has_char_urlencoded; try reflexivity;
        cbn; intros Hin; repeat destruct Hin as [Hin | Hin]; try discriminate Hin;
        contradiction.
Qed.

End SigningIn.

Section SigningOut.
Context `{Platform} `{SignOutConfiguration}.

(** X21. [handleSignOut] forgets the tokens and nothing else.  It empties the
    token cache, publishes no user and status [Loading], and sends the
    window to the logout endpoint with the logout URI escaped so that no [&],
    [#] or [/] is left in it; the ephemeral store, the other entries of the
    persistent store and the loading flag are as before, and no request is
    made.  Afterwards a retry does nothing, and a page load without a
    callback finishes with nobody signed in. *)
Theorem handleSignOut_forgets_the_tokens (w : World) :
  exists w',
    handleSignOut w
    = ("https://" +:+ VITE_COGNITO_DOMAIN +:+ "/logout?client_id="
         +:+ VITE_COGNITO_USER_POOL_CLIENT_ID +:+ "&logout_uri="
         +:+ encodeURIComponent VITE_REDIRECT_SIGN_OUT, w') /\
    has_char "&" (encodeURIComponent VITE_REDIRECT_SIGN_OUT) = false /\
    has_char "#" (encodeURIComponent VITE_REDIRECT_SIGN_OUT) = false /\
    has_char "/" (encodeURIComponent VITE_REDIRECT_SIGN_OUT) = false /\
    getItem TOKEN_STORAGE_KEY (localStorage w') = None /\
    stored_tokens w' = Normal None /\
    user w' = None /\ userStatus w' = Loading /\ loading w' = loading w /\
    sessionStorage w' = sessionStorage w /\ requests w' = requests w /\
    (forall k, k <> TOKEN_STORAGE_KEY ->
       getItem k (localStorage w') = getItem k (localStorage w)) /\
    (forall tid, handleRetry_begin tid w' = (Finished, w')) /\
    (forall tid now,
       getAuthorizationCode w' = (Normal None, w') ->
       handleAuth_begin tid now w' = (Finished, setLoading false w')).
Proof.
  eexists. split; [reflexivity|].
  assert (getItem TOKEN_STORAGE_KEY
            (localStorage (setUserStatus Loading
               (setUser None (with_localStorage (removeItem TOKEN_STORAGE_KEY) w)))) = None)
    as Hgone by (cbn; unfold getItem, removeItem; apply lookup_delete_eq).
  assert (stored_tokens (setUserStatus Loading
            (setUser None (with_localStorage (removeItem TOKEN_STORAGE_KEY) w))) = Normal None)
    as Hnone by (unfold stored_tokens; now rewrite Hgone).
  do 3 (split; [apply has_char_encodeURIComponent; [reflexivity | discriminate]|]).
  repeat split; try assumption.
  - intros k Hk. cbn. unfold getItem, removeItem. now rewrite lookup_delete_ne.
  - intros tid. now apply handleRetry_begin_empty.
  - intros tid now Hget. unfold handleAuth_begin. rewrite Hget.
    unfold checkStoredTokens. now rewrite Hnone.
Qed.

(** X22. The language preference is kept.  The language the page starts
    with is never empty: it is what was saved, or [en] when nothing or the
    empty string was saved, so that [handleSignIn] always asks the hosted UI
    for a language.  Saving the language does not disturb the token cache,
    and neither a run of the sign-in flow nor signing out changes what was
    saved. *)
Theorem language_preference_is_kept :
  (forall w, initial_language w <> "") /\
  (forall language w, language <> "" ->
     initial_language (persist_language language w) = language) /\
  (forall w, initial_language (persist_language "" w) = "en") /\
  (forall w crypto page,
     exists state codeChallenge crypto' page',
       handleSignIn (initial_language w) crypto page
       = (Normal ("https://" +:+ VITE_COGNITO_DOMAIN +:+ "/oauth2/authorize?"
                  +:+ URLSearchParams_toString
                        (authorize_params (Some (initial_language w)) state codeChallenge)),
          crypto', page') /\
       searchParams_get "lang"
         (authorize_params (Some (initial_language w)) state codeChallenge)
       = Some (initial_language w)) /\
  (forall language w, stored_tokens (persist_language language w) = stored_tokens w) /\
  (forall ls s s', sys_run ls s = Some s' ->
     initial_language (world s') = initial_language (world s)) /\
  (forall w, initial_language (snd (handleSignOut w)) = initial_language w).
Proof.
  assert (forall w, initial_language w <> "") as Hnonempty.
  { intros w. unfold initial_language.
    destruct (truthy _) as [language|] eqn:Hsaved; [|discriminate].
    now apply truthy_Some in Hsaved. }
  split; [exact Hnonempty|]. repeat split.
  - intros language w Hlanguage. unfold initial_language, persist_language. cbn.
    unfold getItem, setItem. rewrite lookup_insert_eq.
    now assert (truthy (Some language) = Some language) as -> by now apply truthy_Some.
  - intros w. unfold initial_language, persist_language. cbn.
    unfold getItem, setItem. now rewrite lookup_insert_eq.
  - intros w crypto page.
    eexists _, _, _, _. split; [apply signInWithLang_result|].
    unfold authorize_params.
    assert (truthy (Some (initial_language w)) = Some (initial_language w)) as ->
      by (apply truthy_Some; auto).
    reflexivity.
  - intros language w. unfold stored_tokens, persist_language. cbn.
    unfold getItem, setItem. now rewrite lookup_insert_ne by discriminate.
  - intros ls s s' Hrun. unfold initial_language.
    now rewrite (sys_run_localStorage ls s s' "app-language" Hrun) by discriminate.
  - intros w. unfold initial_language, handleSignOut. cbn.
    unfold getItem, removeItem. now rewrite lookup_delete_ne by discriminate.
Qed.

End SigningOut.

(** * Concrete runs on the reference platform *)

(** Every conjunct of the goal holds by evaluation. *)
Ltac by_evaluation :=
  repeat match goal with |- _ /\ _ => split end; vm_compute; reflexivity.

Example alice_id_token_decodes :
  getUserInfoFromToken (H := reference_platform) alice_id_token = Normal alice.
Proof. vm_compute. reflexivity. Qed.

Lemma csrf_mismatch_never_calls_token_endpoint_witness :
  token_calls 0 (world (run_or mismatch_system (mkLabel 0 1000 Invoke :: mismatch_schedule)))
  = token_calls 0 (world mismatch_system) /\
  tasks (run_or mismatch_system (mkLabel 0 1000 Invoke :: mismatch_schedule)) !! 0%nat
  = Some Finished.
Proof.
  apply (csrf_mismatch_never_calls_token_endpoint (H := reference_platform)
           mismatch_system _ 0 1000 mismatch_schedule (mkAuthCode "abc" "wrong")
           (snd (getAuthorizationCode (H := reference_platform) mismatch_world))).
  - reflexivity.
  - vm_compute. reflexivity.
  - vm_compute. discriminate.
  - vm_compute. reflexivity.
Defined.

Lemma checkUserStatus_classifies_witness :
  checkUserStatus
    (Some (mkStatusResponse 403 (Some (JObj [("code", JStr "ACCOUNT_DESACTIVATED")]))))
  = Deactivated /\
  checkUserStatus (Some (mkStatusResponse 403 (Some (JObj [("code", JStr "FORBIDDEN")]))))
  = Pending /\
  checkUserStatus (Some (mkStatusResponse 403 None)) = Pending /\
  checkUserStatus (Some (mkStatusResponse 500 None)) = Error.
Proof.
  destruct checkUserStatus_classifies as (_ & Hdeactivated & Hpending & Herror & _).
  split; [|split; [|split]].
  - apply Hdeactivated. eexists. split; reflexivity.
  - apply Hpending. intros (fields & Hbody & Hcode).
    injection Hbody as <-. discriminate Hcode.
  - apply Hpending. intros (fields & Hbody & _). discriminate Hbody.
  - apply Herror; discriminate.
Defined.

(** C3, as stated, fails: state [wrong] comes back while [xyz] is stored.
    The run finishes, but the published status is still [Loading], not
    [Error], and the verifier and state of the PkceSession are still in the
    ephemeral store. *)
Lemma csrf_mismatch_keeps_status_and_session :
  fst (getAuthorizationCode (H := reference_platform) mismatch_world)
  = Normal (Some (mkAuthCode "abc" "wrong")) /\
  validateState "wrong" (snd (getAuthorizationCode (H := reference_platform) mismatch_world))
  = false /\
  fst (handleAuth_begin (H := reference_platform) 0 1000 mismatch_world) = Finished /\
  userStatus (snd (handleAuth_begin (H := reference_platform) 0 1000 mismatch_world))
  = Loading /\
  getItem STORAGE_KEY_VERIFIER
    (sessionStorage (snd (handleAuth_begin (H := reference_platform) 0 1000 mismatch_world)))
  = Some "v" /\
  getItem STORAGE_KEY_STATE
    (sessionStorage (snd (handleAuth_begin (H := reference_platform) 0 1000 mismatch_world)))
  = Some "xyz".
Proof. by_evaluation. Qed.

Lemma csrf_mismatch_clears_callback_only_witness :
  exists w',
    handleAuth_begin (H := reference_platform) 0 1000 mismatch_world = (Finished, w') /\
    loading w' = false /\
    requests w' = requests mismatch_world /\
    getItem STORAGE_KEY_PENDING_CODE (sessionStorage w') = None /\
    getItem STORAGE_KEY_EXCHANGE_IN_PROGRESS (sessionStorage w') = None /\
    getItem STORAGE_KEY_VERIFIER (sessionStorage w')
      = getItem STORAGE_KEY_VERIFIER (sessionStorage mismatch_world) /\
    getItem STORAGE_KEY_STATE (sessionStorage w')
      = getItem STORAGE_KEY_STATE (sessionStorage mismatch_world) /\
    localStorage w' = localStorage mismatch_world.
Proof.
  apply (csrf_mismatch_clears_callback_only (H := reference_platform)
           0 1000 mismatch_world (mkAuthCode "abc" "wrong")
           (snd (getAuthorizationCode (H := reference_platform) mismatch_world))).
  - vm_compute. reflexivity.
  - vm_compute. reflexivity.
Defined.

Lemma poll_loop_bounded_and_fails_closed_witness :
  handleAuth_begin (H := reference_platform) 1 1001
    (world (run_or race_system [mkLabel 0 1000 Invoke]))
  = (AwaitTimer 0,
     setTimeout 1 POLL_INTERVAL_MS
       (snd (getAuthorizationCode (H := reference_platform)
               (world (run_or race_system [mkLabel 0 1000 Invoke]))))) /\
  ((timer_wakes 1 (slow_exchange 50) <= POLL_ITERATIONS)%nat /\
   exists armed,
     timers_of 1 (world (run_or race_system (slow_exchange 50)))
     = (armed ++ timers_of 1 (world race_system))%list /\
     (length armed <= POLL_ITERATIONS)%nat /\
     Forall (fun t => snd t = POLL_INTERVAL_MS) armed) /\
  exists w',
    step (H := reference_platform) 1 6000 TimerFired (AwaitTimer 49)
      (world (run_or race_system (slow_exchange 49)))
    = Some (Finished, w') /\
    userStatus w' = Error /\ loading w' = false /\
    getItem STORAGE_KEY_PENDING_CODE (sessionStorage w') = None /\
    getItem STORAGE_KEY_EXCHANGE_IN_PROGRESS (sessionStorage w') = None /\
    requests w' = requests (world (run_or race_system (slow_exchange 49))).
Proof.
  destruct (poll_loop_bounded_and_fails_closed (H := reference_platform))
    as (Hstart & Hbound & _ & Hfail).
  split; [|split].
  - apply (Hstart 1%nat 1001 _ (mkAuthCode "abc" "xyz")).
    + vm_compute. reflexivity.
    + vm_compute. reflexivity.
    + exists None. split; vm_compute; reflexivity.
    + vm_compute. reflexivity.
  - apply (Hbound (slow_exchange 50) race_system _ 1%nat HandleAuth).
    + vm_compute. reflexivity.
    + reflexivity.
  - apply Hfail.
    + exists None. split; vm_compute; reflexivity.
    + right. vm_compute. lia.
Defined.

(** C5, as stated, fails.  The first mount finds the lock unset, sets it and
    sends its token request, which stays in flight; the second mount polls.
    After 49 wake-ups the lock is still set; the 50th wake-up, a transition
    of the polling mount, removes it, while the owner still waits for its
    response. *)
Lemma poller_removes_lock_of_running_exchange :
  isExchangeInProgress race_world = false /\
  tasks (run_or race_system [mkLabel 0 1000 Invoke]) = [AwaitTokenFetch; HandleAuth] /\
  isExchangeInProgress (world (run_or race_system [mkLabel 0 1000 Invoke])) = true /\
  sys_run (H := reference_platform) (slow_exchange 49) race_system
  = Some (run_or race_system (slow_exchange 49)) /\
  tasks (run_or race_system (slow_exchange 49)) = [AwaitTokenFetch; AwaitTimer 49] /\
  isExchangeInProgress (world (run_or race_system (slow_exchange 49))) = true /\
  sys_step (H := reference_platform) (mkLabel 1 6000 TimerFired)
    (run_or race_system (slow_exchange 49))
  = Some (run_or race_system (slow_exchange 50)) /\
  tasks (run_or race_system (slow_exchange 50)) = [AwaitTokenFetch; Finished] /\
  isExchangeInProgress (world (run_or race_system (slow_exchange 50))) = false.
Proof. by_evaluation. Qed.

Lemma exchange_lock_discipline_witness :
  exchange_concluded (AwaitTimer 49) TimerFired \/
  (exists i stored, AwaitTimer 49 = AwaitTimer i /\
     stored_tokens (H := reference_platform)
       (world (run_or race_system (slow_exchange 49))) = Normal stored /\
     ((exists tokens, unexpired 6000 stored = Some tokens) \/
      (unexpired 6000 stored = None /\ (POLL_ITERATIONS <= S i)%nat))) \/
  (exists authCode w1, AwaitTimer 49 = HandleAuth /\
     getAuthorizationCode (H := reference_platform)
       (world (run_or race_system (slow_exchange 49)))
     = (Normal (Some authCode), w1) /\
     (validateState (state authCode) w1 = false \/
      exists existing tokens, stored_tokens (H := reference_platform) w1 = Normal existing /\
        unexpired 6000 existing = Some tokens)).
Proof.
  apply (exchange_lock_discipline (H := reference_platform) 1 6000 TimerFired
           (AwaitTimer 49) Finished
           (world (run_or race_system (slow_exchange 49)))
           (world (run_or race_system (slow_exchange 50)))).
  - vm_compute. reflexivity.
  - vm_compute. reflexivity.
  - vm_compute. reflexivity.
Defined.

(** C6, as stated, fails: with [code] and [state] both in the URL, the code
    empty, nothing is stored, the URL keeps both parameters, and the answer
    is absent. *)
Lemma empty_code_is_not_resolved :
  searchParams_get "code" (query (location empty_code_world)) = Some "" /\
  searchParams_get "state" (query (location empty_code_world)) = Some "xyz" /\
  getAuthorizationCode (H := reference_platform) empty_code_world
  = (Normal None, empty_code_world).
Proof. by_evaluation. Qed.

Lemma getAuthorizationCode_three_steps_witness :
  exists w1,
    getAuthorizationCode (H := reference_platform) race_world
    = (Normal (Some (mkAuthCode "abc" "xyz")), w1) /\
    getItem STORAGE_KEY_PENDING_CODE (sessionStorage w1)
    = Some (JSON_stringify (Platform := reference_platform)
              (AuthCode_to_js (mkAuthCode "abc" "xyz"))) /\
    searchParams_get "code" (query (location w1)) = None /\
    searchParams_get "state" (query (location w1)) = None /\
    (forall k, k <> "code" -> k <> "state" ->
       searchParams_get k (query (location w1))
       = searchParams_get k (query (location race_world))) /\
    path (location w1) = path (location race_world) /\
    history_back w1 = history_back race_world /\
    getAuthorizationCode (H := reference_platform) w1
    = (Normal (Some (mkAuthCode "abc" "xyz")), w1).
Proof.
  apply (proj1 (@getAuthorizationCode_three_steps reference_platform
                  reference_platform_lawful)
           race_world "abc" "xyz").
  - reflexivity.
  - discriminate.
  - reflexivity.
  - discriminate.
Defined.

Lemma exchangeCodeForTokens_contract_witness :
  exchangeCodeForTokens_call (H := reference_platform) 0 "abc" no_session_world
  = (Throw "No code verifier found", no_session_world).
Proof.
  apply (proj1 (@exchangeCodeForTokens_contract reference_platform
                  reference_platform_lawful)).
  vm_compute. reflexivity.
Defined.

Lemma validateState_without_stored_state_witness :
  validateState "xyz" no_session_world = false /\
  validateState "xyz" (snd (getAuthorizationCode (H := reference_platform) no_session_world))
  = false.
Proof.
  destruct (validateState_without_stored_state (H := reference_platform)) as [Hany Hcallback].
  split.
  - apply Hany. vm_compute. reflexivity.
  - apply (Hcallback no_session_world _ (mkAuthCode "abc" "xyz")).
    + vm_compute. reflexivity.
    + vm_compute. reflexivity.
Defined.

(** C8, as stated, fails.  On the callback path the expired TokenSet is read,
    passed over, and left in persistent storage while the exchange starts;
    and [handleRetry] reads it without looking at [expiresAt] and sends its
    identity token to the backend. *)
Lemma expired_tokens_kept_and_used :
  stored_tokens (H := reference_platform) expired_cache_world
  = Normal (Some (alice_tokens 500)) /\
  fst (handleAuth_begin (H := reference_platform) 0 1000 expired_cache_world)
  = AwaitTokenFetch /\
  localStorage (snd (handleAuth_begin (H := reference_platform) 0 1000 expired_cache_world))
  = cache_of (alice_tokens 500) /\
  stored_tokens (H := reference_platform) expired_reload_world
  = Normal (Some (alice_tokens 500)) /\
  handleRetry_begin (H := reference_platform) 0 expired_reload_world
  = (AwaitStatus FromRetry,
     fetch 0 (StatusRequest "http://localhost:8080/api/dashboard"
                ("Bearer " +:+ alice_id_token))
       (setUserStatus Loading expired_reload_world)).
Proof. by_evaluation. Qed.

Lemma expired_tokens_untrusted_witness :
  checkStoredTokens (H := reference_platform) 0 1000 expired_reload_world
  = (Finished,
     setLoading false (with_localStorage (removeItem TOKEN_STORAGE_KEY) expired_reload_world)) /\
  getItem TOKEN_STORAGE_KEY
    (localStorage (snd (checkStoredTokens (H := reference_platform) 0 1000
                          expired_reload_world)))
  = None /\
  requests (snd (checkStoredTokens (H := reference_platform) 0 1000 expired_reload_world))
  = requests expired_reload_world /\
  user (snd (checkStoredTokens (H := reference_platform) 0 1000 expired_reload_world))
  = user expired_reload_world.
Proof.
  destruct (expired_tokens_untrusted (H := reference_platform)) as (Hstored & _).
  apply (proj2 (Hstored 0%nat 1000 expired_reload_world (alice_tokens 500)
                  ltac:(vm_compute; reflexivity))).
  vm_compute. discriminate.
Defined.



(** ** Further runs *)

Lemma at_most_one_token_exchange_witness :
  exists new,
    requests (world (run_or race_system (slow_exchange 50)))
    = (new ++ requests (world race_system))%list /\
    (length (token_requests new) <= 1)%nat.
Proof.
  apply (at_most_one_token_exchange (H := reference_platform) (slow_exchange 50) race_system).
  vm_compute. reflexivity.
Defined.

Lemma handleAuth_finishes_with_loading_off_witness :
  loading (snd (handleAuth_begin (H := reference_platform) 0 1000 mismatch_world)) = false.
Proof.
  apply (handleAuth_finishes_with_loading_off (H := reference_platform)
           0 1000 Invoke HandleAuth mismatch_world).
  - vm_compute. reflexivity.
  - discriminate.
  - discriminate.
Defined.

Lemma rejection_leaves_page_untouched_witness :
  (HandleAuth = HandleAuth \/ HandleAuth = HandleRetry \/ exists i, HandleAuth = AwaitTimer i) /\
  user (snd (handleAuth_begin (H := reference_platform) 0 1000 garbled_cache_world))
  = user garbled_cache_world /\
  loading (snd (handleAuth_begin (H := reference_platform) 0 1000 garbled_cache_world))
  = loading garbled_cache_world /\
  requests (snd (handleAuth_begin (H := reference_platform) 0 1000 garbled_cache_world))
  = requests garbled_cache_world /\
  console (snd (handleAuth_begin (H := reference_platform) 0 1000 garbled_cache_world))
  = console garbled_cache_world /\
  localStorage (snd (handleAuth_begin (H := reference_platform) 0 1000 garbled_cache_world))
  = localStorage garbled_cache_world /\
  (userStatus (snd (handleAuth_begin (H := reference_platform) 0 1000 garbled_cache_world))
   = userStatus garbled_cache_world \/
   HandleAuth = HandleRetry /\
   userStatus (snd (handleAuth_begin (H := reference_platform) 0 1000 garbled_cache_world))
   = Loading).
Proof.
  apply (rejection_leaves_page_untouched (H := reference_platform)
           0 1000 Invoke HandleAuth garbled_cache_world _
           "TypeError: Cannot read properties of undefined").
  vm_compute. reflexivity.
Defined.

Lemma token_request_only_for_validated_callback_witness :
  exists authCode w1 existing codeVerifier,
    getAuthorizationCode (H := reference_platform) race_world = (Normal (Some authCode), w1) /\
    validateState (state authCode) w1 = true /\
    stored_tokens (H := reference_platform) w1 = Normal existing /\
    unexpired 1000 existing = None /\
    isExchangeInProgress w1 = false /\
    getItem STORAGE_KEY_VERIFIER (sessionStorage race_world) = Some codeVerifier /\
    codeVerifier <> "" /\
    "https://auth.example.com/oauth2/token"
    = "https://" +:+ VITE_COGNITO_DOMAIN (Platform := reference_platform) +:+ "/oauth2/token" /\
    [("grant_type", "authorization_code"); ("client_id", "client-1"); ("code", "abc");
     ("redirect_uri", "https://app.example.com/"); ("code_verifier", "v")]
    = [("grant_type", "authorization_code");
       ("client_id", VITE_COGNITO_USER_POOL_CLIENT_ID (Platform := reference_platform));
       ("code", code authCode);
       ("redirect_uri", VITE_REDIRECT_SIGN_IN (Platform := reference_platform));
       ("code_verifier", codeVerifier)].
Proof.
  apply (token_request_only_for_validated_callback (H := reference_platform)
           0 1000 Invoke HandleAuth AwaitTokenFetch race_world
           (snd (handleAuth_begin (H := reference_platform) 0 1000 race_world))).
  - vm_compute. reflexivity.
  - vm_compute. reflexivity.
Defined.

Lemma status_request_carries_cached_token_witness :
  "http://localhost:8080/api/dashboard" = API_BASE_URL +:+ "/api/dashboard" /\
  (exists k, AwaitStatus FromCachedTokens = AwaitStatus k) /\
  exists tokens,
    stored_tokens (H := reference_platform)
      (snd (handleAuth_begin (H := reference_platform) 0 1000 valid_cache_world))
    = Normal (Some tokens) /\
    "Bearer " +:+ alice_id_token = "Bearer " +:+ idToken tokens.
Proof.
  apply (@status_request_carries_cached_token reference_platform reference_platform_lawful
           0 1000 Invoke HandleAuth (AwaitStatus FromCachedTokens) valid_cache_world
           (snd (handleAuth_begin (H := reference_platform) 0 1000 valid_cache_world))).
  - vm_compute. reflexivity.
  - vm_compute. reflexivity.
Defined.

Lemma handleRetry_only_rechecks_status_witness :
  handleRetry_begin (H := reference_platform) 0 signed_out_world = (Finished, signed_out_world) /\
  sessionStorage (snd (handleRetry_begin (H := reference_platform) 0 expired_reload_world))
  = sessionStorage expired_reload_world /\
  localStorage (snd (handleRetry_begin (H := reference_platform) 0 expired_reload_world))
  = localStorage expired_reload_world /\
  token_requests (requests (snd (handleRetry_begin (H := reference_platform) 0
                                   expired_reload_world)))
  = token_requests (requests expired_reload_world).
Proof.
  destruct (handleRetry_only_rechecks_status (H := reference_platform)) as [Hnothing Hframe].
  split.
  - apply Hnothing. vm_compute. reflexivity.
  - destruct (Hframe 0%nat 0 Invoke HandleRetry (AwaitStatus FromRetry) expired_reload_world
                (snd (handleRetry_begin (H := reference_platform) 0 expired_reload_world))
                ltac:(vm_compute; reflexivity) ltac:(left; reflexivity))
      as (Hss & Hls & _ & _ & _ & _ & Hcalls & _).
    auto.
Defined.

Lemma cached_tokens_lifetime_witness :
  handleAuth_begin (H := reference_platform) 1 4000
    (reload_world (localStorage (snd (handleAuth_tokens (H := reference_platform)
                                        0 2000 alice_response race_world))))
  = (AwaitStatus FromCheckStoredTokens,
     checkUserStatus_call 1 alice_id_token
       (setUser (Some alice)
          (reload_world (localStorage (snd (handleAuth_tokens (H := reference_platform)
                                              0 2000 alice_response race_world)))))) /\
  handleAuth_begin (H := reference_platform) 1 3602000
    (reload_world (localStorage (snd (handleAuth_tokens (H := reference_platform)
                                        0 2000 alice_response race_world))))
  = (Finished,
     setLoading false
       (with_localStorage (removeItem TOKEN_STORAGE_KEY)
          (reload_world (localStorage (snd (handleAuth_tokens (H := reference_platform)
                                              0 2000 alice_response race_world)))))).
Proof.
  split.
  - apply (@cached_tokens_lifetime reference_platform reference_platform_lawful
             0 1 2000 4000 alice_response race_world
             (snd (handleAuth_tokens (H := reference_platform) 0 2000 alice_response race_world))
             _ (fst (handleAuth_tokens (H := reference_platform) 0 2000 alice_response
                       race_world))
             alice);
      vm_compute; reflexivity.
  - apply (@cached_tokens_lifetime reference_platform reference_platform_lawful
             0 1 2000 3602000 alice_response race_world
             (snd (handleAuth_tokens (H := reference_platform) 0 2000 alice_response race_world))
             _ (fst (handleAuth_tokens (H := reference_platform) 0 2000 alice_response
                       race_world))
             alice);
      vm_compute; reflexivity.
Defined.

Lemma poller_adopts_exchanged_tokens_witness :
  step (H := reference_platform) 1 2100 TimerFired (AwaitTimer 10)
    (snd (handleAuth_tokens (H := reference_platform) 0 2000 alice_response race_world))
  = Some (AwaitStatus FromWaitForTokens,
          checkUserStatus_call 1 alice_id_token
            (setUser (Some alice)
               (clearAuthorizationCode
                  (snd (handleAuth_tokens (H := reference_platform) 0 2000 alice_response
                          race_world))))) /\
  fst (handleAuth_tokens (H := reference_platform) 0 2000 alice_response race_world)
  = AwaitStatus FromExchange /\
  user (snd (handleAuth_tokens (H := reference_platform) 0 2000 alice_response race_world))
  = Some alice.
Proof.
  apply (@poller_adopts_exchanged_tokens reference_platform reference_platform_lawful
           0 1 2000 2100 10 alice_response race_world).
  - vm_compute. reflexivity.
  - vm_compute. reflexivity.
  - reflexivity.
  - vm_compute. reflexivity.
Defined.

Lemma undecodable_identity_token_witness :
  exists w1,
    handleAuth_tokens (H := reference_platform) 0 2000 garbled_response race_world
    = (Finished, w1) /\
    userStatus w1 = Error /\ loading w1 = false /\ user w1 = user race_world /\
    requests w1 = requests race_world /\
    stored_tokens (H := reference_platform) w1
    = Normal (Some (mkStoredTokens "access" "garbage" "refresh" 3602000)) /\
    (localStorage
       (reload_world (localStorage (snd (handleAuth_tokens (H := reference_platform)
                                           0 2000 garbled_response race_world))))
     = localStorage w1 ->
     getAuthorizationCode (H := reference_platform)
       (reload_world (localStorage (snd (handleAuth_tokens (H := reference_platform)
                                           0 2000 garbled_response race_world))))
     = (Normal None,
        reload_world (localStorage (snd (handleAuth_tokens (H := reference_platform)
                                           0 2000 garbled_response race_world)))) ->
     4000 < 2000 + 3600 * 1000 ->
     handleAuth_begin (H := reference_platform) 1 4000
       (reload_world (localStorage (snd (handleAuth_tokens (H := reference_platform)
                                           0 2000 garbled_response race_world))))
     = (Rejected "TypeError: Cannot read properties of undefined",
        reload_world (localStorage (snd (handleAuth_tokens (H := reference_platform)
                                           0 2000 garbled_response race_world))))).
Proof.
  apply (@undecodable_identity_token reference_platform reference_platform_lawful
           0 1 2000 4000 garbled_response race_world).
  vm_compute. reflexivity.
Defined.

Lemma parseJwt_reads_only_the_payload_witness :
  parseJwt (H := reference_platform)
    ("eyJhbGciOiJub25lIn0" +:+ "." +:+ "eyJzdWIiOiJ1LTEifQ" +:+ "." +:+ "sig")
  = parseJwt (H := reference_platform)
      ("forged" +:+ "." +:+ "eyJzdWIiOiJ1LTEifQ" +:+ "." +:+ "no.signature.at.all") /\
  parseJwt (H := reference_platform)
    ("eyJhbGciOiJub25lIn0" +:+ "." +:+ "eyJzdWIiOiJ1LTEifQ" +:+ "." +:+ "sig")
  = parseJwt (H := reference_platform) ("forged" +:+ "." +:+ "eyJzdWIiOiJ1LTEifQ").
Proof.
  apply (parseJwt_reads_only_the_payload (H := reference_platform));
    vm_compute; reflexivity.
Defined.

Lemma parseJwt_without_dot_throws_witness :
  parseJwt (H := reference_platform) "garbage"
  = Throw "TypeError: Cannot read properties of undefined" /\
  getUserInfoFromToken (H := reference_platform) "garbage"
  = Throw "TypeError: Cannot read properties of undefined".
Proof.
  apply (parseJwt_without_dot_throws (H := reference_platform)). reflexivity.
Defined.

Lemma parseJwt_decodes_payload_witness :
  parseJwt (H := reference_platform)
    ("eyJhbGciOiJub25lIn0" +:+ "." +:+ base64UrlEncode (TextEncoder_encode alice_payload)
       +:+ "." +:+ "sig")
  = if Reference.utf8_valid (map N_of_ascii (list_ascii_of_string alice_payload)) then
      match JSON_parse (Platform := reference_platform) alice_payload with
      | None => Throw "SyntaxError"
      | Some claims => Normal claims
      end
    else Throw "URIError".
Proof.
  apply (parseJwt_decodes_payload (H := reference_platform)).
  - intros s. reflexivity.
  - intros s. reflexivity.
  - reflexivity.
Defined.

Example alice_id_token_is_encoded_payload :
  alice_id_token
  = "eyJhbGciOiJub25lIn0" +:+ "." +:+ base64UrlEncode (TextEncoder_encode alice_payload)
      +:+ "." +:+ "sig" /\
  parseJwt (H := reference_platform) alice_id_token = Normal (JObj alice_claims).
Proof. by_evaluation. Qed.

(** Payloads that are no objects: [5] gives a user without a single claim,
    [null] makes the first read of a claim throw. *)
Example payloads_that_are_no_objects :
  parseJwt (H := reference_platform) "h.NQ.s" = Normal (JNum 5) /\
  getUserInfoFromToken (H := reference_platform) "h.NQ.s"
  = Normal (mkUserInfo None None None None None None None) /\
  parseJwt (H := reference_platform) "h.bnVsbA.s" = Normal JNull /\
  getUserInfoFromToken (H := reference_platform) "h.bnVsbA.s"
  = Throw "TypeError: Cannot read properties of null".
Proof. by_evaluation. Qed.

(** The cache holds the text [null]: [handleRetry] has switched the status
    from [pending] to [loading] when the read of the identity token ends
    it. *)
Example handleRetry_with_null_cached :
  userStatus null_cache_world = Pending /\
  JSON_parse (Platform := reference_platform) "null" = Some JNull /\
  handleRetry_begin (H := reference_platform) 0 null_cache_world
  = (Rejected "value outside its declared type", setUserStatus Loading null_cache_world).
Proof. by_evaluation. Qed.

Lemma callback_after_sign_in_sends_the_verifier_witness :
  (exists w'',
     handleAuth_begin (H := reference_platform) 0 1000
       (callback_after_sign_in "abc" "ICEiIyQlJicoKSorLC0uLzAxMjM0NTY3ODk6Ozw9Pj8")
     = (AwaitTokenFetch, w'') /\
     requests w''
     = (0%nat,
        TokenRequest
          ("https://" +:+ VITE_COGNITO_DOMAIN (Platform := reference_platform)
             +:+ "/oauth2/token")
          [("grant_type", "authorization_code");
           ("client_id", VITE_COGNITO_USER_POOL_CLIENT_ID (Platform := reference_platform));
           ("code", "abc");
           ("redirect_uri", VITE_REDIRECT_SIGN_IN (Platform := reference_platform));
           ("code_verifier",
            base64UrlEncode
              (map (random_byte counting_crypto) (seq (consumed counting_crypto) 32)))])
       :: requests
            (callback_after_sign_in "abc" "ICEiIyQlJicoKSorLC0uLzAxMjM0NTY3ODk6Ozw9Pj8")) /\
  fst (handleAuth_begin (H := reference_platform) 0 1000
         (callback_after_sign_in "abc" "forged"))
  = Finished /\
  requests (snd (handleAuth_begin (H := reference_platform) 0 1000
                   (callback_after_sign_in "abc" "forged")))
  = requests (callback_after_sign_in "abc" "forged").
Proof.
  split.
  - apply (callback_after_sign_in_sends_the_verifier (H := reference_platform)
             (Some "fr") counting_crypto (snd (fst after_sign_in)) signed_out_world
             (snd after_sign_in)
             (callback_after_sign_in "abc" "ICEiIyQlJicoKSorLC0uLzAxMjM0NTY3ODk6Ozw9Pj8")
             (match fst (fst after_sign_in) with Normal url => url | Throw e => e end)
             0 1000 "abc" "ICEiIyQlJicoKSorLC0uLzAxMjM0NTY3ODk6Ozw9Pj8");
      try (vm_compute; reflexivity); try discriminate.
    exists None. split; vm_compute; reflexivity.
  - apply (callback_after_sign_in_sends_the_verifier (H := reference_platform)
             (Some "fr") counting_crypto (snd (fst after_sign_in)) signed_out_world
             (snd after_sign_in) (callback_after_sign_in "abc" "forged")
             (match fst (fst after_sign_in) with Normal url => url | Throw e => e end)
             0 1000 "abc" "forged");
      try (vm_compute; reflexivity); try discriminate.
    exists None. split; vm_compute; reflexivity.
Defined.

Lemma lang_parameter_is_appended_and_escaped_witness :
  authorize_params (H := reference_platform) (Some "") "st" "ch"
  = authorize_params (H := reference_platform) None "st" "ch" /\
  URLSearchParams_toString
    (authorize_params (H := reference_platform) (Some "fr&state=other") "st" "ch")
  = URLSearchParams_toString (authorize_params (H := reference_platform) None "st" "ch")
      +:+ "&lang=" +:+ urlencoded "fr&state=other" /\
  has_char "&" (urlencoded "fr&state=other") = false.
Proof.
  destruct (lang_parameter_is_appended_and_escaped (H := reference_platform) "st" "ch")
    as (Hnone & _ & Hsome).
  split; [apply Hnone; reflexivity|].
  destruct (Hsome "fr&state=other" ltac:(discriminate)) as (_ & Hurl & Hamp & _).
  split; assumption.
Defined.

Lemma handleSignOut_forgets_the_tokens_witness :
  exists w',
    handleSignOut (H := reference_platform) (H0 := reference_sign_out) signed_in_world
    = ("https://" +:+ VITE_COGNITO_DOMAIN (Platform := reference_platform)
         +:+ "/logout?client_id="
         +:+ VITE_COGNITO_USER_POOL_CLIENT_ID (Platform := reference_platform)
         +:+ "&logout_uri="
         +:+ encodeURIComponent
               (VITE_REDIRECT_SIGN_OUT (SignOutConfiguration := reference_sign_out)), w') /\
    user w' = None /\ userStatus w' = Loading /\
    sessionStorage w' = sessionStorage signed_in_world /\
    handleAuth_begin (H := reference_platform) 0 1000 w' = (Finished, setLoading false w').
Proof.
  destruct (handleSignOut_forgets_the_tokens (H := reference_platform)
              (H0 := reference_sign_out) signed_in_world)
    as (w' & Hout & _ & _ & _ & _ & _ & Huser & Hstatus & _ & Hsession & _ & _ & _ & Hload).
  exists w'. repeat split; try assumption.
  apply Hload. unfold handleSignOut in Hout. injection Hout as <-.
  vm_compute. reflexivity.
Defined.

Example sign_out_url :
  fst (handleSignOut (H := reference_platform) (H0 := reference_sign_out) signed_in_world)
  = "https://auth.example.com/logout?client_id=client-1&logout_uri=https%3A%2F%2Fapp.example.com%2Fbye%3Fx%3D1%26y%3D2%23top".
Proof. vm_compute. reflexivity. Qed.

Lemma storage_footprint_witness :
  (forall k, k <> STORAGE_KEY_VERIFIER -> k <> STORAGE_KEY_STATE ->
     k <> STORAGE_KEY_PENDING_CODE -> k <> STORAGE_KEY_EXCHANGE_IN_PROGRESS ->
     getItem k (sessionStorage (world (run_or race_system (slow_exchange 50))))
     = getItem k (sessionStorage (world race_system))) /\
  (forall k, k <> TOKEN_STORAGE_KEY ->
     getItem k (localStorage (world (run_or race_system (slow_exchange 50))))
     = getItem k (localStorage (world race_system))).
Proof.
  apply (storage_footprint (H := reference_platform) (slow_exchange 50) race_system).
  vm_compute. reflexivity.
Defined.

Lemma failed_sign_in_shows_the_sign_in_screen_witness :
  App_screen (world (run_or race_system failed_exchange_schedule)) = SignInScreen /\
  buttons (App_screen (world (run_or race_system failed_exchange_schedule))) = [OnSignIn] /\
  (owns_exchange AwaitTokenFetch \/ (exists i, AwaitTokenFetch = AwaitTimer i) ->
   userStatus (world (run_or race_system failed_exchange_schedule)) = Error).
Proof.
  apply (failed_sign_in_shows_the_sign_in_screen (H := reference_platform)
           0 1200 (TokenFetchSettled None) AwaitTokenFetch
           (world (run_or race_system [mkLabel 0 1000 Invoke]))).
  - vm_compute. reflexivity.
  - vm_compute. reflexivity.
  - discriminate.
  - discriminate.
Defined.

Lemma approved_only_by_the_backend_witness :
  userStatus (world (run_or valid_cache_system
                       [mkLabel 0 1000 Invoke;
                        mkLabel 0 1200 (StatusSettled (Some (mkStatusResponse 200 None)))]))
  = Approved /\
  (userStatus (world (run_or valid_cache_system [mkLabel 0 1000 Invoke])) = Approved \/
   exists k body,
     AwaitStatus FromCachedTokens = AwaitStatus k /\
     StatusSettled (Some (mkStatusResponse 200 None))
     = StatusSettled (Some (mkStatusResponse 200 body))).
Proof.
  split; [vm_compute; reflexivity|].
  apply (approved_only_by_the_backend (H := reference_platform)
           0 1200 (StatusSettled (Some (mkStatusResponse 200 None)))
           (AwaitStatus FromCachedTokens) Finished
           (world (run_or valid_cache_system [mkLabel 0 1000 Invoke]))
           (world (run_or valid_cache_system
                     [mkLabel 0 1000 Invoke;
                      mkLabel 0 1200 (StatusSettled (Some (mkStatusResponse 200 None)))]))).
  - vm_compute. reflexivity.
  - vm_compute. reflexivity.
Defined.

Lemma language_preference_is_kept_witness :
  initial_language (persist_language "fr" signed_out_world) = "fr" /\
  initial_language (world (run_or race_system (slow_exchange 50)))
  = initial_language (world race_system).
Proof.
  destruct (language_preference_is_kept (H := reference_platform) (H0 := reference_sign_out))
    as (_ & Hsaved & _ & _ & _ & Hrun & _).
  split.
  - apply Hsaved. discriminate.
  - apply (Hrun (slow_exchange 50)). vm_compute. reflexivity.
Defined.

Lemma invocation_terminates_witness :
  (resumptions 1 (slow_exchange 50) <= transitions_left HandleAuth)%nat /\
  (transitions_left HandleAuth <= 52)%nat /\
  (HandleAuth = HandleRetry -> resumptions 1 (slow_exchange 50) <= 2)%nat /\
  (HandleAuth = Finished \/ (exists e, HandleAuth = Rejected e) ->
   resumptions 1 (slow_exchange 50) = 0%nat).
Proof.
  apply (invocation_terminates (H := reference_platform) (slow_exchange 50) race_system
           (run_or race_system (slow_exchange 50)) 1 HandleAuth).
  - vm_compute. reflexivity.
  - reflexivity.
Defined.

Lemma pkce_session_consumed_only_by_ok_response_witness :
  (getItem STORAGE_KEY_VERIFIER
     (sessionStorage (world (run_or race_system failed_exchange_schedule)))
   = getItem STORAGE_KEY_VERIFIER
       (sessionStorage (world (run_or race_system [mkLabel 0 1000 Invoke]))) /\
   getItem STORAGE_KEY_STATE
     (sessionStorage (world (run_or race_system failed_exchange_schedule)))
   = getItem STORAGE_KEY_STATE
       (sessionStorage (world (run_or race_system [mkLabel 0 1000 Invoke])))) \/
  (AwaitTokenFetch = AwaitTokenFetch /\
   TokenFetchSettled None = TokenFetchSettled (Some true) /\ Finished = AwaitTokenJson /\
   getItem STORAGE_KEY_VERIFIER
     (sessionStorage (world (run_or race_system failed_exchange_schedule))) = None /\
   getItem STORAGE_KEY_STATE
     (sessionStorage (world (run_or race_system failed_exchange_schedule))) = None).
Proof.
  apply (pkce_session_consumed_only_by_ok_response (H := reference_platform)
           0 1200 (TokenFetchSettled None) AwaitTokenFetch Finished
           (world (run_or race_system [mkLabel 0 1000 Invoke]))).
  vm_compute. reflexivity.
Defined.

Lemma user_published_with_status_check_witness :
  user (snd (handleAuth_begin (H := reference_platform) 0 1000 valid_cache_world))
  = user valid_cache_world \/
  exists userInfo token k,
    user (snd (handleAuth_begin (H := reference_platform) 0 1000 valid_cache_world))
    = Some userInfo /\
    getUserInfoFromToken (H := reference_platform) token = Normal userInfo /\
    AwaitStatus FromCachedTokens = AwaitStatus k /\
    requests (snd (handleAuth_begin (H := reference_platform) 0 1000 valid_cache_world))
    = (0%nat, StatusRequest (API_BASE_URL +:+ "/api/dashboard") ("Bearer " +:+ token))
        :: requests valid_cache_world.
Proof.
  apply (user_published_with_status_check (H := reference_platform)
           0 1000 Invoke HandleAuth (AwaitStatus FromCachedTokens) valid_cache_world).
  vm_compute. reflexivity.
Defined.

(** A whole sign-in: the button is pressed, the provider redirects back with
    a code and the state that was sent, the effect is mounted twice, the
    exchange succeeds and the backend approves both status checks.  One call
    went to the token endpoint, carrying the verifier of the sign-in; the
    OAuth entries of the ephemeral store are gone; and the authenticated
    screen shows [alice]. *)
Example sign_in_end_to_end :
  let page := callback_after_sign_in "abc" "ICEiIyQlJicoKSorLC0uLzAxMjM0NTY3ODk6Ozw9Pj8" in
  let final :=
    run_or (mkSystem page [HandleAuth; HandleAuth])
      [mkLabel 0 1000 Invoke; mkLabel 1 1001 Invoke;
       mkLabel 1 1101 TimerFired;
       mkLabel 0 1200 (TokenFetchSettled (Some true));
       mkLabel 0 1250 (TokenJsonSettled (Some alice_response));
       mkLabel 1 1301 TimerFired;
       mkLabel 0 1400 (StatusSettled (Some (mkStatusResponse 200 None)));
       mkLabel 1 1500 (StatusSettled (Some (mkStatusResponse 200 None)))] in
  tasks final = [Finished; Finished] /\
  map snd (token_requests (requests (world final)))
  = [TokenRequest "https://auth.example.com/oauth2/token"
       [("grant_type", "authorization_code"); ("client_id", "client-1"); ("code", "abc");
        ("redirect_uri", "https://app.example.com/");
        ("code_verifier", "AAECAwQFBgcICQoLDA0ODxAREhMUFRYXGBkaGxwdHh8")]] /\
  sessionStorage (world final) = ∅ /\
  App_screen (world final) = AuthenticatedScreen alice.
Proof. cbv zeta. by_evaluation. Qed.
